(** * lite-2d physics core: a shallow embedding and its properties

    The development follows the TypeScript sources of the physics package:
    [Vector2], [PhysicsTypes], [PhysicsMaterial], [RigidBody], [Collider]
    (with [BoxCollider] and [CircleCollider]), [CollisionInfo],
    [CollisionDetection], [CollisionResolver], [Raycast] and
    [PhysicsManager].

    Numbers.  A JavaScript [number] is read as a real number: [+ - * /],
    [Math.sqrt], [Math.abs], [Math.min] and [Math.max] are the operations of
    [R], comparisons are decided with [Rlt_dec] and friends, and [===] on
    numbers with [Req_dec_T].  IEEE rounding, infinities and NaN are not part
    of the model, and a division by zero is the total division of [R].

    References.  Game objects, rigid bodies and colliders are objects that the
    source shares by reference and mutates in place.  The model keeps one store
    per class, a total map from handles to records, and passes the stores
    explicitly.  Two stores that hold the same record at every handle are the
    same store (extensionality of functions). *)

From Stdlib Require Import Reals Lra List Bool Arith Lia FunctionalExtensionality.
From Stdlib Require Import Sorted Permutation.
Import ListNotations.

Open Scope R_scope.

(** ** Number helpers *)

(** Comparisons as booleans, for conditions joined by [||] and [&&]. *)
Definition Rltb (a b : R) : bool := if Rlt_dec a b then true else false.
Definition Rleb (a b : R) : bool := if Rle_dec a b then true else false.
Definition Rgtb (a b : R) : bool := Rltb b a.
Definition Rgeb (a b : R) : bool := Rleb b a.
Definition Reqb (a b : R) : bool := if Req_dec_T a b then true else false.

(** [Math.min(a, b, c, d)] *)
Definition Rmin4 (a b c d : R) : R := Rmin (Rmin (Rmin a b) c) d.

(** [Math.max(lo, Math.min(hi, v))], the clamp idiom of the setters. *)
Definition clamp (lo hi v : R) : R := Rmax lo (Rmin hi v).

(** ** Vector2 *)

Module Vector2.

Record t : Type := mk { x : R; y : R }.

(** [new Vector2(x)]: the second constructor argument defaults to [0]. *)
Definition mk1 (x0 : R) : t := mk x0 0.

Definition add (a v : t) : t := mk (x a + x v) (y a + y v).
Definition subtract (a v : t) : t := mk (x a - x v) (y a - y v).
Definition multiply (a : t) (scalar : R) : t := mk (x a * scalar) (y a * scalar).

(** [divide] throws on a zero scalar: [None] stands for the exception. *)
Definition divide (a : t) (scalar : R) : option t :=
  if Req_dec_T scalar 0 then None else Some (mk (x a / scalar) (y a / scalar)).

Definition lengthSquared (a : t) : R := x a * x a + y a * y a.
Definition length (a : t) : R := sqrt (x a * x a + y a * y a).

Definition zero : t := mk 0 0.
Definition one : t := mk 1 1.

(** [normalize]: the zero vector is returned for a zero length; otherwise the
    division cannot throw (see [divide_nonzero]). *)
Definition normalize (a : t) : t :=
  let len := length a in
  if Req_dec_T len 0 then mk 0 0
  else match divide a len with
       | Some v => v
       | None => mk 0 0
       end.

Definition dot (a v : t) : R := x a * x v + y a * y v.

Definition distance (a v : t) : R :=
  let dx := x a - x v in
  let dy := y a - y v in
  sqrt (dx * dx + dy * dy).

Definition clone (a : t) : t := mk (x a) (y a).

Definition distanceSquared (a v : t) : R :=
  let dx := x a - x v in
  let dy := y a - y v in
  dx * dx + dy * dy.

(** [rotate(angle)] *)
Definition rotate (a : t) (angle : R) : t :=
  let c := cos angle in
  let s := sin angle in
  mk (x a * c - y a * s) (x a * s + y a * c).

(** [equals(v, epsilon)]; the default of [epsilon] is [0.0001]. *)
Definition equals (a v : t) (epsilon : R) : bool :=
  Rltb (Rabs (x a - x v)) epsilon && Rltb (Rabs (y a - y v)) epsilon.

Definition up : t := mk 0 (-1).
Definition down : t := mk 0 1.
Definition left : t := mk (-1) 0.
Definition right : t := mk 1 0.

(** [Vector2.lerp(a, b, t)], with [t] clamped to the unit interval. *)
Definition lerp (a b : t) (s : R) : t :=
  let s := Rmax 0 (Rmin 1 s) in
  mk (x a + (x b - x a) * s) (y a + (y b - y a) * s).

(** [Vector2.min(a, b)] and [Vector2.max(a, b)] *)
Definition min (a b : t) : t := mk (Rmin (x a) (x b)) (Rmin (y a) (y b)).
Definition max (a b : t) : t := mk (Rmax (x a) (x b)) (Rmax (y a) (y b)).

End Vector2.

(** ** PhysicsTypes *)

Inductive BodyType : Type := STATIC | KINEMATIC | DYNAMIC.

Definition BodyType_eqb (a b : BodyType) : bool :=
  match a, b with
  | STATIC, STATIC | KINEMATIC, KINEMATIC | DYNAMIC, DYNAMIC => true
  | _, _ => false
  end.

Record AABB : Type := mkAABB { min : Vector2.t; max : Vector2.t }.

Record ContactPoint : Type := mkContactPoint {
  cp_point : Vector2.t;
  cp_normal : Vector2.t;
  cp_penetration : R
}.

(** The object literal [PhysicsConstants].  The functions below take the table
    as an argument, so that the effect of one constant can be stated. *)
Record PhysicsConstantsT : Type := mkConstants {
  GRAVITY : Vector2.t;
  FIXED_TIMESTEP : R;
  MAX_VELOCITY : R;
  SLEEP_THRESHOLD : R;
  SLEEP_TIME : R;
  CORRECTION_PERCENT : R;
  CORRECTION_SLOP : R;
  POSITION_ITERATIONS : nat;
  VELOCITY_ITERATIONS : nat
}.

Definition PhysicsConstants : PhysicsConstantsT := {|
  GRAVITY := Vector2.mk 0 980;
  FIXED_TIMESTEP := 1 / 60;
  MAX_VELOCITY := 5000;
  SLEEP_THRESHOLD := 5 / 10;
  SLEEP_TIME := 5 / 10;
  CORRECTION_PERCENT := 4 / 10;
  CORRECTION_SLOP := 5 / 100;
  POSITION_ITERATIONS := 4;
  VELOCITY_ITERATIONS := 6
|}.

(** ** PhysicsMaterial *)

Module PhysicsMaterial.

Record t : Type := mk { _friction : R; _restitution : R; _density : R }.

(** The constructor stores its three arguments as they are. *)
Definition new (friction restitution density : R) : t :=
  mk friction restitution density.

Definition friction (m : t) : R := _friction m.
Definition restitution (m : t) : R := _restitution m.
Definition density (m : t) : R := _density m.

Definition set_friction (value : R) (m : t) : t :=
  mk (clamp 0 1 value) (_restitution m) (_density m).

Definition set_restitution (value : R) (m : t) : t :=
  mk (_friction m) (clamp 0 1 value) (_density m).

Definition set_density (value : R) (m : t) : t :=
  mk (_friction m) (_restitution m) (Rmax (1 / 1000) value).

Definition default : t := new (4 / 10) (2 / 10) 1.
Definition bouncy : t := new (3 / 10) (9 / 10) 1.
Definition ice : t := new (5 / 100) (1 / 10) (9 / 10).
Definition rubber : t := new (9 / 10) (8 / 10) (11 / 10).

End PhysicsMaterial.

(** ** Transform

    The physics core uses a transform through [position] (get and set),
    [translate], [rotate] and [getWorldPosition].  The record is the local
    pose of a game object without a parent transform, the case in which
    [updateWorldTransform] copies the local pose; the cached world pose is
    recomputed on the first read after every write ([markDirty]), so it is no
    state of its own. *)

Module Transform.

Record t : Type := mk {
  _position : Vector2.t;
  _rotation : R;
  _scale : Vector2.t
}.

Definition new : t := mk Vector2.zero 0 Vector2.one.

Definition position (tr : t) : Vector2.t := _position tr.

Definition set_position (value : Vector2.t) (tr : t) : t :=
  mk value (_rotation tr) (_scale tr).

Definition getWorldPosition (tr : t) : Vector2.t := Vector2.clone (_position tr).

Definition translate (delta : Vector2.t) (tr : t) : t :=
  mk (Vector2.add (_position tr) delta) (_rotation tr) (_scale tr).

Definition rotate (deltaRadians : R) (tr : t) : t :=
  mk (_position tr) (_rotation tr + deltaRadians) (_scale tr).

End Transform.

(** ** GameObject

    What the physics core reads of a game object: its transform and the result
    of [getComponent(RigidBody)], the first rigid body among its components,
    as a handle into the store of bodies. *)

Module GameObject.

Record t : Type := mk {
  transform : Transform.t;
  getComponent_RigidBody : option nat
}.

Definition set_transform (tr : Transform.t) (g : t) : t :=
  mk tr (getComponent_RigidBody g).

End GameObject.

(** ** RigidBody *)

Module RigidBody.

Record t : Type := mk {
  gameObject : option nat;
  enabled : bool;
  _bodyType : BodyType;
  _mass : R;
  _velocity : Vector2.t;
  _angularVelocity : R;
  _acceleration : Vector2.t;
  _force : Vector2.t;
  _torque : R;
  _useGravity : bool;
  _drag : R;
  _angularDrag : R;
  _gravityScale : R;
  _isSleeping : bool;
  _sleepTimer : R
}.

(** The field initialisers of the class; the component starts detached and
    enabled. *)
Definition new : t := {|
  gameObject := None;
  enabled := true;
  _bodyType := DYNAMIC;
  _mass := 1;
  _velocity := Vector2.zero;
  _angularVelocity := 0;
  _acceleration := Vector2.zero;
  _force := Vector2.zero;
  _torque := 0;
  _useGravity := true;
  _drag := 1 / 10;
  _angularDrag := 5 / 100;
  _gravityScale := 1;
  _isSleeping := false;
  _sleepTimer := 0
|}.

(** Assignments to single private fields. *)
Definition with_velocity (v : Vector2.t) (b : t) : t :=
  mk (gameObject b) (enabled b) (_bodyType b) (_mass b) v (_angularVelocity b)
     (_acceleration b) (_force b) (_torque b) (_useGravity b) (_drag b)
     (_angularDrag b) (_gravityScale b) (_isSleeping b) (_sleepTimer b).

Definition with_angularVelocity (w : R) (b : t) : t :=
  mk (gameObject b) (enabled b) (_bodyType b) (_mass b) (_velocity b) w
     (_acceleration b) (_force b) (_torque b) (_useGravity b) (_drag b)
     (_angularDrag b) (_gravityScale b) (_isSleeping b) (_sleepTimer b).

Definition with_acceleration (a : Vector2.t) (b : t) : t :=
  mk (gameObject b) (enabled b) (_bodyType b) (_mass b) (_velocity b)
     (_angularVelocity b) a (_force b) (_torque b) (_useGravity b) (_drag b)
     (_angularDrag b) (_gravityScale b) (_isSleeping b) (_sleepTimer b).

Definition with_force (f : Vector2.t) (b : t) : t :=
  mk (gameObject b) (enabled b) (_bodyType b) (_mass b) (_velocity b)
     (_angularVelocity b) (_acceleration b) f (_torque b) (_useGravity b)
     (_drag b) (_angularDrag b) (_gravityScale b) (_isSleeping b) (_sleepTimer b).

Definition with_torque (q : R) (b : t) : t :=
  mk (gameObject b) (enabled b) (_bodyType b) (_mass b) (_velocity b)
     (_angularVelocity b) (_acceleration b) (_force b) q (_useGravity b)
     (_drag b) (_angularDrag b) (_gravityScale b) (_isSleeping b) (_sleepTimer b).

Definition with_isSleeping (s : bool) (b : t) : t :=
  mk (gameObject b) (enabled b) (_bodyType b) (_mass b) (_velocity b)
     (_angularVelocity b) (_acceleration b) (_force b) (_torque b)
     (_useGravity b) (_drag b) (_angularDrag b) (_gravityScale b) s
     (_sleepTimer b).

Definition with_sleepTimer (s : R) (b : t) : t :=
  mk (gameObject b) (enabled b) (_bodyType b) (_mass b) (_velocity b)
     (_angularVelocity b) (_acceleration b) (_force b) (_torque b)
     (_useGravity b) (_drag b) (_angularDrag b) (_gravityScale b)
     (_isSleeping b) s.

Definition with_bodyType (ty : BodyType) (b : t) : t :=
  mk (gameObject b) (enabled b) ty (_mass b) (_velocity b)
     (_angularVelocity b) (_acceleration b) (_force b) (_torque b)
     (_useGravity b) (_drag b) (_angularDrag b) (_gravityScale b)
     (_isSleeping b) (_sleepTimer b).

Definition with_mass (m : R) (b : t) : t :=
  mk (gameObject b) (enabled b) (_bodyType b) m (_velocity b)
     (_angularVelocity b) (_acceleration b) (_force b) (_torque b)
     (_useGravity b) (_drag b) (_angularDrag b) (_gravityScale b)
     (_isSleeping b) (_sleepTimer b).

Definition wakeUp (b : t) : t := with_sleepTimer 0 (with_isSleeping false b).

Definition bodyType (b : t) : BodyType := _bodyType b.

Definition set_bodyType (value : BodyType) (b : t) : t :=
  let b1 := with_bodyType value b in
  if BodyType_eqb value DYNAMIC then wakeUp b1 else b1.

Definition set_mass (value : R) (b : t) : t := with_mass (Rmax (1 / 1000) value) b.

Definition inverseMass (b : t) : R :=
  if BodyType_eqb (_bodyType b) STATIC then 0 else 1 / _mass b.

Definition velocity (b : t) : Vector2.t := _velocity b.

(** The [velocity] setter wakes the body for a non-negligible value. *)
Definition set_velocity (value : Vector2.t) (b : t) : t :=
  let b1 := with_velocity value b in
  if Rlt_dec (1 / 100) (Vector2.lengthSquared value) then wakeUp b1 else b1.

Definition set_angularVelocity (value : R) (b : t) : t :=
  let b1 := with_angularVelocity value b in
  if Rlt_dec (1 / 100) (Rabs value) then wakeUp b1 else b1.

Definition addForce (force : Vector2.t) (b : t) : t :=
  if negb (BodyType_eqb (_bodyType b) DYNAMIC) then b
  else wakeUp (with_force (Vector2.add (_force b) force) b).

Definition addImpulse (impulse : Vector2.t) (b : t) : t :=
  if negb (BodyType_eqb (_bodyType b) DYNAMIC) then b
  else wakeUp (with_velocity
                 (Vector2.add (_velocity b) (Vector2.multiply impulse (inverseMass b))) b).

Definition addTorque (torque : R) (b : t) : t :=
  if negb (BodyType_eqb (_bodyType b) DYNAMIC) then b
  else wakeUp (with_torque (_torque b + torque) b).

Section WithConstants.

Variable K : PhysicsConstantsT.

Definition updateSleep (deltaTime : R) (b : t) : t :=
  let speed := Vector2.length (_velocity b) in
  let angularSpeed := Rabs (_angularVelocity b) in
  if Rlt_dec speed (SLEEP_THRESHOLD K) then
    if Rlt_dec angularSpeed (SLEEP_THRESHOLD K) then
      let b1 := with_sleepTimer (_sleepTimer b + deltaTime) b in
      if Rle_dec (SLEEP_TIME K) (_sleepTimer b1) then
        with_angularVelocity 0 (with_velocity Vector2.zero (with_isSleeping true b1))
      else b1
    else with_sleepTimer 0 b
  else with_sleepTimer 0 b.

(** [fixedUpdate(deltaTime)].  [otr] is the transform of [this.gameObject], or
    [None] when the body has no game object; the result is the body and that
    transform after the call. *)
Definition fixedUpdate (deltaTime : R) (b : t) (otr : option Transform.t)
  : t * option Transform.t :=
  if negb (BodyType_eqb (_bodyType b) DYNAMIC) then (b, otr)
  else if _isSleeping b then (b, otr)
  else match otr with
       | None => (b, None)
       | Some tr =>
           (* 1 *)
           let b1 :=
             if _useGravity b then
               let gravity := Vector2.multiply (GRAVITY K) (_gravityScale b) in
               with_force (Vector2.add (_force b) (Vector2.multiply gravity (_mass b))) b
             else b in
           (* 2 *)
           let b2 := with_acceleration (Vector2.multiply (_force b1) (inverseMass b1)) b1 in
           (* 3 *)
           let b3 := with_velocity
                       (Vector2.add (_velocity b2)
                          (Vector2.multiply (_acceleration b2) deltaTime)) b2 in
           (* 4 *)
           let dragFactor := Rmax 0 (1 - _drag b3 * deltaTime * 10) in
           let b4 := with_velocity (Vector2.multiply (_velocity b3) dragFactor) b3 in
           (* 5 *)
           let speedSquared := Vector2.lengthSquared (_velocity b4) in
           let b5 :=
             if Rlt_dec (MAX_VELOCITY K * MAX_VELOCITY K) speedSquared then
               with_velocity
                 (Vector2.multiply (Vector2.normalize (_velocity b4)) (MAX_VELOCITY K)) b4
             else b4 in
           (* 6 *)
           let displacement := Vector2.multiply (_velocity b5) deltaTime in
           let tr1 := Transform.translate displacement tr in
           (* 7 *)
           let angularDragFactor := Rmax 0 (1 - _angularDrag b5 * deltaTime * 10) in
           let b6 := with_angularVelocity (_angularVelocity b5 * angularDragFactor) b5 in
           let tr2 := Transform.rotate (_angularVelocity b6 * deltaTime) tr1 in
           (* 8 *)
           let b7 := with_torque 0 (with_force Vector2.zero b6) in
           (* 9 *)
           (updateSleep deltaTime b7, Some tr2)
       end.

End WithConstants.

End RigidBody.

(** ** Collider, BoxCollider, CircleCollider

    The two concrete classes differ in one private field and in
    [computeBounds] and [containsPoint]; [shape] carries the class and its
    field.  [Set<number>] is a duplicate-free list in insertion order. *)

Definition set_has (s : list nat) (n : nat) : bool := existsb (Nat.eqb n) s.

Definition set_add (s : list nat) (n : nat) : list nat :=
  if set_has s n then s else s ++ [n].

Module Collider.

Inductive Shape : Type :=
| BoxCollider (_size : Vector2.t)
| CircleCollider (_radius : R).

Record t : Type := mk {
  gameObject : option nat;
  enabled : bool;
  _isTrigger : bool;
  _material : PhysicsMaterial.t;
  _offset : Vector2.t;
  _bounds : option AABB;
  _currentCollisions : list nat;
  _previousCollisions : list nat;
  shape : Shape
}.

(** The field initialisers of [Collider] with those of the subclass. *)
Definition new (s : Shape) : t := {|
  gameObject := None;
  enabled := true;
  _isTrigger := false;
  _material := PhysicsMaterial.default;
  _offset := Vector2.zero;
  _bounds := None;
  _currentCollisions := [];
  _previousCollisions := [];
  shape := s
|}.

Definition newBoxCollider : t := new (BoxCollider (Vector2.mk 50 50)).
Definition newCircleCollider : t := new (CircleCollider 25).

Definition with_bounds (b : option AABB) (c : t) : t :=
  mk (gameObject c) (enabled c) (_isTrigger c) (_material c) (_offset c) b
     (_currentCollisions c) (_previousCollisions c) (shape c).

Definition with_collisions (cur prev : list nat) (c : t) : t :=
  mk (gameObject c) (enabled c) (_isTrigger c) (_material c) (_offset c)
     (_bounds c) cur prev (shape c).

Definition with_shape (s : Shape) (c : t) : t :=
  mk (gameObject c) (enabled c) (_isTrigger c) (_material c) (_offset c)
     (_bounds c) (_currentCollisions c) (_previousCollisions c) s.

Definition isTrigger (c : t) : bool := _isTrigger c.
Definition material (c : t) : PhysicsMaterial.t := _material c.

(** The getters [CircleCollider.radius] and [BoxCollider.size].  The static
    types of the source call each only on its own class; the other class gets
    a default that no caller reads. *)
Definition radius (c : t) : R :=
  match shape c with
  | CircleCollider r => r
  | BoxCollider _ => 0
  end.

Definition size (c : t) : Vector2.t :=
  match shape c with
  | BoxCollider s => s
  | CircleCollider _ => Vector2.zero
  end.

(** [CircleCollider.radius] setter; a box keeps its fields. *)
Definition set_radius (value : R) (c : t) : t :=
  match shape c with
  | CircleCollider _ => with_shape (CircleCollider (Rmax (1 / 10) value)) c
  | BoxCollider _ => c
  end.

(** [BoxCollider.size] setter. *)
Definition set_size (value : Vector2.t) (c : t) : t :=
  match shape c with
  | BoxCollider _ => with_shape (BoxCollider value) c
  | CircleCollider _ => c
  end.

Definition updateCollisionState (c : t) : t :=
  with_collisions [] (_currentCollisions c) c.

(** [addCollision(other)], with the id of [other]. *)
Definition addCollision (otherId : nat) (c : t) : t :=
  with_collisions (set_add (_currentCollisions c) otherId) (_previousCollisions c) c.

Definition isCollisionEnter (c : t) (otherId : nat) : bool :=
  set_has (_currentCollisions c) otherId && negb (set_has (_previousCollisions c) otherId).

Definition isCollisionStay (c : t) (otherId : nat) : bool :=
  set_has (_currentCollisions c) otherId && set_has (_previousCollisions c) otherId.

Definition isCollisionExit (c : t) (otherId : nat) : bool :=
  negb (set_has (_currentCollisions c) otherId) && set_has (_previousCollisions c) otherId.

(** [computeBounds] of both classes, given the collider's world position. *)
Definition computeBoundsAt (worldPos : Vector2.t) (c : t) : AABB :=
  match shape c with
  | BoxCollider size =>
      let halfSize := Vector2.multiply size (5 / 10) in
      mkAABB (Vector2.mk (Vector2.x worldPos - Vector2.x halfSize)
                         (Vector2.y worldPos - Vector2.y halfSize))
             (Vector2.mk (Vector2.x worldPos + Vector2.x halfSize)
                         (Vector2.y worldPos + Vector2.y halfSize))
  | CircleCollider radius =>
      mkAABB (Vector2.mk (Vector2.x worldPos - radius) (Vector2.y worldPos - radius))
             (Vector2.mk (Vector2.x worldPos + radius) (Vector2.y worldPos + radius))
  end.

End Collider.

(** ** CollisionInfo

    [_colliderA] and [_colliderB] are references to colliders: handles into
    the store of colliders. *)

Module CollisionInfo.

Record t : Type := mk {
  _colliderA : nat;
  _colliderB : nat;
  _contacts : list ContactPoint;
  _normal : Vector2.t;
  _penetration : R
}.

Definition colliderA (i : t) : nat := _colliderA i.
Definition colliderB (i : t) : nat := _colliderB i.
Definition contacts (i : t) : list ContactPoint := _contacts i.
Definition normal (i : t) : Vector2.t := _normal i.
Definition penetration (i : t) : R := _penetration i.

Definition swapColliders (i : t) : t :=
  mk (_colliderB i) (_colliderA i) (_contacts i)
     (Vector2.multiply (_normal i) (-1)) (_penetration i).

End CollisionInfo.

(** ** Events and the world

    A call of one of the six callbacks of a game object is recorded in the
    log of the world, with the game object and the argument it receives; what
    the callbacks of subclasses do is not part of the physics core. *)

Record CollisionEvent : Type := mkCollisionEvent {
  other : nat;
  contact : option ContactPoint;
  ev_normal : Vector2.t;
  ev_penetration : R
}.

Inductive Event : Type :=
| onCollisionEnter (target : nat) (collision : CollisionEvent)
| onCollisionStay (target : nat) (collision : CollisionEvent)
| onCollisionExit (target : nat) (otherCollider : nat)
| onTriggerEnter (target : nat) (otherCollider : nat)
| onTriggerStay (target : nat) (otherCollider : nat)
| onTriggerExit (target : nat) (otherCollider : nat).


(** The key [`${idA}-${idB}`] of a pair, smaller id first, as the two ids. *)
Definition PairKey : Type := (nat * nat)%type.

Definition PairKey_eqb (k1 k2 : PairKey) : bool :=
  Nat.eqb (fst k1) (fst k2) && Nat.eqb (snd k1) (snd k2).

(** [Map<string, CollisionInfo>]: entries in insertion order; [set] on a key
    that is present replaces the value in place. *)
Fixpoint map_set (m : list (PairKey * CollisionInfo.t)) (k : PairKey)
  (v : CollisionInfo.t) : list (PairKey * CollisionInfo.t) :=
  match m with
  | [] => [(k, v)]
  | (k', v') :: rest =>
      if PairKey_eqb k' k then (k', v) :: rest else (k', v') :: map_set rest k v
  end.

(** The stores of the three classes, the fields of the [PhysicsManager]
    singleton and the log of callback calls.  A collider is stored at its
    [id]: the static counter [_nextId] gives every collider an id of its own. *)
Record World : Type := mkWorld {
  objects : nat -> GameObject.t;
  bodies : nat -> RigidBody.t;
  colliders : nat -> Collider.t;
  _rigidbodies : list nat;
  _colliders : list nat;
  _gravity : Vector2.t;
  _fixedTimestep : R;
  _accumulator : R;
  _collisionPairs : list (PairKey * CollisionInfo.t);
  events : list Event
}.

Definition upd {A : Type} (f : nat -> A) (k : nat) (v : A) : nat -> A :=
  fun i => if Nat.eqb i k then v else f i.

Definition with_object (g : nat) (o : GameObject.t) (W : World) : World :=
  mkWorld (upd (objects W) g o) (bodies W) (colliders W) (_rigidbodies W)
          (_colliders W) (_gravity W) (_fixedTimestep W) (_accumulator W)
          (_collisionPairs W) (events W).

Definition with_body (h : nat) (b : RigidBody.t) (W : World) : World :=
  mkWorld (objects W) (upd (bodies W) h b) (colliders W) (_rigidbodies W)
          (_colliders W) (_gravity W) (_fixedTimestep W) (_accumulator W)
          (_collisionPairs W) (events W).

Definition with_collider (h : nat) (c : Collider.t) (W : World) : World :=
  mkWorld (objects W) (bodies W) (upd (colliders W) h c) (_rigidbodies W)
          (_colliders W) (_gravity W) (_fixedTimestep W) (_accumulator W)
          (_collisionPairs W) (events W).

Definition with_gravity (g : Vector2.t) (W : World) : World :=
  mkWorld (objects W) (bodies W) (colliders W) (_rigidbodies W)
          (_colliders W) g (_fixedTimestep W) (_accumulator W)
          (_collisionPairs W) (events W).

Definition with_fixedTimestep (v : R) (W : World) : World :=
  mkWorld (objects W) (bodies W) (colliders W) (_rigidbodies W)
          (_colliders W) (_gravity W) v (_accumulator W)
          (_collisionPairs W) (events W).

Definition with_accumulator (v : R) (W : World) : World :=
  mkWorld (objects W) (bodies W) (colliders W) (_rigidbodies W)
          (_colliders W) (_gravity W) (_fixedTimestep W) v
          (_collisionPairs W) (events W).

Definition with_collisionPairs (m : list (PairKey * CollisionInfo.t)) (W : World) : World :=
  mkWorld (objects W) (bodies W) (colliders W) (_rigidbodies W)
          (_colliders W) (_gravity W) (_fixedTimestep W) (_accumulator W)
          m (events W).

Definition emit (e : Event) (W : World) : World :=
  mkWorld (objects W) (bodies W) (colliders W) (_rigidbodies W)
          (_colliders W) (_gravity W) (_fixedTimestep W) (_accumulator W)
          (_collisionPairs W) (events W ++ [e]).

(** *** Methods of a collider that read or write the stores *)

(** [getWorldPosition()] *)
Definition Collider_getWorldPosition (W : World) (h : nat) : Vector2.t :=
  let c := colliders W h in
  match Collider.gameObject c with
  | None => Vector2.clone (Collider._offset c)
  | Some g =>
      Vector2.add
        (Transform.getWorldPosition (GameObject.transform (objects W g)))
        (Collider._offset c)
  end.

(** [computeBounds()] *)
Definition Collider_computeBounds (W : World) (h : nat) : AABB :=
  Collider.computeBoundsAt (Collider_getWorldPosition W h) (colliders W h).

(** [updateBounds()] *)
Definition Collider_updateBounds (h : nat) (W : World) : World :=
  with_collider h
    (Collider.with_bounds (Some (Collider_computeBounds W h)) (colliders W h)) W.

(** [getBounds()]: the cached box, computed and stored first when absent. *)
Definition Collider_getBounds (h : nat) (W : World) : AABB * World :=
  match Collider._bounds (colliders W h) with
  | Some b => (b, W)
  | None => (Collider_computeBounds W h, Collider_updateBounds h W)
  end.

(** [containsPoint(point)] of both classes: a box tests its cached bounds, a
    circle the distance to its world position. *)
Definition Collider_containsPoint (h : nat) (point : Vector2.t) (W : World) : bool * World :=
  match Collider.shape (colliders W h) with
  | Collider.BoxCollider _ =>
      let '(bounds, W1) := Collider_getBounds h W in
      (Rgeb (Vector2.x point) (Vector2.x (min bounds))
       && Rleb (Vector2.x point) (Vector2.x (max bounds))
       && Rgeb (Vector2.y point) (Vector2.y (min bounds))
       && Rleb (Vector2.y point) (Vector2.y (max bounds)), W1)
  | Collider.CircleCollider radius =>
      let worldPos := Collider_getWorldPosition W h in
      let distanceSquared := Vector2.lengthSquared (Vector2.subtract point worldPos) in
      (Rleb distanceSquared (radius * radius), W)
  end.

(** ** CollisionDetection *)

Module CollisionDetection.

Import Collider.

(** [testAABB(a, b)] *)
Definition testAABB (a b : nat) (W : World) : option CollisionInfo.t * World :=
  let '(boundsA, W1) := Collider_getBounds a W in
  let '(boundsB, W2) := Collider_getBounds b W1 in
  if Rltb (Vector2.x (max boundsA)) (Vector2.x (min boundsB))
     || Rgtb (Vector2.x (min boundsA)) (Vector2.x (max boundsB))
     || Rltb (Vector2.y (max boundsA)) (Vector2.y (min boundsB))
     || Rgtb (Vector2.y (min boundsA)) (Vector2.y (max boundsB))
  then (None, W2)
  else
    let overlapX1 := Vector2.x (max boundsA) - Vector2.x (min boundsB) in
    let overlapX2 := Vector2.x (max boundsB) - Vector2.x (min boundsA) in
    let overlapY1 := Vector2.y (max boundsA) - Vector2.y (min boundsB) in
    let overlapY2 := Vector2.y (max boundsB) - Vector2.y (min boundsA) in
    let overlapX := Rmin overlapX1 overlapX2 in
    let overlapY := Rmin overlapY1 overlapY2 in
    let '(normal, penetration) :=
      if Rltb overlapX overlapY then
        (if Rltb overlapX1 overlapX2 then Vector2.mk 1 0 else Vector2.mk (-1) 0, overlapX)
      else
        (if Rltb overlapY1 overlapY2 then Vector2.mk 0 1 else Vector2.mk 0 (-1), overlapY) in
    let contactPoint :=
      mkContactPoint
        (Vector2.multiply
           (Vector2.mk1
              (Rmax (Vector2.x (min boundsA)) (Vector2.x (min boundsB))
               + Rmin (Vector2.x (max boundsA)) (Vector2.x (max boundsB))))
           (5 / 10))
        normal penetration in
    (Some (CollisionInfo.mk a b [contactPoint] normal penetration), W2).

(** [testCircleCircle(a, b)] *)
Definition testCircleCircle (a b : nat) (W : World) : option CollisionInfo.t :=
  let posA := Collider_getWorldPosition W a in
  let posB := Collider_getWorldPosition W b in
  let delta := Vector2.subtract posB posA in
  let distanceSquared := Vector2.lengthSquared delta in
  let radiusSum := radius (colliders W a) + radius (colliders W b) in
  if Rgeb distanceSquared (radiusSum * radiusSum) then None
  else
    let distance := sqrt distanceSquared in
    let penetration := radiusSum - distance in
    let normal :=
      if Rgtb distance (1 / 10000) then Vector2.normalize delta else Vector2.mk 1 0 in
    let contactPos := Vector2.add posA (Vector2.multiply normal (radius (colliders W a))) in
    let contactPoint := mkContactPoint contactPos normal penetration in
    Some (CollisionInfo.mk a b [contactPoint] normal penetration).

(** [testAABBCircle(box, circle)] *)
Definition testAABBCircle (box circle : nat) (W : World) : option CollisionInfo.t * World :=
  let '(boxBounds, W1) := Collider_getBounds box W in
  let circlePos := Collider_getWorldPosition W1 circle in
  let closestX :=
    Rmax (Vector2.x (min boxBounds)) (Rmin (Vector2.x circlePos) (Vector2.x (max boxBounds))) in
  let closestY :=
    Rmax (Vector2.y (min boxBounds)) (Rmin (Vector2.y circlePos) (Vector2.y (max boxBounds))) in
  let closest := Vector2.mk closestX closestY in
  let delta := Vector2.subtract circlePos closest in
  let distanceSquared := Vector2.lengthSquared delta in
  let r := radius (colliders W1 circle) in
  if Rgeb distanceSquared (r * r) then (None, W1)
  else
    let distance := sqrt distanceSquared in
    let penetration := r - distance in
    let normal :=
      if Rgtb distance (1 / 10000) then Vector2.normalize delta
      else
        let distToLeft := Vector2.x circlePos - Vector2.x (min boxBounds) in
        let distToRight := Vector2.x (max boxBounds) - Vector2.x circlePos in
        let distToTop := Vector2.y circlePos - Vector2.y (min boxBounds) in
        let distToBottom := Vector2.y (max boxBounds) - Vector2.y circlePos in
        let minDist := Rmin4 distToLeft distToRight distToTop distToBottom in
        if Reqb minDist distToLeft then Vector2.mk (-1) 0
        else if Reqb minDist distToRight then Vector2.mk 1 0
        else if Reqb minDist distToTop then Vector2.mk 0 (-1)
        else Vector2.mk 0 1 in
    let contactPoint := mkContactPoint closest normal penetration in
    (Some (CollisionInfo.mk box circle [contactPoint] normal penetration), W1).

(** [detect(a, b)].  The final [return null] of the source is for a collider
    of neither class; the repository has the two classes only. *)
Definition detect (a b : nat) (W : World) : option CollisionInfo.t * World :=
  match shape (colliders W a), shape (colliders W b) with
  | BoxCollider _, BoxCollider _ => testAABB a b W
  | CircleCollider _, CircleCollider _ => (testCircleCircle a b W, W)
  | BoxCollider _, CircleCollider _ => testAABBCircle a b W
  | CircleCollider _, BoxCollider _ =>
      let '(info, W1) := testAABBCircle b a W in
      (option_map CollisionInfo.swapColliders info, W1)
  end.

End CollisionDetection.

(** ** CollisionResolver *)

Module CollisionResolver.

Section WithConstants.

Variable K : PhysicsConstantsT.

(** [collider.gameObject?.getComponent(RigidBody)] *)
Definition bodyOf (W : World) (c : nat) : option nat :=
  match Collider.gameObject (colliders W c) with
  | None => None
  | Some g => GameObject.getComponent_RigidBody (objects W g)
  end.

(** [body.gameObject.transform.position = value] *)
Definition set_transform_position (g : nat) (value : Vector2.t) (W : World) : World :=
  let o := objects W g in
  with_object g
    (GameObject.set_transform (Transform.set_position value (GameObject.transform o)) o) W.

(** [resolvePositionalCorrection(info, bodyA, bodyB)] *)
Definition resolvePositionalCorrection (info : CollisionInfo.t) (bodyA bodyB : nat)
  (W : World) : World :=
  let percent := CORRECTION_PERCENT K in
  let slop := CORRECTION_SLOP K in
  let correctionDepth := Rmax (CollisionInfo.penetration info - slop) 0 in
  if Rleb correctionDepth 0 then W
  else
    let totalInverseMass :=
      RigidBody.inverseMass (bodies W bodyA) + RigidBody.inverseMass (bodies W bodyB) in
    if Reqb totalInverseMass 0 then W
    else
      let correction :=
        Vector2.multiply (CollisionInfo.normal info)
          (correctionDepth / totalInverseMass * percent) in
      let W1 :=
        match RigidBody.gameObject (bodies W bodyA) with
        | Some g =>
            if BodyType_eqb (RigidBody.bodyType (bodies W bodyA)) DYNAMIC then
              let posA := Transform.position (GameObject.transform (objects W g)) in
              set_transform_position g
                (Vector2.subtract posA
                   (Vector2.multiply correction (RigidBody.inverseMass (bodies W bodyA)))) W
            else W
        | None => W
        end in
      match RigidBody.gameObject (bodies W1 bodyB) with
      | Some g =>
          if BodyType_eqb (RigidBody.bodyType (bodies W1 bodyB)) DYNAMIC then
            let posB := Transform.position (GameObject.transform (objects W1 g)) in
            set_transform_position g
              (Vector2.add posB
                 (Vector2.multiply correction (RigidBody.inverseMass (bodies W1 bodyB)))) W1
          else W1
      | None => W1
      end.

(** [body.velocity = value], through the setter. *)
Definition assign_velocity (h : nat) (value : Vector2.t) (W : World) : World :=
  with_body h (RigidBody.set_velocity value (bodies W h)) W.

(** [resolveFriction(info, bodyA, bodyB, normalImpulseMagnitude)] *)
Definition resolveFriction (info : CollisionInfo.t) (bodyA bodyB : nat)
  (normalImpulseMagnitude : R) (W : World) : World :=
  let relativeVel :=
    Vector2.subtract (RigidBody.velocity (bodies W bodyB))
                     (RigidBody.velocity (bodies W bodyA)) in
  let normalVel :=
    Vector2.multiply (CollisionInfo.normal info)
      (Vector2.dot relativeVel (CollisionInfo.normal info)) in
  let tangentVel := Vector2.subtract relativeVel normalVel in
  if Rltb (Vector2.lengthSquared tangentVel) (1 / 10000) then W
  else
    let tangent := Vector2.normalize tangentVel in
    let friction :=
      sqrt (PhysicsMaterial.friction (Collider.material (colliders W (CollisionInfo.colliderA info)))
            * PhysicsMaterial.friction (Collider.material (colliders W (CollisionInfo.colliderB info)))) in
    let totalInverseMass :=
      RigidBody.inverseMass (bodies W bodyA) + RigidBody.inverseMass (bodies W bodyB) in
    if Reqb totalInverseMass 0 then W
    else
      let jt := - Vector2.dot relativeVel tangent / totalInverseMass in
      let maxFriction := Rabs normalImpulseMagnitude * friction in
      let frictionImpulseMagnitude := Rmax (- maxFriction) (Rmin jt maxFriction) in
      let frictionImpulse := Vector2.multiply tangent frictionImpulseMagnitude in
      let W1 :=
        if BodyType_eqb (RigidBody.bodyType (bodies W bodyA)) DYNAMIC then
          assign_velocity bodyA
            (Vector2.subtract (RigidBody.velocity (bodies W bodyA))
               (Vector2.multiply frictionImpulse (RigidBody.inverseMass (bodies W bodyA)))) W
        else W in
      if BodyType_eqb (RigidBody.bodyType (bodies W1 bodyB)) DYNAMIC then
        assign_velocity bodyB
          (Vector2.add (RigidBody.velocity (bodies W1 bodyB))
             (Vector2.multiply frictionImpulse (RigidBody.inverseMass (bodies W1 bodyB)))) W1
      else W1.

(** [resolveImpulse(info, bodyA, bodyB)] *)
Definition resolveImpulse (info : CollisionInfo.t) (bodyA bodyB : nat) (W : World) : World :=
  let relativeVel :=
    Vector2.subtract (RigidBody.velocity (bodies W bodyB))
                     (RigidBody.velocity (bodies W bodyA)) in
  let velAlongNormal := Vector2.dot relativeVel (CollisionInfo.normal info) in
  if Rgtb velAlongNormal 0 then W
  else
    let e :=
      Rmin (PhysicsMaterial.restitution (Collider.material (colliders W (CollisionInfo.colliderA info))))
           (PhysicsMaterial.restitution (Collider.material (colliders W (CollisionInfo.colliderB info)))) in
    let totalInverseMass :=
      RigidBody.inverseMass (bodies W bodyA) + RigidBody.inverseMass (bodies W bodyB) in
    if Reqb totalInverseMass 0 then W
    else
      let j := - (1 + e) * velAlongNormal / totalInverseMass in
      let impulse := Vector2.multiply (CollisionInfo.normal info) j in
      let W1 :=
        if BodyType_eqb (RigidBody.bodyType (bodies W bodyA)) DYNAMIC then
          assign_velocity bodyA
            (Vector2.subtract (RigidBody.velocity (bodies W bodyA))
               (Vector2.multiply impulse (RigidBody.inverseMass (bodies W bodyA)))) W
        else W in
      let W2 :=
        if BodyType_eqb (RigidBody.bodyType (bodies W1 bodyB)) DYNAMIC then
          assign_velocity bodyB
            (Vector2.add (RigidBody.velocity (bodies W1 bodyB))
               (Vector2.multiply impulse (RigidBody.inverseMass (bodies W1 bodyB)))) W1
        else W1 in
      resolveFriction info bodyA bodyB j W2.

(** [resolve(info)] *)
Definition resolve (info : CollisionInfo.t) (W : World) : World :=
  match bodyOf W (CollisionInfo.colliderA info), bodyOf W (CollisionInfo.colliderB info) with
  | Some bodyA, Some bodyB =>
      if BodyType_eqb (RigidBody.bodyType (bodies W bodyA)) STATIC
         && BodyType_eqb (RigidBody.bodyType (bodies W bodyB)) STATIC
      then W
      else resolveImpulse info bodyA bodyB (resolvePositionalCorrection info bodyA bodyB W)
  | _, _ => W
  end.

(** [resolvePositionOnly(info)] *)
Definition resolvePositionOnly (info : CollisionInfo.t) (W : World) : World :=
  match bodyOf W (CollisionInfo.colliderA info), bodyOf W (CollisionInfo.colliderB info) with
  | Some bodyA, Some bodyB =>
      if BodyType_eqb (RigidBody.bodyType (bodies W bodyA)) STATIC
         && BodyType_eqb (RigidBody.bodyType (bodies W bodyB)) STATIC
      then W
      else resolvePositionalCorrection info bodyA bodyB W
  | _, _ => W
  end.

End WithConstants.

End CollisionResolver.

(** ** Raycast *)

Record RaycastHit : Type := mkRaycastHit {
  hit_collider : nat;
  hit_point : Vector2.t;
  hit_normal : Vector2.t;
  hit_distance : R
}.

Module Raycast.

(** One axis of the slab method.  [raycastAABB] has this block twice, on the
    x and on the y coordinates; [None] is its [return null]. *)
Definition slabAxis (o d lo hi tmin tmax : R) : option (R * R) :=
  if Rltb (Rabs d) (1 / 10000) then
    if Rltb o lo || Rgtb o hi then None else Some (tmin, tmax)
  else
    let invD := 1 / d in
    let t1 := (lo - o) * invD in
    let t2 := (hi - o) * invD in
    let '(t1, t2) := if Rgtb t1 t2 then (t2, t1) else (t1, t2) in
    let tmin := Rmax tmin t1 in
    let tmax := Rmin tmax t2 in
    if Rgtb tmin tmax then None else Some (tmin, tmax).

(** [raycastAABB(origin, direction, collider, maxDistance)] *)
Definition raycastAABB (origin direction : Vector2.t) (collider : nat) (maxDistance : R)
  (W : World) : option RaycastHit * World :=
  let '(bounds, W1) := Collider_getBounds collider W in
  match slabAxis (Vector2.x origin) (Vector2.x direction)
                 (Vector2.x (min bounds)) (Vector2.x (max bounds)) 0 maxDistance with
  | None => (None, W1)
  | Some (tmin, tmax) =>
      match slabAxis (Vector2.y origin) (Vector2.y direction)
                     (Vector2.y (min bounds)) (Vector2.y (max bounds)) tmin tmax with
      | None => (None, W1)
      | Some (tmin, tmax) =>
          let t := if Rgeb tmin 0 then tmin else tmax in
          if Rltb t 0 || Rgtb t maxDistance then (None, W1)
          else
            let point := Vector2.add origin (Vector2.multiply direction t) in
            let epsilon := 1 / 10000 in
            let normal :=
              if Rltb (Rabs (Vector2.x point - Vector2.x (min bounds))) epsilon
              then Vector2.mk (-1) 0
              else if Rltb (Rabs (Vector2.x point - Vector2.x (max bounds))) epsilon
              then Vector2.mk 1 0
              else if Rltb (Rabs (Vector2.y point - Vector2.y (min bounds))) epsilon
              then Vector2.mk 0 (-1)
              else Vector2.mk 0 1 in
            (Some (mkRaycastHit collider point normal t), W1)
      end
  end.

(** [raycastCircle(origin, direction, collider, maxDistance)] *)
Definition raycastCircle (origin direction : Vector2.t) (collider : nat) (maxDistance : R)
  (W : World) : option RaycastHit :=
  let center := Collider_getWorldPosition W collider in
  let radius := Collider.radius (colliders W collider) in
  let oc := Vector2.subtract origin center in
  let a := Vector2.dot direction direction in
  let b := 2 * Vector2.dot oc direction in
  let c := Vector2.dot oc oc - radius * radius in
  let discriminant := b * b - 4 * a * c in
  if Rltb discriminant 0 then None
  else
    let sqrtD := sqrt discriminant in
    let t := (- b - sqrtD) / (2 * a) in
    let t := if Rltb t 0 then (- b + sqrtD) / (2 * a) else t in
    if Rltb t 0 || Rgtb t maxDistance then None
    else
      let point := Vector2.add origin (Vector2.multiply direction t) in
      let normal := Vector2.normalize (Vector2.subtract point center) in
      Some (mkRaycastHit collider point normal t).

(** [raycastCollider(origin, direction, collider, maxDistance)] *)
Definition raycastCollider (origin direction : Vector2.t) (collider : nat) (maxDistance : R)
  (W : World) : option RaycastHit * World :=
  match Collider.shape (colliders W collider) with
  | Collider.BoxCollider _ => raycastAABB origin direction collider maxDistance W
  | Collider.CircleCollider _ => (raycastCircle origin direction collider maxDistance W, W)
  end.

End Raycast.

(** ** PhysicsManager *)

Module PhysicsManager.

(** The state of the singleton after its constructor, over given stores. *)
Definition new (K : PhysicsConstantsT) (objs : nat -> GameObject.t)
  (bs : nat -> RigidBody.t) (cs : nat -> Collider.t) : World := {|
  objects := objs;
  bodies := bs;
  colliders := cs;
  _rigidbodies := [];
  _colliders := [];
  _gravity := Vector2.clone (GRAVITY K);
  _fixedTimestep := FIXED_TIMESTEP K;
  _accumulator := 0;
  _collisionPairs := [];
  events := []
|}.

Definition gravity (W : World) : Vector2.t := _gravity W.
Definition set_gravity (value : Vector2.t) (W : World) : World := with_gravity value W.

Definition fixedTimestep (W : World) : R := _fixedTimestep W.
Definition set_fixedTimestep (value : R) (W : World) : World :=
  with_fixedTimestep (Rmax (1 / 1000) value) W.

Definition with_rigidbodies (l : list nat) (W : World) : World :=
  mkWorld (objects W) (bodies W) (colliders W) l (_colliders W) (_gravity W)
          (_fixedTimestep W) (_accumulator W) (_collisionPairs W) (events W).

Definition with_colliders (l : list nat) (W : World) : World :=
  mkWorld (objects W) (bodies W) (colliders W) (_rigidbodies W) l (_gravity W)
          (_fixedTimestep W) (_accumulator W) (_collisionPairs W) (events W).

Definition set_delete (s : list nat) (n : nat) : list nat :=
  filter (fun m => negb (Nat.eqb m n)) s.

Definition registerRigidbody (body : nat) (W : World) : World :=
  with_rigidbodies (set_add (_rigidbodies W) body) W.
Definition unregisterRigidbody (body : nat) (W : World) : World :=
  with_rigidbodies (set_delete (_rigidbodies W) body) W.
Definition registerCollider (collider : nat) (W : World) : World :=
  with_colliders (set_add (_colliders W) collider) W.
Definition unregisterCollider (collider : nat) (W : World) : World :=
  with_colliders (set_delete (_colliders W) collider) W.

(** [aabbOverlap(a, b)] *)
Definition aabbOverlap (a b : AABB) : bool :=
  negb (Rltb (Vector2.x (max a)) (Vector2.x (min b))
        || Rgtb (Vector2.x (min a)) (Vector2.x (max b))
        || Rltb (Vector2.y (max a)) (Vector2.y (min b))
        || Rgtb (Vector2.y (min a)) (Vector2.y (max b))).

(** [collisionPairKey(a, b)] *)
Definition collisionPairKey (a b : nat) : PairKey :=
  if Nat.ltb a b then (a, b) else (b, a).

(** The pairs [(array[i], array[j])] with [i < j], in the order of the two
    nested loops. *)
Fixpoint allPairs (l : list nat) : list (nat * nat) :=
  match l with
  | [] => []
  | a :: rest => map (fun b => (a, b)) rest ++ allPairs rest
  end.

Definition enabledColliders (W : World) : list nat :=
  filter (fun c => Collider.enabled (colliders W c)) (_colliders W).

(** [for (const collider of this._colliders) if (collider.enabled) collider.updateBounds()] *)
Definition updateAllBounds (W : World) : World :=
  fold_left
    (fun W c => if Collider.enabled (colliders W c) then Collider_updateBounds c W else W)
    (_colliders W) W.

(** One pair of the narrow phase: the box pre-check, the detection, and the
    recording of the contact on both colliders. *)
Definition narrowPhasePair (st : list (PairKey * CollisionInfo.t) * World)
  (p : nat * nat) : list (PairKey * CollisionInfo.t) * World :=
  let '(currentCollisions, W) := st in
  let '(a, b) := p in
  let '(boundsA, W1) := Collider_getBounds a W in
  let '(boundsB, W2) := Collider_getBounds b W1 in
  if negb (aabbOverlap boundsA boundsB) then (currentCollisions, W2)
  else
    match CollisionDetection.detect a b W2 with
    | (Some info, W3) =>
        let key := collisionPairKey a b in
        let W4 := with_collider a (Collider.addCollision b (colliders W3 a)) W3 in
        let W5 := with_collider b (Collider.addCollision a (colliders W4 b)) W4 in
        (map_set currentCollisions key info, W5)
    | (None, W3) => (currentCollisions, W3)
    end.

(** [a.gameObject] events of one detected pair, for [a] against [b]; [flip]
    tells the side, whose event carries the reversed normal. *)
Definition dispatchSide (info : CollisionInfo.t) (a b : nat) (flip : bool)
  (trigger : bool) (W : World) : World :=
  match Collider.gameObject (colliders W a) with
  | None => W
  | Some g =>
      let collisionEvent :=
        mkCollisionEvent b (nth_error (CollisionInfo.contacts info) 0)
          (if flip then Vector2.multiply (CollisionInfo.normal info) (-1)
           else CollisionInfo.normal info)
          (CollisionInfo.penetration info) in
      if Collider.isCollisionEnter (colliders W a) b then
        if trigger then emit (onTriggerEnter g b) W
        else emit (onCollisionEnter g collisionEvent) W
      else if Collider.isCollisionStay (colliders W a) b then
        if trigger then emit (onTriggerStay g b) W
        else emit (onCollisionStay g collisionEvent) W
      else W
  end.

(** The body of the Enter and Stay loop of [dispatchCollisionEvents]. *)
Definition dispatchPair (W : World) (entry : PairKey * CollisionInfo.t) : World :=
  let info := snd entry in
  let a := CollisionInfo.colliderA info in
  let b := CollisionInfo.colliderB info in
  let W1 :=
    dispatchSide info a b false
      (Collider.isTrigger (colliders W a) || Collider.isTrigger (colliders W b)) W in
  dispatchSide info b a true
    (Collider.isTrigger (colliders W1 a) || Collider.isTrigger (colliders W1 b)) W1.

(** The body of the Exit loops. *)
Definition dispatchExit (W : World) (p : nat * nat) : World :=
  let '(collider, otherCollider) := p in
  if Nat.eqb collider otherCollider then W
  else if Collider.isCollisionExit (colliders W collider) otherCollider then
    match Collider.gameObject (colliders W collider) with
    | Some g =>
        if Collider.isTrigger (colliders W collider)
           || Collider.isTrigger (colliders W otherCollider)
        then emit (onTriggerExit g otherCollider) W
        else emit (onCollisionExit g otherCollider) W
    | None => W
    end
  else W.

(** [dispatchCollisionEvents(currentCollisions)] *)
Definition dispatchCollisionEvents (currentCollisions : list (PairKey * CollisionInfo.t))
  (W : World) : World :=
  let allColliders := enabledColliders W in
  let W1 := fold_left dispatchPair currentCollisions W in
  fold_left dispatchExit (list_prod allColliders allColliders) W1.

Section WithConstants.

Variable K : PhysicsConstantsT.

(** [body.fixedUpdate(dt)] on the stores: the body and the transform of its
    game object are read, and written back after the call. *)
Definition RigidBody_fixedUpdate (dt : R) (h : nat) (W : World) : World :=
  let b := bodies W h in
  match RigidBody.gameObject b with
  | None => with_body h (fst (RigidBody.fixedUpdate K dt b None)) W
  | Some g =>
      let '(b', otr) :=
        RigidBody.fixedUpdate K dt b (Some (GameObject.transform (objects W g))) in
      let W1 := with_body h b' W in
      match otr with
      | Some tr => with_object g (GameObject.set_transform tr (objects W1 g)) W1
      | None => W1
      end
  end.

(** Step 1 of [fixedUpdate], one body. *)
Definition integrateBody (dt : R) (W : World) (body : nat) : World :=
  let b := bodies W body in
  if RigidBody.enabled b
     && BodyType_eqb (RigidBody.bodyType b) DYNAMIC
     && negb (RigidBody._isSleeping b)
  then RigidBody_fixedUpdate dt body W
  else W.

(** Step 6-1, one entry of [currentCollisions]. *)
Definition positionSolvePair (W : World) (entry : PairKey * CollisionInfo.t) : World :=
  let info := snd entry in
  let a := CollisionInfo.colliderA info in
  let b := CollisionInfo.colliderB info in
  if negb (Collider.isTrigger (colliders W a)) && negb (Collider.isTrigger (colliders W b))
  then
    match CollisionDetection.detect a b W with
    | (Some updatedInfo, W1) => CollisionResolver.resolvePositionOnly K updatedInfo W1
    | (None, W1) => W1
    end
  else W.

(** Step 6-2, one entry of [currentCollisions]. *)
Definition velocitySolvePair (W : World) (entry : PairKey * CollisionInfo.t) : World :=
  let info := snd entry in
  let a := CollisionInfo.colliderA info in
  let b := CollisionInfo.colliderB info in
  if negb (Collider.isTrigger (colliders W a)) && negb (Collider.isTrigger (colliders W b))
  then
    match CollisionDetection.detect a b W with
    | (Some finalInfo, W1) => CollisionResolver.resolve K finalInfo W1
    | (None, W1) => W1
    end
  else W.

(** Step 6-1: [iterations] rounds of bounds update and position correction. *)
Fixpoint positionSolver (iterations : nat)
  (currentCollisions : list (PairKey * CollisionInfo.t)) (W : World) : World :=
  match iterations with
  | O => W
  | S n =>
      positionSolver n currentCollisions
        (fold_left positionSolvePair currentCollisions (updateAllBounds W))
  end.

(** [fixedUpdate(dt)] *)
Definition fixedUpdate (dt : R) (W : World) : World :=
  (* 1 *)
  let W1 := fold_left (integrateBody dt) (_rigidbodies W) W in
  (* 2 *)
  let W2 := updateAllBounds W1 in
  (* 3 *)
  let W3 :=
    fold_left
      (fun W c =>
         if Collider.enabled (colliders W c)
         then with_collider c (Collider.updateCollisionState (colliders W c)) W
         else W)
      (_colliders W2) W2 in
  (* 4 *)
  let potentialPairs := allPairs (enabledColliders W3) in
  (* 5 *)
  let '(currentCollisions, W5) := fold_left narrowPhasePair potentialPairs ([], W3) in
  (* 6-1 *)
  let W6 := positionSolver (POSITION_ITERATIONS K) currentCollisions W5 in
  (* 6-2 *)
  let W7 := fold_left velocitySolvePair currentCollisions W6 in
  (* 7 *)
  let W8 := dispatchCollisionEvents currentCollisions W7 in
  with_collisionPairs currentCollisions W8.

(** Steps 1 to 6-1 of [fixedUpdate(dt)]: the map [currentCollisions] and the
    world in which the velocity solver starts. *)
Definition solverInput (dt : R) (W : World) : list (PairKey * CollisionInfo.t) * World :=
  (* 1 *)
  let W1 := fold_left (integrateBody dt) (_rigidbodies W) W in
  (* 2 *)
  let W2 := updateAllBounds W1 in
  (* 3 *)
  let W3 :=
    fold_left
      (fun W c =>
         if Collider.enabled (colliders W c)
         then with_collider c (Collider.updateCollisionState (colliders W c)) W
         else W)
      (_colliders W2) W2 in
  (* 4 *)
  let potentialPairs := allPairs (enabledColliders W3) in
  (* 5 *)
  let '(currentCollisions, W5) := fold_left narrowPhasePair potentialPairs ([], W3) in
  (* 6-1 *)
  (currentCollisions, positionSolver (POSITION_ITERATIONS K) currentCollisions W5).

(** Step 6-2, one entry of [currentCollisions], with a record of the calls of
    [CollisionResolver.resolve]: a call appends the key of the entry to
    [calls].  The world is that of [velocitySolvePair]. *)
Definition velocitySolvePairCalls (st : World * list PairKey)
  (entry : PairKey * CollisionInfo.t) : World * list PairKey :=
  let '(W, calls) := st in
  let info := snd entry in
  let a := CollisionInfo.colliderA info in
  let b := CollisionInfo.colliderB info in
  if negb (Collider.isTrigger (colliders W a)) && negb (Collider.isTrigger (colliders W b))
  then
    match CollisionDetection.detect a b W with
    | (Some finalInfo, W1) => (CollisionResolver.resolve K finalInfo W1, calls ++ [fst entry])
    | (None, W1) => (W1, calls)
    end
  else (W, calls).

(** [fixedUpdate(dt)] with that record: the world after the sub-step and the
    calls of [CollisionResolver.resolve] that its velocity solver has made. *)
Definition fixedUpdateCalls (dt : R) (W : World) : World * list PairKey :=
  let '(currentCollisions, W6) := solverInput dt W in
  (* 6-2 *)
  let '(W7, calls) := fold_left velocitySolvePairCalls currentCollisions (W6, []) in
  (* 7 *)
  let W8 := dispatchCollisionEvents currentCollisions W7 in
  (with_collisionPairs currentCollisions W8, calls).

(** The [while] loop of [update].  [fuel] bounds the number of tests of the
    loop condition, [None] is a loop that has not ended within it; the second
    component counts the calls of [fixedUpdate]. *)
Fixpoint updateLoop (fuel : nat) (W : World) : option (World * nat) :=
  match fuel with
  | O => None
  | S n =>
      if Rgeb (_accumulator W) (_fixedTimestep W) then
        let W1 := fixedUpdate (_fixedTimestep W) W in
        match updateLoop n (with_accumulator (_accumulator W1 - _fixedTimestep W1) W1) with
        | Some (W2, k) => Some (W2, S k)
        | None => None
        end
      else Some (W, O)
  end.

(** [update(deltaTime)] *)
Definition update (fuel : nat) (deltaTime : R) (W : World) : option (World * nat) :=
  let W1 := with_accumulator (_accumulator W + deltaTime) W in
  let maxAccumulator := _fixedTimestep W1 * 5 in
  let W2 :=
    if Rgtb (_accumulator W1) maxAccumulator then with_accumulator maxAccumulator W1
    else W1 in
  updateLoop fuel W2.

End WithConstants.

(** One collider of the loop of [raycast]. *)
Definition raycastStep (origin dir : Vector2.t) (maxDistance : R)
  (st : option RaycastHit * R * World) (collider : nat) : option RaycastHit * R * World :=
  let '(closestHit, closestDistance, W) := st in
  if negb (Collider.enabled (colliders W collider)) then st
  else
    match Raycast.raycastCollider origin dir collider maxDistance W with
    | (Some hit, W1) =>
        if Rltb (hit_distance hit) closestDistance
        then (Some hit, hit_distance hit, W1)
        else (closestHit, closestDistance, W1)
    | (None, W1) => (closestHit, closestDistance, W1)
    end.

(** [raycast(origin, direction, maxDistance)] *)
Definition raycast (origin direction : Vector2.t) (maxDistance : R) (W : World)
  : option RaycastHit * World :=
  let dir := Vector2.normalize direction in
  let '(closestHit, _, W1) :=
    fold_left (raycastStep origin dir maxDistance) (_colliders W) (None, maxDistance, W) in
  (closestHit, W1).

(** The loop of [raycastAll], before the sort. *)
Definition raycastCollect (origin direction : Vector2.t) (maxDistance : R) (W : World)
  : list RaycastHit * World :=
  let dir := Vector2.normalize direction in
  fold_left
    (fun (st : list RaycastHit * World) collider =>
       let '(hits, W) := st in
       if negb (Collider.enabled (colliders W collider)) then st
       else
         match Raycast.raycastCollider origin dir collider maxDistance W with
         | (Some hit, W1) => (hits ++ [hit], W1)
         | (None, W1) => (hits, W1)
         end)
    (_colliders W) ([], W).




(** [overlapCircle(center, radius)] *)
Definition overlapCircle (center : Vector2.t) (radius : R) (W : World) : list nat :=
  filter
    (fun collider =>
       Collider.enabled (colliders W collider)
       && Rleb (Vector2.distance (Collider_getWorldPosition W collider) center) (radius + 50))
    (_colliders W).

(** [reset()] *)
Definition reset (W : World) : World :=
  mkWorld (objects W) (bodies W) (colliders W) [] [] (_gravity W)
          (_fixedTimestep W) 0 [] (events W).

End PhysicsManager.

(** ** Definitions used by the statements *)

(** *** The integrator as the specification words it

    Eight steps in the order of the specification: gravity into the force,
    acceleration, velocity, drag, speed clamp, translation, angular damping
    with rotation, reset of the accumulators. *)

Module IntegratorSpec.

Import RigidBody.

Section WithConstants.

Variable K : PhysicsConstantsT.

Definition accumulateGravity (b : t) : t :=
  if _useGravity b then
    with_force
      (Vector2.add (_force b)
         (Vector2.multiply (Vector2.multiply (GRAVITY K) (_gravityScale b)) (_mass b))) b
  else b.

Definition setAcceleration (b : t) : t :=
  with_acceleration (Vector2.multiply (_force b) (inverseMass b)) b.

Definition addAcceleration (dt : R) (b : t) : t :=
  with_velocity (Vector2.add (_velocity b) (Vector2.multiply (_acceleration b) dt)) b.

Definition dampVelocity (dt : R) (b : t) : t :=
  with_velocity (Vector2.multiply (_velocity b) (Rmax 0 (1 - _drag b * dt * 10))) b.

(** The speed, not its square, against the global maximum. *)
Definition clampSpeed (b : t) : t :=
  if Rlt_dec (MAX_VELOCITY K) (Vector2.length (_velocity b)) then
    with_velocity (Vector2.multiply (Vector2.normalize (_velocity b)) (MAX_VELOCITY K)) b
  else b.

Definition dampAngularVelocity (dt : R) (b : t) : t :=
  with_angularVelocity (_angularVelocity b * Rmax 0 (1 - _angularDrag b * dt * 10)) b.

Definition resetAccumulators (b : t) : t := with_torque 0 (with_force Vector2.zero b).

Definition integrate (dt : R) (b : t) (tr : Transform.t) : t * Transform.t :=
  let b5 :=
    clampSpeed (dampVelocity dt (addAcceleration dt (setAcceleration (accumulateGravity b)))) in
  let tr1 := Transform.translate (Vector2.multiply (_velocity b5) dt) tr in
  let b6 := dampAngularVelocity dt b5 in
  let tr2 := Transform.rotate (_angularVelocity b6 * dt) tr1 in
  (resetAccumulators b6, tr2).

(** A body is slow when its speed and its angular speed are both below the
    sleep threshold. *)
Definition slow (b : t) : Prop :=
  Vector2.length (_velocity b) < SLEEP_THRESHOLD K
  /\ Rabs (_angularVelocity b) < SLEEP_THRESHOLD K.

(** A body put to sleep: the sleeping flag set, velocity and angular velocity
    zero. *)
Definition putToSleep (b : t) : t :=
  with_angularVelocity 0 (with_velocity Vector2.zero (with_isSleeping true b)).

End WithConstants.

End IntegratorSpec.

(** *** Class invariants *)

(** The radius of a circle is its initial [25] or a value written by the
    setter, which keeps it at [0.1] or more. *)
Definition radius_ok (c : Collider.t) : Prop :=
  match Collider.shape c with
  | Collider.CircleCollider r => 1 / 10 <= r
  | Collider.BoxCollider _ => True
  end.

(** *** Runs of the manager *)

(** The worlds the manager reaches by calls of [update]: it starts with an
    empty accumulator and the default timestep, whatever has been registered,
    and every call of [update] that returns gives the next world. *)
Inductive reachable (K : PhysicsConstantsT) : World -> Prop :=
| reachable_start : forall W,
    _accumulator W = 0 -> _fixedTimestep W = FIXED_TIMESTEP K -> reachable K W
| reachable_update : forall W fuel deltaTime W' n,
    reachable K W ->
    PhysicsManager.update K fuel deltaTime W = Some (W', n) ->
    reachable K W'.

(** A sequence of [update] calls, one per frame time. *)
Fixpoint run (K : PhysicsConstantsT) (fuel : nat) (frames : list R) (W : World)
  : option World :=
  match frames with
  | [] => Some W
  | deltaTime :: rest =>
      match PhysicsManager.update K fuel deltaTime W with
      | Some (W1, _) => run K fuel rest W1
      | None => None
      end
  end.

(** The table of constants with another [VELOCITY_ITERATIONS]. *)
Definition with_VELOCITY_ITERATIONS (n : nat) (K : PhysicsConstantsT) : PhysicsConstantsT :=
  mkConstants (GRAVITY K) (FIXED_TIMESTEP K) (MAX_VELOCITY K) (SLEEP_THRESHOLD K)
              (SLEEP_TIME K) (CORRECTION_PERCENT K) (CORRECTION_SLOP K)
              (POSITION_ITERATIONS K) n.


(** The result of an [update] with another gravity property. *)
Definition lift_gravity (g : Vector2.t) (r : World * nat) : World * nat :=
  (with_gravity g (fst r), snd r).

(** The world with other values in the three scalar fields of the manager. *)
Definition with_manager (g : Vector2.t) (ft acc : R) (W : World) : World :=
  mkWorld (objects W) (bodies W) (colliders W) (_rigidbodies W) (_colliders W)
          g ft acc (_collisionPairs W) (events W).

(** *** Example worlds *)

(** A game object at a position, without a rigid body. *)
Definition objectAt (px py : R) : GameObject.t :=
  GameObject.mk (Transform.mk (Vector2.mk px py) 0 Vector2.one) None.

(** A collider of a game object. *)
Definition colliderOf (g : nat) (s : Collider.Shape) : Collider.t :=
  Collider.mk (Some g) true false PhysicsMaterial.default Vector2.zero None [] [] s.

(** Two colliders, with ids 1 and 2, on two game objects, both registered. *)
Definition twoColliders (o1 o2 : GameObject.t) (c1 c2 : Collider.t) : World :=
  PhysicsManager.registerCollider 2
    (PhysicsManager.registerCollider 1
       (PhysicsManager.new PhysicsConstants
          (fun g => if Nat.eqb g 1 then o1 else o2)
          (fun _ => RigidBody.new)
          (fun h => if Nat.eqb h 1 then c1 else c2))).

(** Two boxes of size 4 by 4 centred at (0, 10) and (1, 11): their bounding
    boxes overlap in the rectangle from (-1, 9) to (2, 12). *)
Definition boxesWorld : World :=
  twoColliders (objectAt 0 10) (objectAt 1 11)
    (colliderOf 1 (Collider.BoxCollider (Vector2.mk 4 4)))
    (colliderOf 2 (Collider.BoxCollider (Vector2.mk 4 4))).

(** The midpoint of the rectangle in which two boxes overlap. *)
Definition overlapMidpoint (a b : AABB) : Vector2.t :=
  Vector2.mk
    ((Rmax (Vector2.x (min a)) (Vector2.x (min b))
      + Rmin (Vector2.x (max a)) (Vector2.x (max b))) / 2)
    ((Rmax (Vector2.y (min a)) (Vector2.y (min b))
      + Rmin (Vector2.y (max a)) (Vector2.y (max b))) / 2).

(** Two circles of radius 25 whose centres (0, 0) and (0, 0.00005) are
    distinct and closer than 0.0001. *)
Definition circlesWorld : World :=
  twoColliders (objectAt 0 0) (objectAt 0 (5 / 100000))
    (colliderOf 1 (Collider.CircleCollider 25))
    (colliderOf 2 (Collider.CircleCollider 25)).

(** A dynamic, awake body without gravity that moves at 0.3 along x and has
    been slow for 0.49 seconds. *)
Definition slowBody : RigidBody.t := {|
  RigidBody.gameObject := Some 1%nat;
  RigidBody.enabled := true;
  RigidBody._bodyType := DYNAMIC;
  RigidBody._mass := 1;
  RigidBody._velocity := Vector2.mk (3 / 10) 0;
  RigidBody._angularVelocity := 0;
  RigidBody._acceleration := Vector2.zero;
  RigidBody._force := Vector2.zero;
  RigidBody._torque := 0;
  RigidBody._useGravity := false;
  RigidBody._drag := 1 / 10;
  RigidBody._angularDrag := 5 / 100;
  RigidBody._gravityScale := 1;
  RigidBody._isSleeping := false;
  RigidBody._sleepTimer := 49 / 100
|}.

(** A manifold with a unit normal and a penetration that is not negative. *)
Definition manifold_ok (info : CollisionInfo.t) : Prop :=
  Vector2.length (CollisionInfo.normal info) = 1 /\ 0 <= CollisionInfo.penetration info.

(** [boxesWorld] after a frame of 0.01 seconds. *)
Definition boxesWorldAfterFrame : World :=
  with_accumulator (0 + 1 / 100) boxesWorld.

(** A trigger box and a solid box that overlap, and the entry of the pair in
    the map of current collisions. *)
Definition triggerWorld : World :=
  twoColliders (objectAt 0 10) (objectAt 1 11)
    (Collider.mk (Some 1%nat) true true PhysicsMaterial.default Vector2.zero None [2%nat] []
       (Collider.BoxCollider (Vector2.mk 4 4)))
    (Collider.mk (Some 2%nat) true false PhysicsMaterial.default Vector2.zero None [1%nat] []
       (Collider.BoxCollider (Vector2.mk 4 4))).

Definition triggerEntry : PairKey * CollisionInfo.t :=
  ((1%nat, 2%nat),
   CollisionInfo.mk 1 2 [mkContactPoint (Vector2.mk (1 / 2) 0) (Vector2.mk 0 (-1)) 3]
     (Vector2.mk 0 (-1)) 3).

(** One registered box of size 4 by 4 centred at (10, 0): a ray from the
    origin along x enters it at distance 8. *)
Definition rayWorld : World :=
  PhysicsManager.registerCollider 1
    (PhysicsManager.new PhysicsConstants
       (fun _ => objectAt 10 0)
       (fun _ => RigidBody.new)
       (fun _ => colliderOf 1 (Collider.BoxCollider (Vector2.mk 4 4)))).

(** Every entry of a map of collisions has a trigger on one side. *)
Definition all_trigger_pairs (W : World) (cc : list (PairKey * CollisionInfo.t)) : Prop :=
  forall entry, In entry cc ->
    Collider.isTrigger (colliders W (CollisionInfo.colliderA (snd entry)))
    || Collider.isTrigger (colliders W (CollisionInfo.colliderB (snd entry))) = true.

(** Two worlds with the same game objects and bodies, and the same trigger
    flag on every collider. *)
Definition same_bodies (W W' : World) : Prop :=
  objects W' = objects W /\ bodies W' = bodies W
  /\ forall c, Collider.isTrigger (colliders W' c) = Collider.isTrigger (colliders W c).

(** *** The velocity pass as the statements word it *)

(** An entry is resolved in a world when neither of its colliders is a
    trigger and the detection of the pair in that world returns a manifold. *)
Definition redetected (W : World) (entry : PairKey * CollisionInfo.t) : bool :=
  let a := CollisionInfo.colliderA (snd entry) in
  let b := CollisionInfo.colliderB (snd entry) in
  negb (Collider.isTrigger (colliders W a))
  && negb (Collider.isTrigger (colliders W b))
  && match fst (CollisionDetection.detect a b W) with
     | Some _ => true
     | None => false
     end.

(** One pass over the recorded entries, in their order: an entry gives its
    key once when it is resolved in the world of its turn, and nothing
    otherwise; the world of the next turn is the one the step of the velocity
    solver leaves. *)
Fixpoint resolvedPairs (K : PhysicsConstantsT) (cc : list (PairKey * CollisionInfo.t))
  (W : World) : list PairKey :=
  match cc with
  | [] => []
  | entry :: rest =>
      (if redetected W entry then [fst entry] else [])
      ++ resolvedPairs K rest (PhysicsManager.velocitySolvePair K W entry)
  end.

(** *** Three boxes in a row

    A static box of size 2 at x = 0, a dynamic box of size 2 at [x], asleep,
    and a static box of size 0.2 at x = 1.2, all on the line y = 0, each on a
    game object with a body of mass 1.  [b1], [b2], [b3] are the cached
    bounds of the three colliders and [c1], [c2], [c3] their sets of current
    collisions. *)

(** A body of mass 1 at rest on game object [g]. *)
Definition boxBody (g : nat) (ty : BodyType) (asleep : bool) : RigidBody.t :=
  RigidBody.mk (Some g) true ty 1 Vector2.zero 0 Vector2.zero Vector2.zero 0 true
    (1 / 10) (5 / 100) 1 asleep 0.

(** The game object [g] at ([px], 0), with the body [g] as its rigid body. *)
Definition objectWithBody (g : nat) (px : R) : GameObject.t :=
  GameObject.mk (Transform.mk (Vector2.mk px 0) 0 Vector2.one) (Some g).

(** A solid box collider of size [w] by [w] on game object [g], with its
    cached bounds and its set of current collisions. *)
Definition boxCollider (g : nat) (w : R) (bounds : option AABB) (current : list nat)
  : Collider.t :=
  Collider.mk (Some g) true false PhysicsMaterial.default Vector2.zero bounds current []
    (Collider.BoxCollider (Vector2.mk w w)).

Definition boxesState (x : R) (b1 b2 b3 : option AABB) (c1 c2 c3 : list nat) : World := {|
  objects := fun g =>
    if Nat.eqb g 1 then objectWithBody 1 0
    else if Nat.eqb g 2 then objectWithBody 2 x
    else if Nat.eqb g 3 then objectWithBody 3 (12 / 10)
    else objectAt 0 0;
  bodies := fun h => if Nat.eqb h 2 then boxBody 2 DYNAMIC true else boxBody h STATIC false;
  colliders := fun c =>
    if Nat.eqb c 1 then boxCollider 1 2 b1 c1
    else if Nat.eqb c 2 then boxCollider 2 2 b2 c2
    else if Nat.eqb c 3 then boxCollider 3 (2 / 10) b3 c3
    else Collider.newBoxCollider;
  _rigidbodies := [1%nat; 2%nat; 3%nat];
  _colliders := [1%nat; 2%nat; 3%nat];
  _gravity := Vector2.mk 0 980;
  _fixedTimestep := 1 / 60;
  _accumulator := 0;
  _collisionPairs := [];
  events := []
|}.

(** The bounds of a box of size [w] by [w] centred at ([px], 0). *)
Definition squareAt (px w : R) : AABB :=
  mkAABB (Vector2.mk (px - w / 2) (- (w / 2))) (Vector2.mk (px + w / 2) (w / 2)).

(** Before the first sub-step the middle box is at x = 1.99: it overlaps the
    box at 0 by 0.01 and the box at 1.2 by 0.31. *)
Definition threeBoxes : World := boxesState (199 / 100) None None None [] [] [].

(** *** More example worlds and notions of the statements *)

(** A box of size 4 by 4 centred at the origin and a circle of radius 1
    centred at (2.5, 0), half a unit outside the right edge of the box. *)
Definition boxCircleWorld : World :=
  twoColliders (objectAt 0 0) (objectAt (5 / 2) 0)
    (colliderOf 1 (Collider.BoxCollider (Vector2.mk 4 4)))
    (colliderOf 2 (Collider.CircleCollider 1)).

(** The pattern of the two velocity assignments of [resolveImpulse] and of
    [resolveFriction]: the impulse is taken from [bodyA] and given to
    [bodyB], each scaled by the inverse mass, for dynamic bodies only. *)
Definition impulseStep (impulse : Vector2.t) (bodyA bodyB : nat) (W : World) : World :=
  let W1 :=
    if BodyType_eqb (RigidBody.bodyType (bodies W bodyA)) DYNAMIC then
      CollisionResolver.assign_velocity bodyA
        (Vector2.subtract (RigidBody.velocity (bodies W bodyA))
           (Vector2.multiply impulse (RigidBody.inverseMass (bodies W bodyA)))) W
    else W in
  if BodyType_eqb (RigidBody.bodyType (bodies W1 bodyB)) DYNAMIC then
    CollisionResolver.assign_velocity bodyB
      (Vector2.add (RigidBody.velocity (bodies W1 bodyB))
         (Vector2.multiply impulse (RigidBody.inverseMass (bodies W1 bodyB)))) W1
  else W1.

(** The linear momentum of two bodies. *)
Definition momentum (W : World) (bodyA bodyB : nat) : Vector2.t :=
  Vector2.add
    (Vector2.multiply (RigidBody.velocity (bodies W bodyA)) (RigidBody._mass (bodies W bodyA)))
    (Vector2.multiply (RigidBody.velocity (bodies W bodyB)) (RigidBody._mass (bodies W bodyB))).

(** The velocity of [bodyB] relative to [bodyA], along a direction. *)
Definition approachSpeed (W : World) (bodyA bodyB : nat) (n : Vector2.t) : R :=
  Vector2.dot
    (Vector2.subtract (RigidBody.velocity (bodies W bodyB))
                      (RigidBody.velocity (bodies W bodyA))) n.


(** A dynamic, awake body of mass [m] on game object [g] that moves at [vx]
    along x. *)
Definition movingBody (g : nat) (m vx : R) : RigidBody.t :=
  RigidBody.mk (Some g) true DYNAMIC m (Vector2.mk vx 0) 0 Vector2.zero Vector2.zero 0 false
    (1 / 10) (5 / 100) 1 false 0.

(** Two circles of radius 1 at (0, 0) and (1.9, 0) on two game objects with
    dynamic bodies of mass 1 and 2 that move towards each other at 3 and 1,
    and the manifold of the pair: normal (1, 0), penetration 0.1. *)
Definition headOnWorld : World :=
  PhysicsManager.new PhysicsConstants
    (fun g => if Nat.eqb g 1 then objectWithBody 1 0 else objectWithBody 2 (19 / 10))
    (fun h => if Nat.eqb h 1 then movingBody 1 1 3 else movingBody 2 2 (-1))
    (fun c => if Nat.eqb c 1 then colliderOf 1 (Collider.CircleCollider 1)
              else colliderOf 2 (Collider.CircleCollider 1)).

Definition headOnInfo : CollisionInfo.t :=
  CollisionInfo.mk 1 2 [mkContactPoint (Vector2.mk 1 0) (Vector2.mk 1 0) (1 / 10)]
    (Vector2.mk 1 0) (1 / 10).

(** One registered circle of radius 1 centred at (3, 0). *)
Definition circleRayWorld : World :=
  PhysicsManager.registerCollider 1
    (PhysicsManager.new PhysicsConstants
       (fun _ => objectAt 3 0)
       (fun _ => RigidBody.new)
       (fun _ => colliderOf 1 (Collider.CircleCollider 1))).

(** * Properties *)

(** ** Numbers and vectors *)

Lemma Rltb_true (a b : R) : Rltb a b = true <-> a < b.
Proof. unfold Rltb; destruct (Rlt_dec a b); split; intros; auto; discriminate. Qed.

Lemma Rltb_false (a b : R) : Rltb a b = false <-> b <= a.
Proof. unfold Rltb; destruct (Rlt_dec a b); split; intros; try discriminate; auto; lra. Qed.

Lemma Rleb_true (a b : R) : Rleb a b = true <-> a <= b.
Proof. unfold Rleb; destruct (Rle_dec a b); split; intros; auto; discriminate. Qed.

Lemma Rleb_false (a b : R) : Rleb a b = false <-> b < a.
Proof. unfold Rleb; destruct (Rle_dec a b); split; intros; try discriminate; auto; lra. Qed.

Lemma Reqb_true (a b : R) : Reqb a b = true <-> a = b.
Proof. unfold Reqb; destruct (Req_dec_T a b); split; intros; auto; discriminate. Qed.

(** Decides the comparisons of a goal about concrete numbers. *)
Ltac Rdecide :=
  unfold Rgeb, Rgtb, Rleb, Rltb, Reqb, Rmin4, clamp, Rmax, Rmin, Rabs in *;
  repeat match goal with
  | |- context [Rlt_dec ?a ?b] => destruct (Rlt_dec a b); try (exfalso; lra)
  | |- context [Rle_dec ?a ?b] => destruct (Rle_dec a b); try (exfalso; lra)
  | |- context [Req_dec_T ?a ?b] => destruct (Req_dec_T a b); try (exfalso; lra)
  | |- context [Rcase_abs ?a] => destruct (Rcase_abs a); try (exfalso; lra)
  | H : context [Rlt_dec ?a ?b] |- _ => destruct (Rlt_dec a b); try (exfalso; lra)
  | H : context [Rle_dec ?a ?b] |- _ => destruct (Rle_dec a b); try (exfalso; lra)
  | H : context [Req_dec_T ?a ?b] |- _ => destruct (Req_dec_T a b); try (exfalso; lra)
  | H : context [Rcase_abs ?a] |- _ => destruct (Rcase_abs a); try (exfalso; lra)
  end.

Lemma Reqb_false (a b : R) : Reqb a b = false <-> a <> b.
Proof. unfold Reqb; destruct (Req_dec_T a b); split; intros; try discriminate; auto; contradiction. Qed.

(** Evaluates a goal about concrete numbers: one comparison, maximum, minimum
    or absolute value at a time is replaced by its value, and the goal is
    reduced again. *)
Ltac Rstep :=
  match goal with
  | |- context [Rltb ?a ?b] =>
      first [rewrite (proj2 (Rltb_true a b)) by lra | rewrite (proj2 (Rltb_false a b)) by lra]
  | |- context [Rleb ?a ?b] =>
      first [rewrite (proj2 (Rleb_true a b)) by lra | rewrite (proj2 (Rleb_false a b)) by lra]
  | |- context [Reqb ?a ?b] =>
      first [rewrite (proj2 (Reqb_true a b)) by lra | rewrite (proj2 (Reqb_false a b)) by lra]
  | |- context [Rmax ?a ?b] =>
      first [rewrite (Rmax_left a b) by lra | rewrite (Rmax_right a b) by lra]
  | |- context [Rmin ?a ?b] =>
      first [rewrite (Rmin_left a b) by lra | rewrite (Rmin_right a b) by lra]
  | |- context [Rabs ?a] =>
      first [rewrite (Rabs_pos_eq a) by lra | rewrite (Rabs_left a) by lra]
  end.

Ltac Rcbn :=
  cbn -[Rltb Rleb Reqb Rmax Rmin Rabs];
  unfold PhysicsManager.aabbOverlap, Rgtb, Rgeb;
  cbn -[Rltb Rleb Reqb Rmax Rmin Rabs].

Ltac Reval := Rcbn; repeat (Rstep; Rcbn).

Lemma clamp_range (v : R) : 0 <= clamp 0 1 v <= 1.
Proof. Rdecide; lra. Qed.

Lemma sqrt_sq_sum_unit (a b : R) : a * a + b * b = 1 -> sqrt (a * a + b * b) = 1.
Proof. intros ->. apply sqrt_1. Qed.

Lemma length_nonneg (v : Vector2.t) : 0 <= Vector2.length v.
Proof. apply sqrt_pos. Qed.

Lemma lengthSquared_nonneg (v : Vector2.t) : 0 <= Vector2.lengthSquared v.
Proof. unfold Vector2.lengthSquared. nra. Qed.

Lemma length_sqr (v : Vector2.t) :
  Vector2.length v * Vector2.length v = Vector2.lengthSquared v.
Proof. apply sqrt_sqrt, lengthSquared_nonneg. Qed.


(** The division inside [normalize] never throws. *)
Lemma divide_nonzero (v : Vector2.t) (s : R) :
  s <> 0 -> Vector2.divide v s = Some (Vector2.mk (Vector2.x v / s) (Vector2.y v / s)).
Proof. intros Hs. unfold Vector2.divide. destruct (Req_dec_T s 0); [contradiction | reflexivity]. Qed.

Lemma normalize_nonzero (v : Vector2.t) :
  Vector2.length v <> 0 ->
  Vector2.normalize v =
  Vector2.mk (Vector2.x v / Vector2.length v) (Vector2.y v / Vector2.length v).
Proof.
  intros Hl. unfold Vector2.normalize.
  destruct (Req_dec_T (Vector2.length v) 0); [contradiction |].
  now rewrite divide_nonzero.
Qed.

(** A normalized vector of non-zero length has length one. *)
Lemma normalize_length (v : Vector2.t) :
  Vector2.length v <> 0 -> Vector2.length (Vector2.normalize v) = 1.
Proof.
  intros Hl. rewrite normalize_nonzero by assumption.
  unfold Vector2.length at 1. simpl.
  pose proof (length_sqr v) as Hs. unfold Vector2.lengthSquared in Hs.
  set (l := Vector2.length v) in *.
  replace (Vector2.x v / l * (Vector2.x v / l) + Vector2.y v / l * (Vector2.y v / l))
    with ((Vector2.x v * Vector2.x v + Vector2.y v * Vector2.y v) / (l * l))
    by (field; assumption).
  rewrite <- Hs. replace (l * l / (l * l)) with 1 by (field; assumption).
  apply sqrt_1.
Qed.

Lemma length_negate (v : Vector2.t) :
  Vector2.length (Vector2.multiply v (-1)) = Vector2.length v.
Proof. unfold Vector2.length, Vector2.multiply. simpl. f_equal. ring. Qed.

Lemma length_axis (a b : R) :
  a * a + b * b = 1 -> Vector2.length (Vector2.mk a b) = 1.
Proof. intros H. unfold Vector2.length. simpl. rewrite H. apply sqrt_1. Qed.

(** ** PhysicsMaterial *)

(** The setters keep friction and restitution in the unit interval. *)
Lemma set_friction_range (v : R) (m : PhysicsMaterial.t) :
  0 <= PhysicsMaterial.friction (PhysicsMaterial.set_friction v m) <= 1.
Proof. apply clamp_range. Qed.

Lemma set_restitution_range (v : R) (m : PhysicsMaterial.t) :
  0 <= PhysicsMaterial.restitution (PhysicsMaterial.set_restitution v m) <= 1.
Proof. apply clamp_range. Qed.

(** C6, at the failing input: the constructor called with friction 2 and
    restitution -1 stores both as given, outside the unit interval, where the
    setters called with the same values store 1 and 0. *)
Theorem constructor_stores_unclamped :
  PhysicsMaterial.friction (PhysicsMaterial.new 2 (-1) 1) = 2
  /\ PhysicsMaterial.restitution (PhysicsMaterial.new 2 (-1) 1) = -1
  /\ PhysicsMaterial.friction
       (PhysicsMaterial.set_friction 2 PhysicsMaterial.default) = 1
  /\ PhysicsMaterial.restitution
       (PhysicsMaterial.set_restitution (-1) PhysicsMaterial.default) = 0.
Proof.
  repeat split; try reflexivity; simpl; Rdecide; lra.
Qed.

(** ** Box against box *)

Lemma vec_eq (a b c d : R) : a = c -> b = d -> Vector2.mk a b = Vector2.mk c d.
Proof. now intros -> ->. Qed.

Lemma boxesWorld_testAABB_contact :
  option_map (fun i => map cp_point (CollisionInfo.contacts i))
    (fst (CollisionDetection.testAABB 1 2 boxesWorld))
  = Some [Vector2.mk (1 / 2) 0].
Proof.
  unfold CollisionDetection.testAABB, Collider_getBounds, Collider_updateBounds,
    Collider_computeBounds, Collider_getWorldPosition; simpl.
  Rdecide; simpl; do 2 f_equal; apply vec_eq; simpl; lra.
Qed.

(** C5, at the failing input: for the boxes of [boxesWorld] the overlap
    rectangle has midpoint (1/2, 21/2), and the contact point of the manifold
    is (1/2, 0): its y coordinate is the default of the one-argument
    [new Vector2(...)], not the midpoint. *)
Theorem testAABB_contact_point_y_is_zero :
  overlapMidpoint (Collider_computeBounds boxesWorld 1) (Collider_computeBounds boxesWorld 2)
    = Vector2.mk (1 / 2) (21 / 2)
  /\ option_map (fun i => map cp_point (CollisionInfo.contacts i))
       (fst (CollisionDetection.testAABB 1 2 boxesWorld))
     = Some [Vector2.mk (1 / 2) 0].
Proof.
  split.
  - unfold overlapMidpoint, Collider_computeBounds, Collider_getWorldPosition; simpl.
    apply vec_eq; Rdecide; lra.
  - exact boxesWorld_testAABB_contact.
Qed.

(** ** Circle against circle *)

Lemma distance_length (p q : Vector2.t) :
  Vector2.distance p q = Vector2.length (Vector2.subtract q p).
Proof.
  unfold Vector2.distance, Vector2.length, Vector2.subtract. simpl. f_equal. ring.
Qed.

Lemma sqrt_lt_iff_sq (d r : R) : 0 <= d -> 0 <= r -> (sqrt d < r <-> d < r * r).
Proof.
  intros Hd Hr. pose proof (sqrt_sqrt d Hd) as Hs. pose proof (sqrt_pos d) as Hp.
  split; intros H; nra.
Qed.

(** [testCircleCircle] by cases on the centre distance. *)
Lemma testCircleCircle_cases (W : World) (a b : nat) :
  0 <= Collider.radius (colliders W a) + Collider.radius (colliders W b) ->
  let posA := Collider_getWorldPosition W a in
  let posB := Collider_getWorldPosition W b in
  let ra := Collider.radius (colliders W a) in
  let rb := Collider.radius (colliders W b) in
  let distance := Vector2.distance posA posB in
  let normal :=
    if Rgtb distance (1 / 10000) then Vector2.normalize (Vector2.subtract posB posA)
    else Vector2.mk 1 0 in
  (ra + rb <= distance -> CollisionDetection.testCircleCircle a b W = None)
  /\ (distance < ra + rb ->
      CollisionDetection.testCircleCircle a b W =
      Some (CollisionInfo.mk a b
              [mkContactPoint (Vector2.add posA (Vector2.multiply normal ra))
                 normal (ra + rb - distance)]
              normal (ra + rb - distance))).
Proof.
  intros Hrs posA posB ra rb distance normal.
  assert (Hd : distance = sqrt (Vector2.lengthSquared (Vector2.subtract posB posA))).
  { unfold distance. now rewrite distance_length. }
  pose proof (lengthSquared_nonneg (Vector2.subtract posB posA)) as Hnn.
  assert (Hiff := sqrt_lt_iff_sq _ (ra + rb) Hnn Hrs).
  unfold CollisionDetection.testCircleCircle.
  fold posA posB ra rb. unfold Rgeb.
  split; intros Hcmp.
  - rewrite (proj2 (Rleb_true _ _)); [reflexivity |].
    rewrite Hd in Hcmp. apply Rnot_lt_le. intros Hlt. apply Hiff in Hlt. lra.
  - rewrite (proj2 (Rleb_false _ _)).
    + rewrite <- Hd. reflexivity.
    + apply Hiff. rewrite <- Hd. exact Hcmp.
Qed.

(** C2 as the code has it: for two circles the dispatcher gives no manifold
    when the centre distance is at least the radius sum, and otherwise a
    manifold with penetration [radiusSum - distance], the normalized centre
    vector as normal when the distance exceeds 0.0001 and (1, 0) when it does
    not, and one contact at [posA + normal * radiusA]. *)
Theorem circle_circle_manifold (W : World) (a b : nat) (ra rb : R) :
  Collider.shape (colliders W a) = Collider.CircleCollider ra ->
  Collider.shape (colliders W b) = Collider.CircleCollider rb ->
  radius_ok (colliders W a) -> radius_ok (colliders W b) ->
  let posA := Collider_getWorldPosition W a in
  let posB := Collider_getWorldPosition W b in
  let distance := Vector2.distance posA posB in
  let normal :=
    if Rgtb distance (1 / 10000) then Vector2.normalize (Vector2.subtract posB posA)
    else Vector2.mk 1 0 in
  (ra + rb <= distance -> CollisionDetection.detect a b W = (None, W))
  /\ (distance < ra + rb ->
      CollisionDetection.detect a b W =
      (Some (CollisionInfo.mk a b
               [mkContactPoint (Vector2.add posA (Vector2.multiply normal ra))
                  normal (ra + rb - distance)]
               normal (ra + rb - distance)), W)).
Proof.
  intros Ha Hb Oka Okb posA posB distance normal.
  unfold radius_ok in Oka, Okb. rewrite Ha in Oka. rewrite Hb in Okb.
  assert (Hra : Collider.radius (colliders W a) = ra) by (unfold Collider.radius; now rewrite Ha).
  assert (Hrb : Collider.radius (colliders W b) = rb) by (unfold Collider.radius; now rewrite Hb).
  pose proof (testCircleCircle_cases W a b) as H. cbv zeta in H.
  rewrite Hra, Hrb in H. specialize (H ltac:(lra)). destruct H as [H1 H2].
  unfold CollisionDetection.detect. rewrite Ha, Hb.
  split; intros Hcmp.
  - now rewrite H1.
  - now rewrite H2.
Qed.

Lemma circlesWorld_positions :
  Collider_getWorldPosition circlesWorld 1 = Vector2.mk (0 + 0) (0 + 0)
  /\ Collider_getWorldPosition circlesWorld 2 = Vector2.mk (0 + 0) (5 / 100000 + 0).
Proof. split; reflexivity. Qed.

Lemma circlesWorld_distance :
  Vector2.distance (Collider_getWorldPosition circlesWorld 1)
                   (Collider_getWorldPosition circlesWorld 2) = 5 / 100000.
Proof.
  destruct circlesWorld_positions as [-> ->]. unfold Vector2.distance. simpl.
  replace ((0 + 0 - (0 + 0)) * (0 + 0 - (0 + 0))
           + (0 + 0 - (5 / 100000 + 0)) * (0 + 0 - (5 / 100000 + 0)))
    with ((5 / 100000) * (5 / 100000)) by lra.
  apply sqrt_square. lra.
Qed.

Lemma circlesWorld_close : Rgtb (5 / 100000) (1 / 10000) = false.
Proof. apply Rltb_false. lra. Qed.

Lemma circlesWorld_testCircleCircle :
  option_map CollisionInfo.normal (CollisionDetection.testCircleCircle 1 2 circlesWorld)
  = Some (Vector2.mk 1 0).
Proof.
  pose proof (testCircleCircle_cases circlesWorld 1 2) as H. cbv zeta in H.
  rewrite circlesWorld_distance, circlesWorld_close in H.
  destruct H as [_ H]; [cbn; lra |]. rewrite H by (cbn; lra). reflexivity.
Qed.

(** A witness of [circle_circle_manifold]: the two circles of [circlesWorld]. *)
Lemma circle_circle_manifold_witness :
  CollisionDetection.detect 1 2 circlesWorld =
  (Some (CollisionInfo.mk 1 2
           [mkContactPoint
              (Vector2.add (Collider_getWorldPosition circlesWorld 1)
                 (Vector2.multiply (Vector2.mk 1 0) 25))
              (Vector2.mk 1 0) (25 + 25 - 5 / 100000)]
           (Vector2.mk 1 0) (25 + 25 - 5 / 100000)), circlesWorld).
Proof.
  pose proof (circle_circle_manifold circlesWorld 1 2 25 25 eq_refl eq_refl) as H.
  cbv zeta in H. rewrite circlesWorld_distance, circlesWorld_close in H.
  apply H; unfold radius_ok; cbn; lra.
Defined.

(** C2 as stated fails: the centres of the circles of [circlesWorld] do not
    coincide and the normalized vector from the first to the second is
    (0, 1), yet the manifold has the fallback normal (1, 0). *)
Lemma circle_circle_fallback_without_coincidence :
  Collider_getWorldPosition circlesWorld 1 <> Collider_getWorldPosition circlesWorld 2
  /\ Vector2.normalize
       (Vector2.subtract (Collider_getWorldPosition circlesWorld 2)
                         (Collider_getWorldPosition circlesWorld 1))
     = Vector2.mk 0 1
  /\ option_map CollisionInfo.normal (fst (CollisionDetection.detect 1 2 circlesWorld))
     = Some (Vector2.mk 1 0).
Proof.
  split; [| split].
  - destruct circlesWorld_positions as [-> ->]. intros H.
    apply (f_equal Vector2.y) in H. simpl in H. lra.
  - pose proof circlesWorld_distance as Hd. rewrite distance_length in Hd.
    rewrite normalize_nonzero by (rewrite Hd; lra). rewrite Hd.
    destruct circlesWorld_positions as [-> ->]. simpl. apply vec_eq; lra.
  - exact circlesWorld_testCircleCircle.
Qed.

(** ** Unit normal and non-negative penetration *)

Lemma getBounds_shape (h c : nat) (W : World) :
  Collider.shape (colliders (snd (Collider_getBounds h W)) c) = Collider.shape (colliders W c).
Proof.
  unfold Collider_getBounds. destruct (Collider._bounds (colliders W h)); [reflexivity |].
  simpl. unfold upd. destruct (Nat.eqb c h) eqn:E; [| reflexivity].
  apply Nat.eqb_eq in E. now subst.
Qed.

Lemma getBounds_radius (h c : nat) (W : World) :
  Collider.radius (colliders (snd (Collider_getBounds h W)) c)
  = Collider.radius (colliders W c).
Proof. unfold Collider.radius. now rewrite getBounds_shape. Qed.

Lemma testAABB_manifold_ok (a b : nat) (W W' : World) (info : CollisionInfo.t) :
  CollisionDetection.testAABB a b W = (Some info, W') -> manifold_ok info.
Proof.
  unfold CollisionDetection.testAABB.
  destruct (Collider_getBounds a W) as [boundsA W1].
  destruct (Collider_getBounds b W1) as [boundsB W2].
  destruct (_ || _ || _ || _) eqn:Hsep; [discriminate |].
  repeat (apply orb_false_iff in Hsep; destruct Hsep as [Hsep ?]).
  unfold Rgtb in *.
  repeat match goal with H : Rltb _ _ = false |- _ => apply Rltb_false in H end.
  destruct (Rltb (Rmin _ _) (Rmin _ _)); intros Heq; injection Heq as <- _;
    unfold manifold_ok; simpl.
  - split.
    + destruct (Rltb _ _); apply length_axis; lra.
    + unfold Rmin; destruct (Rle_dec _ _); lra.
  - split.
    + destruct (Rltb _ _); apply length_axis; lra.
    + unfold Rmin; destruct (Rle_dec _ _); lra.
Qed.

Lemma sqrt_gt_nonzero (d : R) : Rgtb (sqrt d) (1 / 10000) = true -> sqrt d <> 0.
Proof. unfold Rgtb. rewrite Rltb_true. lra. Qed.

Lemma testCircleCircle_manifold_ok (a b : nat) (W : World) (info : CollisionInfo.t) :
  0 <= Collider.radius (colliders W a) + Collider.radius (colliders W b) ->
  CollisionDetection.testCircleCircle a b W = Some info -> manifold_ok info.
Proof.
  intros Hrs. unfold CollisionDetection.testCircleCircle.
  set (delta := Vector2.subtract _ _).
  set (rs := _ + _) in *.
  destruct (Rgeb _ _) eqn:Hge; [discriminate |].
  unfold Rgeb in Hge. apply Rleb_false in Hge.
  intros Heq; injection Heq as <-. unfold manifold_ok; simpl. split.
  - destruct (Rgtb _ _) eqn:Hfar.
    + apply normalize_length. exact (sqrt_gt_nonzero _ Hfar).
    + apply length_axis; lra.
  - apply (sqrt_lt_iff_sq _ rs (lengthSquared_nonneg delta) Hrs) in Hge. lra.
Qed.

Lemma testAABBCircle_manifold_ok (box circle : nat) (W W' : World) (info : CollisionInfo.t) :
  0 <= Collider.radius (colliders W circle) ->
  CollisionDetection.testAABBCircle box circle W = (Some info, W') -> manifold_ok info.
Proof.
  intros Hr. unfold CollisionDetection.testAABBCircle.
  pose proof (getBounds_radius box circle W) as Hrad.
  destruct (Collider_getBounds box W) as [boxBounds W1]. simpl in Hrad. rewrite Hrad.
  set (delta := Vector2.subtract _ _).
  set (r := Collider.radius _) in *.
  destruct (Rgeb _ _) eqn:Hge; [discriminate |].
  unfold Rgeb in Hge. apply Rleb_false in Hge.
  intros Heq; injection Heq as <- _. unfold manifold_ok; simpl. split.
  - destruct (Rgtb _ _) eqn:Hfar.
    + apply normalize_length. exact (sqrt_gt_nonzero _ Hfar).
    + repeat (destruct (Reqb _ _)); apply length_axis; lra.
  - apply (sqrt_lt_iff_sq _ r (lengthSquared_nonneg delta) Hr) in Hge. lra.
Qed.

Lemma radius_ok_nonneg (c : Collider.t) : radius_ok c -> 0 <= Collider.radius c.
Proof. unfold radius_ok, Collider.radius. destruct (Collider.shape c); lra. Qed.

Lemma swapColliders_manifold_ok (info : CollisionInfo.t) :
  manifold_ok info -> manifold_ok (CollisionInfo.swapColliders info).
Proof.
  unfold manifold_ok, CollisionInfo.swapColliders, CollisionInfo.normal,
    CollisionInfo.penetration. simpl. now rewrite length_negate.
Qed.

Lemma detect_manifold_ok (a b : nat) (W W' : World) (info : CollisionInfo.t) :
  radius_ok (colliders W a) -> radius_ok (colliders W b) ->
  CollisionDetection.detect a b W = (Some info, W') -> manifold_ok info.
Proof.
  intros Oka Okb. apply radius_ok_nonneg in Oka, Okb.
  unfold CollisionDetection.detect.
  destruct (Collider.shape (colliders W a)), (Collider.shape (colliders W b)).
  - apply testAABB_manifold_ok.
  - now apply testAABBCircle_manifold_ok.
  - destruct (CollisionDetection.testAABBCircle b a W) as [[i |] W1] eqn:Ht;
      simpl; intros Heq; [| discriminate].
    injection Heq as <- _. apply swapColliders_manifold_ok.
    eapply testAABBCircle_manifold_ok; [| exact Ht]. assumption.
  - intros Heq. injection Heq as Heq _.
    eapply testCircleCircle_manifold_ok; [| exact Heq]. lra.
Qed.

(** C3: a manifold returned by the dispatcher, in each of the four shape
    combinations, has a normal whose length is within 0.0001 of one (it is
    one) and a penetration that is not negative. *)
Theorem detect_unit_normal_nonneg_penetration
  (a b : nat) (W W' : World) (info : CollisionInfo.t) :
  radius_ok (colliders W a) -> radius_ok (colliders W b) ->
  CollisionDetection.detect a b W = (Some info, W') ->
  Rabs (Vector2.length (CollisionInfo.normal info) - 1) <= 1 / 10000
  /\ 0 <= CollisionInfo.penetration info.
Proof.
  intros Oka Okb Hd. destruct (detect_manifold_ok a b W W' info Oka Okb Hd) as [Hn Hp].
  split; [| exact Hp]. rewrite Hn. replace (1 - 1) with 0 by ring. rewrite Rabs_R0. lra.
Qed.

Lemma circlesWorld_radius_ok (h : nat) : radius_ok (colliders circlesWorld h).
Proof.
  unfold radius_ok. cbn. destruct h as [| [| h]]; cbn; lra.
Qed.

Lemma circlesWorld_detect :
  CollisionDetection.detect 1 2 circlesWorld =
  (Some (CollisionInfo.mk 1 2
           [mkContactPoint
              (Vector2.add (Collider_getWorldPosition circlesWorld 1)
                 (Vector2.multiply (Vector2.mk 1 0) 25))
              (Vector2.mk 1 0) (25 + 25 - 5 / 100000)]
           (Vector2.mk 1 0) (25 + 25 - 5 / 100000)), circlesWorld).
Proof.
  pose proof (testCircleCircle_cases circlesWorld 1 2) as H. cbv zeta in H.
  rewrite circlesWorld_distance, circlesWorld_close in H.
  destruct H as [_ H]; [cbn; lra |].
  change (CollisionDetection.detect 1 2 circlesWorld)
    with (CollisionDetection.testCircleCircle 1 2 circlesWorld, circlesWorld).
  rewrite H by (cbn; lra). reflexivity.
Qed.

(** A witness of [detect_unit_normal_nonneg_penetration]: the manifold of
    the two circles of [circlesWorld]. *)
Lemma detect_unit_normal_nonneg_penetration_witness :
  Rabs (Vector2.length (Vector2.mk 1 0) - 1) <= 1 / 10000
  /\ 0 <= 25 + 25 - 5 / 100000.
Proof.
  exact (detect_unit_normal_nonneg_penetration 1 2 circlesWorld circlesWorld _
           (circlesWorld_radius_ok 1) (circlesWorld_radius_ok 2) circlesWorld_detect).
Defined.

(** ** The integrator *)

Lemma length_x_axis (a : R) : 0 <= a -> Vector2.length (Vector2.mk a 0) = a.
Proof.
  intros Ha. unfold Vector2.length. simpl.
  replace (a * a + 0 * 0) with (a * a) by ring. now apply sqrt_square.
Qed.

(** Comparing the squared speed with the squared maximum is comparing the
    speed with the maximum. *)
Lemma speed_test_squared (M : R) (v : Vector2.t) :
  0 <= M -> (M * M < Vector2.lengthSquared v <-> M < Vector2.length v).
Proof.
  intros HM. pose proof (length_sqr v) as Hs. pose proof (length_nonneg v) as Hl.
  split; intros H; nra.
Qed.

Lemma updateSleep_sleeps (K : PhysicsConstantsT) (dt : R) (b : RigidBody.t) :
  Vector2.length (RigidBody._velocity b) < SLEEP_THRESHOLD K ->
  Rabs (RigidBody._angularVelocity b) < SLEEP_THRESHOLD K ->
  SLEEP_TIME K <= RigidBody._sleepTimer b + dt ->
  RigidBody.updateSleep K dt b =
  RigidBody.with_angularVelocity 0
    (RigidBody.with_velocity Vector2.zero
       (RigidBody.with_isSleeping true
          (RigidBody.with_sleepTimer (RigidBody._sleepTimer b + dt) b))).
Proof.
  intros Hv Hw Ht. unfold RigidBody.updateSleep.
  destruct (Rlt_dec _ _); [| contradiction].
  destruct (Rlt_dec _ _); [| contradiction].
  simpl. destruct (Rle_dec _ _); [reflexivity | contradiction].
Qed.

(** C1 as the code has it: for a dynamic, awake body with a game object, one
    call of the integrator performs the eight steps of the specification in
    their order, which give the transform of the result and the body [b8],
    and then updates the sleep state of [b8]:
    - while [b8] is slow and its sleep timer plus the timestep stays below
      the sleep time, the timer grows by the timestep and nothing else
      changes;
    - once the timer plus the timestep reaches the sleep time, the timer
      grows by the timestep and the body is put to sleep with velocity and
      angular velocity zero;
    - when [b8] is not slow, the timer is reset to zero. *)
Theorem fixedUpdate_steps_then_sleep
  (K : PhysicsConstantsT) (dt : R) (b : RigidBody.t) (tr : Transform.t) :
  0 <= MAX_VELOCITY K ->
  RigidBody._bodyType b = DYNAMIC ->
  RigidBody._isSleeping b = false ->
  let b8 := fst (IntegratorSpec.integrate K dt b tr) in
  let r := RigidBody.fixedUpdate K dt b (Some tr) in
  snd r = Some (snd (IntegratorSpec.integrate K dt b tr))
  /\ (IntegratorSpec.slow K b8 ->
      RigidBody._sleepTimer b8 + dt < SLEEP_TIME K ->
      fst r = RigidBody.with_sleepTimer (RigidBody._sleepTimer b8 + dt) b8)
  /\ (IntegratorSpec.slow K b8 ->
      SLEEP_TIME K <= RigidBody._sleepTimer b8 + dt ->
      fst r = IntegratorSpec.putToSleep
                (RigidBody.with_sleepTimer (RigidBody._sleepTimer b8 + dt) b8)
      /\ RigidBody._isSleeping (fst r) = true
      /\ RigidBody._velocity (fst r) = Vector2.zero
      /\ RigidBody._angularVelocity (fst r) = 0
      /\ RigidBody._sleepTimer (fst r) = RigidBody._sleepTimer b8 + dt)
  /\ (~ IntegratorSpec.slow K b8 ->
      fst r = RigidBody.with_sleepTimer 0 b8).
Proof.
  intros HM Hdyn Hawake b8 r.
  assert (Hcode : r = (RigidBody.updateSleep K dt b8,
                       Some (snd (IntegratorSpec.integrate K dt b tr)))).
  { subst r b8. unfold RigidBody.fixedUpdate. rewrite Hdyn, Hawake.
    cbn [BodyType_eqb negb].
    unfold IntegratorSpec.integrate, IntegratorSpec.resetAccumulators,
      IntegratorSpec.dampAngularVelocity, IntegratorSpec.clampSpeed,
      IntegratorSpec.dampVelocity, IntegratorSpec.addAcceleration,
      IntegratorSpec.setAcceleration, IntegratorSpec.accumulateGravity.
    cbv zeta. cbn [fst snd].
    match goal with
    | |- context [Rlt_dec (MAX_VELOCITY K * MAX_VELOCITY K) (Vector2.lengthSquared ?v)] =>
        destruct (Rlt_dec (MAX_VELOCITY K * MAX_VELOCITY K) (Vector2.lengthSquared v))
          as [H1 | H1];
        destruct (Rlt_dec (MAX_VELOCITY K) (Vector2.length v)) as [H2 | H2]
    end; try reflexivity; exfalso.
    - apply H2. now apply speed_test_squared.
    - apply H1. now apply speed_test_squared. }
  rewrite Hcode. cbn [fst snd]. clearbody b8. clear Hcode r.
  unfold IntegratorSpec.slow, IntegratorSpec.putToSleep, RigidBody.updateSleep.
  split; [reflexivity |].
  destruct (Rlt_dec (Vector2.length (RigidBody._velocity b8)) (SLEEP_THRESHOLD K)) as [Hv | Hv];
    [destruct (Rlt_dec (Rabs (RigidBody._angularVelocity b8)) (SLEEP_THRESHOLD K)) as [Hw | Hw] |].
  - cbv zeta. cbn [RigidBody._sleepTimer RigidBody.with_sleepTimer].
    destruct (Rle_dec (SLEEP_TIME K) (RigidBody._sleepTimer b8 + dt)) as [Ht | Ht].
    + split; [intros _ Hlt; exfalso; lra |].
      split; [intros _ _; repeat split | intros Hn; exfalso; apply Hn; now split].
    + split; [intros _ _; reflexivity |].
      split; [intros _ Hle; contradiction | intros Hn; exfalso; apply Hn; now split].
  - split; [intros [_ Hw'] _; contradiction |].
    split; [intros [_ Hw'] _; contradiction | intros _; reflexivity].
  - split; [intros [Hv' _] _; contradiction |].
    split; [intros [Hv' _] _; contradiction | intros _; reflexivity].
Qed.

Lemma slowBody_damped_velocity :
  Vector2.multiply
    (Vector2.add (Vector2.mk (3 / 10) 0)
       (Vector2.multiply (Vector2.multiply Vector2.zero (1 / 1)) (1 / 60)))
    (Rmax 0 (1 - 1 / 10 * (1 / 60) * 10))
  = Vector2.mk (59 / 200) 0.
Proof.
  unfold Vector2.multiply, Vector2.add, Vector2.zero. simpl.
  apply vec_eq; Rdecide; lra.
Qed.

Lemma slowBody_below_maximum :
  ~ 5000 * 5000 < Vector2.lengthSquared (Vector2.mk (59 / 200) 0).
Proof. unfold Vector2.lengthSquared. simpl. lra. Qed.

(** The eight steps on [slowBody]: it stays slow, and its sleep timer is
    still 0.49. *)
Lemma slowBody_after_steps :
  let b8 := fst (IntegratorSpec.integrate PhysicsConstants (1 / 60) slowBody Transform.new) in
  IntegratorSpec.slow PhysicsConstants b8 /\ RigidBody._sleepTimer b8 = 49 / 100.
Proof.
  cbv zeta. unfold IntegratorSpec.slow, IntegratorSpec.integrate,
    IntegratorSpec.resetAccumulators, IntegratorSpec.dampAngularVelocity,
    IntegratorSpec.clampSpeed, IntegratorSpec.dampVelocity, IntegratorSpec.addAcceleration,
    IntegratorSpec.setAcceleration, IntegratorSpec.accumulateGravity.
  cbn -[Rmax Rabs Vector2.length Vector2.normalize Vector2.multiply Vector2.add].
  rewrite slowBody_damped_velocity, length_x_axis by lra.
  destruct (Rlt_dec 5000 (59 / 200)); [exfalso; lra |].
  cbn -[Rmax Rabs Vector2.length]. rewrite length_x_axis by lra.
  rewrite Rmult_0_l, Rabs_R0. repeat split; lra.
Qed.

(** A witness of [fixedUpdate_steps_then_sleep]: [slowBody] under the
    constants of the engine, which has been slow for 0.49 seconds and is put
    to sleep by a step of a sixtieth of a second. *)
Lemma fixedUpdate_steps_then_sleep_witness :
  let r := RigidBody.fixedUpdate PhysicsConstants (1 / 60) slowBody (Some Transform.new) in
  RigidBody._isSleeping (fst r) = true
  /\ RigidBody._velocity (fst r) = Vector2.zero
  /\ RigidBody._angularVelocity (fst r) = 0
  /\ RigidBody._sleepTimer (fst r) = 49 / 100 + 1 / 60.
Proof.
  cbv zeta.
  destruct (fixedUpdate_steps_then_sleep PhysicsConstants (1 / 60) slowBody Transform.new)
    as (_ & _ & Hsleep & _); [simpl; lra | reflexivity | reflexivity |].
  destruct slowBody_after_steps as [Hslow Htimer].
  destruct (Hsleep Hslow) as (_ & H1 & H2 & H3 & H4).
  - rewrite Htimer. simpl. lra.
  - rewrite Htimer in H4. repeat split; assumption.
Defined.

(** C1 as stated fails: the eight steps leave [slowBody] awake with velocity
    (0.295, 0), while the integrator returns it asleep with velocity (0, 0). *)
Lemma fixedUpdate_puts_slow_body_to_sleep :
  RigidBody._velocity
    (fst (IntegratorSpec.integrate PhysicsConstants (1 / 60) slowBody Transform.new))
  = Vector2.mk (59 / 200) 0
  /\ RigidBody._isSleeping
       (fst (IntegratorSpec.integrate PhysicsConstants (1 / 60) slowBody Transform.new))
     = false
  /\ RigidBody._velocity
       (fst (RigidBody.fixedUpdate PhysicsConstants (1 / 60) slowBody (Some Transform.new)))
     = Vector2.mk 0 0
  /\ RigidBody._isSleeping
       (fst (RigidBody.fixedUpdate PhysicsConstants (1 / 60) slowBody (Some Transform.new)))
     = true.
Proof.
  assert (Hspec :
    IntegratorSpec.clampSpeed PhysicsConstants
      (IntegratorSpec.dampVelocity (1 / 60)
         (IntegratorSpec.addAcceleration (1 / 60)
            (IntegratorSpec.setAcceleration
               (IntegratorSpec.accumulateGravity PhysicsConstants slowBody))))
    = RigidBody.with_velocity (Vector2.mk (59 / 200) 0)
        (RigidBody.with_acceleration (Vector2.multiply Vector2.zero (1 / 1)) slowBody)).
  { unfold IntegratorSpec.clampSpeed, IntegratorSpec.dampVelocity,
      IntegratorSpec.addAcceleration, IntegratorSpec.setAcceleration,
      IntegratorSpec.accumulateGravity.
    cbn -[Rmax Vector2.length Vector2.normalize Vector2.multiply Vector2.add].
    rewrite slowBody_damped_velocity, length_x_axis by lra.
    destruct (Rlt_dec 5000 (59 / 200)); [exfalso; lra | reflexivity]. }
  assert (Hcode :
    RigidBody.fixedUpdate PhysicsConstants (1 / 60) slowBody (Some Transform.new)
    = (RigidBody.with_angularVelocity 0
         (RigidBody.with_velocity Vector2.zero
            (RigidBody.with_isSleeping true
               (RigidBody.with_sleepTimer (49 / 100 + 1 / 60)
                  (RigidBody.with_torque 0
                     (RigidBody.with_force Vector2.zero
                        (RigidBody.with_angularVelocity (0 * Rmax 0 (1 - 5 / 100 * (1 / 60) * 10))
                           (RigidBody.with_velocity (Vector2.mk (59 / 200) 0)
                              (RigidBody.with_acceleration
                                 (Vector2.multiply Vector2.zero (1 / 1)) slowBody)))))))),
       Some (Transform.rotate (0 * Rmax 0 (1 - 5 / 100 * (1 / 60) * 10) * (1 / 60))
               (Transform.translate
                  (Vector2.multiply (Vector2.mk (59 / 200) 0) (1 / 60)) Transform.new)))).
  { unfold RigidBody.fixedUpdate.
    cbn -[Rmax Vector2.length Vector2.normalize Vector2.lengthSquared
          Vector2.multiply Vector2.add RigidBody.updateSleep Transform.rotate
          Transform.translate].
    rewrite slowBody_damped_velocity.
    destruct (Rlt_dec (5000 * 5000) (Vector2.lengthSquared (Vector2.mk (59 / 200) 0)));
      [exfalso; now apply slowBody_below_maximum |].
    rewrite updateSleep_sleeps.
    - reflexivity.
    - cbn. rewrite length_x_axis; lra.
    - cbn. rewrite Rmult_0_l, Rabs_R0. lra.
    - cbn. lra. }
  rewrite Hcode. unfold IntegratorSpec.integrate. rewrite Hspec.
  repeat split.
Qed.

(** ** The sub-step does not read the scalar fields of the manager

    Every operation of a sub-step commutes with a change of [_gravity],
    [_fixedTimestep] and [_accumulator]: it neither reads nor writes them. *)

Ltac split_match :=
  repeat match goal with
  | |- context [match ?x with _ => _ end] => destruct x eqn:?
  end.

Lemma with_manager_same (W : World) :
  with_manager (_gravity W) (_fixedTimestep W) (_accumulator W) W = W.
Proof. now destruct W. Qed.

Lemma fold_left_commute {A : Type} (h : World -> World) (f : World -> A -> World)
  (l : list A) :
  (forall W x, f (h W) x = h (f W x)) ->
  forall W, fold_left f l (h W) = h (fold_left f l W).
Proof.
  intros Hf. induction l as [| x l IH]; intros W; simpl; [reflexivity |].
  now rewrite Hf, IH.
Qed.

Lemma fold_left_pair_commute {A S : Type} (h : World -> World)
  (f : S * World -> A -> S * World) (l : list A) :
  (forall s W x, f (s, h W) x = (fst (f (s, W) x), h (snd (f (s, W) x)))) ->
  forall s W,
    fold_left f l (s, h W) = (fst (fold_left f l (s, W)), h (snd (fold_left f l (s, W)))).
Proof.
  intros Hf. induction l as [| x l IH]; intros s W; simpl; [reflexivity |].
  rewrite Hf. destruct (f (s, W) x) as [s1 W1]. simpl. apply IH.
Qed.

Section ManagerFrame.

Variables (g : Vector2.t) (ft acc : R).

Lemma frame_updateBounds (h : nat) (W : World) :
  Collider_updateBounds h (with_manager g ft acc W)
  = with_manager g ft acc (Collider_updateBounds h W).
Proof. reflexivity. Qed.

Lemma frame_getBounds (h : nat) (W : World) :
  Collider_getBounds h (with_manager g ft acc W)
  = (fst (Collider_getBounds h W), with_manager g ft acc (snd (Collider_getBounds h W))).
Proof. unfold Collider_getBounds. cbn. split_match; reflexivity. Qed.

Lemma frame_testAABB (a b : nat) (W : World) :
  CollisionDetection.testAABB a b (with_manager g ft acc W)
  = (fst (CollisionDetection.testAABB a b W),
     with_manager g ft acc (snd (CollisionDetection.testAABB a b W))).
Proof.
  unfold CollisionDetection.testAABB. rewrite frame_getBounds.
  destruct (Collider_getBounds a W) as [ba W1]. cbn [fst snd].
  rewrite frame_getBounds. destruct (Collider_getBounds b W1) as [bb W2]. cbn [fst snd].
  split_match; reflexivity.
Qed.

Lemma frame_testCircleCircle (a b : nat) (W : World) :
  CollisionDetection.testCircleCircle a b (with_manager g ft acc W)
  = CollisionDetection.testCircleCircle a b W.
Proof. reflexivity. Qed.

Lemma frame_testAABBCircle (a b : nat) (W : World) :
  CollisionDetection.testAABBCircle a b (with_manager g ft acc W)
  = (fst (CollisionDetection.testAABBCircle a b W),
     with_manager g ft acc (snd (CollisionDetection.testAABBCircle a b W))).
Proof.
  unfold CollisionDetection.testAABBCircle. rewrite frame_getBounds.
  destruct (Collider_getBounds a W) as [ba W1]. cbn [fst snd].
  change (Collider_getWorldPosition (with_manager g ft acc W1) b)
    with (Collider_getWorldPosition W1 b).
  change (colliders (with_manager g ft acc W1)) with (colliders W1).
  destruct (Rgeb _ _); reflexivity.
Qed.

Lemma frame_detect (a b : nat) (W : World) :
  CollisionDetection.detect a b (with_manager g ft acc W)
  = (fst (CollisionDetection.detect a b W),
     with_manager g ft acc (snd (CollisionDetection.detect a b W))).
Proof.
  unfold CollisionDetection.detect.
  change (colliders (with_manager g ft acc W)) with (colliders W).
  destruct (Collider.shape (colliders W a)), (Collider.shape (colliders W b)).
  - apply frame_testAABB.
  - apply frame_testAABBCircle.
  - rewrite frame_testAABBCircle.
    destruct (CollisionDetection.testAABBCircle b a W); reflexivity.
  - reflexivity.
Qed.

Lemma frame_resolvePositionalCorrection (K : PhysicsConstantsT) (info : CollisionInfo.t)
  (bodyA bodyB : nat) (W : World) :
  CollisionResolver.resolvePositionalCorrection K info bodyA bodyB (with_manager g ft acc W)
  = with_manager g ft acc (CollisionResolver.resolvePositionalCorrection K info bodyA bodyB W).
Proof.
  unfold CollisionResolver.resolvePositionalCorrection.
  change (bodies (with_manager g ft acc W)) with (bodies W).
  change (objects (with_manager g ft acc W)) with (objects W).
  destruct (Rleb _ _); [reflexivity |].
  destruct (Reqb _ _); [reflexivity |].
  destruct (RigidBody.gameObject (bodies W bodyA));
    [destruct (BodyType_eqb (RigidBody.bodyType (bodies W bodyA)) DYNAMIC) |];
    cbn; split_match; reflexivity.
Qed.

Lemma frame_resolveFriction (info : CollisionInfo.t) (bodyA bodyB : nat) (j : R) (W : World) :
  CollisionResolver.resolveFriction info bodyA bodyB j (with_manager g ft acc W)
  = with_manager g ft acc (CollisionResolver.resolveFriction info bodyA bodyB j W).
Proof.
  unfold CollisionResolver.resolveFriction.
  change (bodies (with_manager g ft acc W)) with (bodies W).
  change (colliders (with_manager g ft acc W)) with (colliders W).
  destruct (Rltb _ _); [reflexivity |].
  destruct (Reqb _ _); [reflexivity |].
  destruct (BodyType_eqb (RigidBody.bodyType (bodies W bodyA)) DYNAMIC);
    cbn; split_match; reflexivity.
Qed.

Lemma frame_resolveImpulse (info : CollisionInfo.t) (bodyA bodyB : nat) (W : World) :
  CollisionResolver.resolveImpulse info bodyA bodyB (with_manager g ft acc W)
  = with_manager g ft acc (CollisionResolver.resolveImpulse info bodyA bodyB W).
Proof.
  unfold CollisionResolver.resolveImpulse.
  change (bodies (with_manager g ft acc W)) with (bodies W).
  change (colliders (with_manager g ft acc W)) with (colliders W).
  destruct (Rgtb _ _); [reflexivity |].
  destruct (Reqb _ _); [reflexivity |].
  cbv zeta. rewrite <- frame_resolveFriction. f_equal.
  destruct (BodyType_eqb (RigidBody.bodyType (bodies W bodyA)) DYNAMIC);
    cbn; split_match; reflexivity.
Qed.

Lemma frame_resolve (K : PhysicsConstantsT) (info : CollisionInfo.t) (W : World) :
  CollisionResolver.resolve K info (with_manager g ft acc W)
  = with_manager g ft acc (CollisionResolver.resolve K info W).
Proof.
  unfold CollisionResolver.resolve.
  change (CollisionResolver.bodyOf (with_manager g ft acc W)) with (CollisionResolver.bodyOf W).
  change (bodies (with_manager g ft acc W)) with (bodies W).
  destruct (CollisionResolver.bodyOf W _) as [bodyA |]; [| reflexivity].
  destruct (CollisionResolver.bodyOf W _) as [bodyB |]; [| reflexivity].
  destruct (_ && _); [reflexivity |].
  now rewrite frame_resolvePositionalCorrection, frame_resolveImpulse.
Qed.

Lemma frame_resolvePositionOnly (K : PhysicsConstantsT) (info : CollisionInfo.t) (W : World) :
  CollisionResolver.resolvePositionOnly K info (with_manager g ft acc W)
  = with_manager g ft acc (CollisionResolver.resolvePositionOnly K info W).
Proof.
  unfold CollisionResolver.resolvePositionOnly.
  change (CollisionResolver.bodyOf (with_manager g ft acc W)) with (CollisionResolver.bodyOf W).
  change (bodies (with_manager g ft acc W)) with (bodies W).
  destruct (CollisionResolver.bodyOf W _) as [bodyA |]; [| reflexivity].
  destruct (CollisionResolver.bodyOf W _) as [bodyB |]; [| reflexivity].
  destruct (_ && _); [reflexivity |].
  apply frame_resolvePositionalCorrection.
Qed.

End ManagerFrame.

Section SubStepFrame.

Variables (g : Vector2.t) (ft acc : R).

Lemma frame_updateAllBounds (W : World) :
  PhysicsManager.updateAllBounds (with_manager g ft acc W)
  = with_manager g ft acc (PhysicsManager.updateAllBounds W).
Proof.
  unfold PhysicsManager.updateAllBounds.
  change (_colliders (with_manager g ft acc W)) with (_colliders W).
  apply fold_left_commute. intros W0 c.
  change (colliders (with_manager g ft acc W0)) with (colliders W0).
  destruct (Collider.enabled (colliders W0 c)); reflexivity.
Qed.

Lemma frame_narrowPhasePair (s : list (PairKey * CollisionInfo.t)) (W : World)
  (p : nat * nat) :
  PhysicsManager.narrowPhasePair (s, with_manager g ft acc W) p
  = (fst (PhysicsManager.narrowPhasePair (s, W) p),
     with_manager g ft acc (snd (PhysicsManager.narrowPhasePair (s, W) p))).
Proof.
  unfold PhysicsManager.narrowPhasePair. destruct p as [a b].
  rewrite frame_getBounds. destruct (Collider_getBounds a W) as [ba W1]. cbn [fst snd].
  rewrite frame_getBounds. destruct (Collider_getBounds b W1) as [bb W2]. cbn [fst snd].
  destruct (negb _); [reflexivity |].
  rewrite frame_detect. destruct (CollisionDetection.detect a b W2) as [[info |] W3];
    reflexivity.
Qed.

Lemma frame_dispatchSide (info : CollisionInfo.t) (a b : nat) (flip trigger : bool)
  (W : World) :
  PhysicsManager.dispatchSide info a b flip trigger (with_manager g ft acc W)
  = with_manager g ft acc (PhysicsManager.dispatchSide info a b flip trigger W).
Proof.
  unfold PhysicsManager.dispatchSide.
  change (colliders (with_manager g ft acc W)) with (colliders W).
  split_match; reflexivity.
Qed.

Lemma frame_dispatchPair (W : World) (entry : PairKey * CollisionInfo.t) :
  PhysicsManager.dispatchPair (with_manager g ft acc W) entry
  = with_manager g ft acc (PhysicsManager.dispatchPair W entry).
Proof.
  unfold PhysicsManager.dispatchPair. cbv zeta.
  change (colliders (with_manager g ft acc W)) with (colliders W).
  rewrite frame_dispatchSide.
  change (colliders (with_manager g ft acc ?X)) with (colliders X).
  now rewrite frame_dispatchSide.
Qed.

Lemma frame_dispatchExit (W : World) (p : nat * nat) :
  PhysicsManager.dispatchExit (with_manager g ft acc W) p
  = with_manager g ft acc (PhysicsManager.dispatchExit W p).
Proof.
  unfold PhysicsManager.dispatchExit. destruct p as [c o].
  change (colliders (with_manager g ft acc W)) with (colliders W).
  split_match; reflexivity.
Qed.

Lemma frame_dispatchCollisionEvents (cc : list (PairKey * CollisionInfo.t)) (W : World) :
  PhysicsManager.dispatchCollisionEvents cc (with_manager g ft acc W)
  = with_manager g ft acc (PhysicsManager.dispatchCollisionEvents cc W).
Proof.
  unfold PhysicsManager.dispatchCollisionEvents. cbv zeta.
  change (PhysicsManager.enabledColliders (with_manager g ft acc W))
    with (PhysicsManager.enabledColliders W).
  rewrite (fold_left_commute _ _ _ frame_dispatchPair).
  apply fold_left_commute, frame_dispatchExit.
Qed.

Lemma frame_RigidBody_fixedUpdate (K : PhysicsConstantsT) (dt : R) (h : nat) (W : World) :
  PhysicsManager.RigidBody_fixedUpdate K dt h (with_manager g ft acc W)
  = with_manager g ft acc (PhysicsManager.RigidBody_fixedUpdate K dt h W).
Proof.
  unfold PhysicsManager.RigidBody_fixedUpdate.
  change (bodies (with_manager g ft acc W)) with (bodies W).
  change (objects (with_manager g ft acc W)) with (objects W).
  destruct (RigidBody.gameObject (bodies W h)); [| reflexivity].
  destruct (RigidBody.fixedUpdate K dt _ _) as [b' [tr |]]; reflexivity.
Qed.

Lemma frame_integrateBody (K : PhysicsConstantsT) (dt : R) (W : World) (body : nat) :
  PhysicsManager.integrateBody K dt (with_manager g ft acc W) body
  = with_manager g ft acc (PhysicsManager.integrateBody K dt W body).
Proof.
  unfold PhysicsManager.integrateBody.
  change (bodies (with_manager g ft acc W)) with (bodies W).
  destruct (_ && _); [apply frame_RigidBody_fixedUpdate | reflexivity].
Qed.

Lemma frame_positionSolvePair (K : PhysicsConstantsT) (W : World)
  (entry : PairKey * CollisionInfo.t) :
  PhysicsManager.positionSolvePair K (with_manager g ft acc W) entry
  = with_manager g ft acc (PhysicsManager.positionSolvePair K W entry).
Proof.
  unfold PhysicsManager.positionSolvePair. cbv zeta.
  change (colliders (with_manager g ft acc W)) with (colliders W).
  destruct (_ && _); [| reflexivity].
  rewrite frame_detect. destruct (CollisionDetection.detect _ _ W) as [[info |] W1];
    cbn [fst snd]; [apply frame_resolvePositionOnly | reflexivity].
Qed.

Lemma frame_velocitySolvePair (K : PhysicsConstantsT) (W : World)
  (entry : PairKey * CollisionInfo.t) :
  PhysicsManager.velocitySolvePair K (with_manager g ft acc W) entry
  = with_manager g ft acc (PhysicsManager.velocitySolvePair K W entry).
Proof.
  unfold PhysicsManager.velocitySolvePair. cbv zeta.
  change (colliders (with_manager g ft acc W)) with (colliders W).
  destruct (_ && _); [| reflexivity].
  rewrite frame_detect. destruct (CollisionDetection.detect _ _ W) as [[info |] W1];
    cbn [fst snd]; [apply frame_resolve | reflexivity].
Qed.

Lemma frame_positionSolver (K : PhysicsConstantsT) (n : nat)
  (cc : list (PairKey * CollisionInfo.t)) (W : World) :
  PhysicsManager.positionSolver K n cc (with_manager g ft acc W)
  = with_manager g ft acc (PhysicsManager.positionSolver K n cc W).
Proof.
  revert W. induction n as [| n IH]; intros W; simpl; [reflexivity |].
  rewrite frame_updateAllBounds.
  rewrite (fold_left_commute _ _ _ (frame_positionSolvePair K)). apply IH.
Qed.

Lemma frame_collisionState (W : World) :
  fold_left
    (fun W c =>
       if Collider.enabled (colliders W c)
       then with_collider c (Collider.updateCollisionState (colliders W c)) W
       else W)
    (_colliders W) (with_manager g ft acc W)
  = with_manager g ft acc
      (fold_left
         (fun W c =>
            if Collider.enabled (colliders W c)
            then with_collider c (Collider.updateCollisionState (colliders W c)) W
            else W)
         (_colliders W) W).
Proof.
  apply fold_left_commute. intros W0 c.
  change (colliders (with_manager g ft acc W0)) with (colliders W0).
  destruct (Collider.enabled (colliders W0 c)); reflexivity.
Qed.

Lemma frame_fixedUpdate (K : PhysicsConstantsT) (dt : R) (W : World) :
  PhysicsManager.fixedUpdate K dt (with_manager g ft acc W)
  = with_manager g ft acc (PhysicsManager.fixedUpdate K dt W).
Proof.
  unfold PhysicsManager.fixedUpdate. cbv zeta.
  change (_rigidbodies (with_manager g ft acc W)) with (_rigidbodies W).
  rewrite (fold_left_commute _ _ _ (frame_integrateBody K dt)).
  rewrite frame_updateAllBounds.
  set (W2 := PhysicsManager.updateAllBounds _).
  change (_colliders (with_manager g ft acc W2)) with (_colliders W2).
  rewrite frame_collisionState.
  set (W3 := fold_left _ (_colliders W2) W2).
  change (PhysicsManager.enabledColliders (with_manager g ft acc W3))
    with (PhysicsManager.enabledColliders W3).
  rewrite (fold_left_pair_commute _ _ _ frame_narrowPhasePair).
  destruct (fold_left PhysicsManager.narrowPhasePair _ _) as [cc W5]. cbn [fst snd].
  rewrite frame_positionSolver.
  rewrite (fold_left_commute _ _ _ (frame_velocitySolvePair K)).
  rewrite frame_dispatchCollisionEvents. reflexivity.
Qed.

End SubStepFrame.

(** ** The accumulator loop *)

Lemma fixedUpdate_scalars (K : PhysicsConstantsT) (dt : R) (W : World) :
  _gravity (PhysicsManager.fixedUpdate K dt W) = _gravity W
  /\ _fixedTimestep (PhysicsManager.fixedUpdate K dt W) = _fixedTimestep W
  /\ _accumulator (PhysicsManager.fixedUpdate K dt W) = _accumulator W.
Proof.
  assert (H : PhysicsManager.fixedUpdate K dt W
              = with_manager (_gravity W) (_fixedTimestep W) (_accumulator W)
                  (PhysicsManager.fixedUpdate K dt W)).
  { rewrite <- frame_fixedUpdate. now rewrite with_manager_same. }
  rewrite H. repeat split.
Qed.

(** When the loop of [update] ends, the timestep is the one it started with
    and the accumulator is below it. *)
Lemma updateLoop_exit (K : PhysicsConstantsT) (fuel : nat) :
  forall (W W' : World) (n : nat),
    PhysicsManager.updateLoop K fuel W = Some (W', n) ->
    _fixedTimestep W' = _fixedTimestep W /\ _accumulator W' < _fixedTimestep W'.
Proof.
  induction fuel as [| fuel IH]; intros W W' n; simpl; [discriminate |].
  destruct (Rgeb (_accumulator W) (_fixedTimestep W)) eqn:Hge.
  - destruct (PhysicsManager.updateLoop K fuel _) as [[W2 k] |] eqn:Hloop; [| discriminate].
    intros Heq; injection Heq as <- _.
    apply IH in Hloop. destruct Hloop as [Hft Hacc]. split; [| exact Hacc].
    rewrite Hft. simpl. apply fixedUpdate_scalars.
  - intros Heq; injection Heq as <- _. split; [reflexivity |].
    unfold Rgeb in Hge. now apply Rleb_false in Hge.
Qed.

Lemma with_accumulator_same (W : World) (a : R) :
  a = _accumulator W -> with_accumulator a W = W.
Proof. intros ->. now destruct W. Qed.

(** With the accumulator below a positive timestep, [update(0)] returns the
    world it was called on without a sub-step. *)
Lemma update_zero_below_timestep (K : PhysicsConstantsT) (fuel : nat) (W : World) :
  0 < _fixedTimestep W -> _accumulator W < _fixedTimestep W ->
  PhysicsManager.update K (S fuel) 0 W = Some (W, O).
Proof.
  intros Hft Hacc. unfold PhysicsManager.update. cbv zeta.
  rewrite (with_accumulator_same W) by lra.
  unfold Rgtb. rewrite (proj2 (Rltb_false _ _)) by lra.
  simpl. unfold Rgeb. rewrite (proj2 (Rleb_false _ _)) by lra. reflexivity.
Qed.

Lemma reachable_invariant (K : PhysicsConstantsT) (W : World) :
  0 < FIXED_TIMESTEP K -> reachable K W ->
  _fixedTimestep W = FIXED_TIMESTEP K /\ _accumulator W < _fixedTimestep W.
Proof.
  intros HK Hr. induction Hr as [W Hacc Hft | W fuel dt W' n Hr [IHft IHacc] Hup].
  - split; [exact Hft | lra].
  - unfold PhysicsManager.update in Hup. cbv zeta in Hup.
    apply updateLoop_exit in Hup. destruct Hup as [Hft Hacc]. split; [| exact Hacc].
    rewrite Hft, <- IHft. destruct (Rgtb _ _); reflexivity.
Qed.

(** C4: in every world reached by calls of [update] from the start,
    [update(0)] returns, runs [fixedUpdate] zero times (no integration, no
    detection, no event dispatch) and leaves the world as it was, the log of
    callbacks included. *)
Theorem update_zero_is_idle (W : World) (fuel : nat) :
  reachable PhysicsConstants W ->
  PhysicsManager.update PhysicsConstants (S fuel) 0 W = Some (W, O).
Proof.
  intros Hr.
  assert (HK : 0 < FIXED_TIMESTEP PhysicsConstants) by (simpl; lra).
  destruct (reachable_invariant PhysicsConstants W HK Hr) as [Hft Hacc].
  apply update_zero_below_timestep; [| exact Hacc]. now rewrite Hft.
Qed.

Lemma boxesWorld_frame :
  PhysicsManager.update PhysicsConstants 1 (1 / 100) boxesWorld
  = Some (boxesWorldAfterFrame, O).
Proof.
  unfold PhysicsManager.update. cbn -[Rgtb Rgeb].
  unfold Rgtb. rewrite (proj2 (Rltb_false _ _)) by lra. cbn -[Rgeb].
  unfold Rgeb. rewrite (proj2 (Rleb_false _ _)) by lra. reflexivity.
Qed.

Lemma boxesWorldAfterFrame_reachable : reachable PhysicsConstants boxesWorldAfterFrame.
Proof.
  apply (reachable_update PhysicsConstants boxesWorld 1 (1 / 100) _ O).
  - now apply reachable_start.
  - exact boxesWorld_frame.
Qed.

(** A witness of [update_zero_is_idle]: [boxesWorld] after one frame of 0.01
    seconds. *)
Lemma update_zero_is_idle_witness :
  PhysicsManager.update PhysicsConstants 1 0 boxesWorldAfterFrame
  = Some (boxesWorldAfterFrame, O).
Proof.
  exact (update_zero_is_idle boxesWorldAfterFrame 0 boxesWorldAfterFrame_reachable).
Defined.

(** Under a positive timestep the loop of [update] ends: an accumulator of at
    most [k] timesteps needs [k] sub-steps at most. *)
Lemma updateLoop_terminates (K : PhysicsConstantsT) (k : nat) :
  forall W : World,
    0 < _fixedTimestep W ->
    _accumulator W <= INR k * _fixedTimestep W ->
    exists W' n, PhysicsManager.updateLoop K (S k) W = Some (W', n) /\ (n <= k)%nat.
Proof.
  induction k as [| k IH]; intros W Hft Hacc.
  - simpl in *. unfold Rgeb. rewrite (proj2 (Rleb_false _ _)) by lra.
    exists W, O. split; [reflexivity | lia].
  - change (PhysicsManager.updateLoop K (S (S k)) W)
      with (if Rgeb (_accumulator W) (_fixedTimestep W) then
              let W1 := PhysicsManager.fixedUpdate K (_fixedTimestep W) W in
              match PhysicsManager.updateLoop K (S k)
                      (with_accumulator (_accumulator W1 - _fixedTimestep W1) W1) with
              | Some (W2, j) => Some (W2, S j)
              | None => None
              end
            else Some (W, O)).
    destruct (Rgeb _ _).
    + cbv zeta.
      destruct (fixedUpdate_scalars K (_fixedTimestep W) W) as (_ & Hft1 & Hacc1).
      rewrite Hft1, Hacc1.
      destruct (IH (with_accumulator (_accumulator W - _fixedTimestep W)
                      (PhysicsManager.fixedUpdate K (_fixedTimestep W) W)))
        as (W' & n & Hloop & Hn).
      * simpl. now rewrite Hft1.
      * simpl. rewrite Hft1. rewrite S_INR in Hacc. lra.
      * rewrite Hloop. exists W', (S n). split; [reflexivity | lia].
    + exists W, O. split; [reflexivity | lia].
Qed.

(** [update] returns for every frame time when the timestep is positive, after
    five sub-steps at most. *)
Lemma update_terminates (K : PhysicsConstantsT) (dt : R) (W : World) :
  0 < _fixedTimestep W ->
  exists W' n, PhysicsManager.update K 6 dt W = Some (W', n) /\ (n <= 5)%nat.
Proof.
  intros Hft. unfold PhysicsManager.update. cbv zeta.
  apply updateLoop_terminates.
  - destruct (Rgtb _ _); exact Hft.
  - assert (H5 : INR 5 = 5) by (simpl; lra). rewrite H5.
    destruct (Rgtb _ _) eqn:Hgt; simpl.
    + lra.
    + unfold Rgtb in Hgt. apply Rltb_false in Hgt. simpl in Hgt. lra.
Qed.

(** ** The gravity property of the manager *)

Lemma with_gravity_as_manager (g : Vector2.t) (W : World) :
  with_gravity g W = with_manager g (_fixedTimestep W) (_accumulator W) W.
Proof. reflexivity. Qed.

Lemma fixedUpdate_with_gravity (K : PhysicsConstantsT) (dt : R) (g : Vector2.t) (W : World) :
  PhysicsManager.fixedUpdate K dt (with_gravity g W)
  = with_gravity g (PhysicsManager.fixedUpdate K dt W).
Proof.
  rewrite with_gravity_as_manager, frame_fixedUpdate, with_gravity_as_manager.
  destruct (fixedUpdate_scalars K dt W) as (_ & -> & ->). reflexivity.
Qed.

Lemma updateLoop_with_gravity (K : PhysicsConstantsT) (g : Vector2.t) (fuel : nat) :
  forall W : World,
    PhysicsManager.updateLoop K fuel (with_gravity g W)
    = option_map (lift_gravity g) (PhysicsManager.updateLoop K fuel W).
Proof.
  induction fuel as [| fuel IH]; intros W; simpl; [reflexivity |].
  destruct (Rgeb (_accumulator W) (_fixedTimestep W)); [| reflexivity].
  rewrite fixedUpdate_with_gravity.
  set (W1 := PhysicsManager.fixedUpdate K (_fixedTimestep W) W).
  change (with_accumulator
            (_accumulator (with_gravity g W1) - _fixedTimestep (with_gravity g W1))
            (with_gravity g W1))
    with (with_gravity g (with_accumulator (_accumulator W1 - _fixedTimestep W1) W1)).
  rewrite IH. destruct (PhysicsManager.updateLoop K fuel _) as [[W2 k] |]; reflexivity.
Qed.

Lemma update_with_gravity (K : PhysicsConstantsT) (g : Vector2.t) (fuel : nat)
  (dt : R) (W : World) :
  PhysicsManager.update K fuel dt (PhysicsManager.set_gravity g W)
  = option_map (lift_gravity g) (PhysicsManager.update K fuel dt W).
Proof.
  unfold PhysicsManager.update, PhysicsManager.set_gravity. cbv zeta.
  rewrite <- updateLoop_with_gravity. f_equal.
  change (_fixedTimestep (with_accumulator (_accumulator (with_gravity g W) + dt)
                            (with_gravity g W)))
    with (_fixedTimestep (with_accumulator (_accumulator W + dt) W)).
  change (_accumulator (with_accumulator (_accumulator (with_gravity g W) + dt)
                          (with_gravity g W)))
    with (_accumulator (with_accumulator (_accumulator W + dt) W)).
  destruct (Rgtb _ _); reflexivity.
Qed.

(** C10: the gravity property of the manager is not read by a step.  A run
    over any frame times from a world with another value of the property ends
    exactly when the run from the original world ends, in the same world but
    for that property: the same bodies, with their velocities, and the same
    game objects, with their positions. *)
Theorem gravity_property_not_read (K : PhysicsConstantsT) (fuel : nat) (frames : list R)
  (g : Vector2.t) (W : World) :
  run K fuel frames (PhysicsManager.set_gravity g W)
  = option_map (PhysicsManager.set_gravity g) (run K fuel frames W).
Proof.
  revert W. induction frames as [| dt frames IH]; intros W; simpl; [reflexivity |].
  rewrite update_with_gravity.
  destruct (PhysicsManager.update K fuel dt W) as [[W1 n] |]; simpl; [| reflexivity].
  apply IH.
Qed.

(** The bodies and game objects of the two runs of [gravity_property_not_read]. *)
Lemma gravity_property_same_bodies (K : PhysicsConstantsT) (fuel : nat) (frames : list R)
  (g : Vector2.t) (W W1 : World) :
  run K fuel frames W = Some W1 ->
  exists W2, run K fuel frames (PhysicsManager.set_gravity g W) = Some W2
             /\ bodies W2 = bodies W1 /\ objects W2 = objects W1.
Proof.
  intros Hrun. exists (PhysicsManager.set_gravity g W1).
  pose proof (update_with_gravity K g) as Hup.
  revert W Hrun. induction frames as [| dt frames IH]; intros W; simpl.
  - intros Heq; injection Heq as <-. repeat split.
  - rewrite Hup. destruct (PhysicsManager.update K fuel dt W) as [[W' n] |]; simpl;
      [apply IH | discriminate].
Qed.

(** ** Trigger pairs *)







(** The events that the dispatch logs for the pair of [triggerWorld]: a
    trigger Enter on each side. *)
Lemma triggerWorld_events :
  events (PhysicsManager.dispatchPair triggerWorld triggerEntry)
  = [onTriggerEnter 1 2; onTriggerEnter 2 1].
Proof. reflexivity. Qed.

(** ** The velocity iteration count *)

(** A sub-step under the table of constants with any other value of
    [VELOCITY_ITERATIONS] gives the same world, and so does [update]: no
    function of the sub-step reads the constant. *)
Lemma velocity_iterations_not_read (K : PhysicsConstantsT) (n : nat) (W : World) :
  (forall dt,
     PhysicsManager.fixedUpdate (with_VELOCITY_ITERATIONS n K) dt W
     = PhysicsManager.fixedUpdate K dt W)
  /\ (forall fuel dt,
        PhysicsManager.update (with_VELOCITY_ITERATIONS n K) fuel dt W
        = PhysicsManager.update K fuel dt W).
Proof.
  destruct K as [gr fts mv sth sti cp cs pit vit].
  split; intros; reflexivity.
Qed.

(** ** Raycast *)

Lemma normalize_x_unit : Vector2.normalize (Vector2.mk 1 0) = Vector2.mk 1 0.
Proof.
  rewrite normalize_nonzero; rewrite length_x_axis by lra; [| lra].
  simpl. apply vec_eq; lra.
Qed.

Lemma rayWorld_raycastAABB :
  option_map hit_distance
    (fst (Raycast.raycastCollider (Vector2.mk 0 0) (Vector2.mk 1 0) 1 8 rayWorld))
  = Some 8.
Proof.
  unfold Raycast.raycastCollider, Raycast.raycastAABB, Raycast.slabAxis,
    Collider_getBounds, Collider_updateBounds, Collider_computeBounds,
    Collider_getWorldPosition.
  Reval. f_equal; lra.
Qed.

Ltac eval_raycast :=
  unfold PhysicsManager.raycast, PhysicsManager.raycastCollect, PhysicsManager.raycastStep,
    Raycast.raycastCollider, Raycast.raycastAABB, Raycast.slabAxis,
    Collider_getBounds, Collider_updateBounds, Collider_computeBounds,
    Collider_getWorldPosition;
  rewrite ?normalize_x_unit; Reval.

(** C7, at the failing input: the ray from (0, 0) along (1, 0) meets the box
    of [rayWorld] at distance 8.  With [maxDistance = 8] the intersection test
    of the box returns that hit and [raycastAll] collects it, but [raycast]
    returns null: its loop keeps a hit only when the distance is strictly
    below the closest distance so far, which starts at [maxDistance]. *)
Theorem raycast_drops_hit_at_maxDistance :
  option_map hit_distance
    (fst (Raycast.raycastCollider (Vector2.mk 0 0) (Vector2.mk 1 0) 1 8 rayWorld))
  = Some 8
  /\ map hit_distance
       (fst (PhysicsManager.raycastCollect (Vector2.mk 0 0) (Vector2.mk 1 0) 8 rayWorld))
     = [8]
  /\ fst (PhysicsManager.raycast (Vector2.mk 0 0) (Vector2.mk 1 0) 8 rayWorld) = None.
Proof.
  split; [exact rayWorld_raycastAABB | split].
  - eval_raycast. f_equal; lra.
  - eval_raycast. reflexivity.
Qed.

(** The loop of [raycast] keeps, with a hit, a closest distance that is the
    distance of the hit and strictly below [maxDistance]. *)
Lemma raycastStep_keeps (origin dir : Vector2.t) (maxDistance : R) (c : nat)
  (h h' : option RaycastHit) (d d' : R) (W W' : World) :
  PhysicsManager.raycastStep origin dir maxDistance (h, d, W) c = (h', d', W') ->
  d <= maxDistance ->
  (forall hit, h = Some hit -> hit_distance hit = d /\ d < maxDistance) ->
  d' <= maxDistance
  /\ (forall hit, h' = Some hit -> hit_distance hit = d' /\ d' < maxDistance).
Proof.
  unfold PhysicsManager.raycastStep.
  destruct (negb (Collider.enabled (colliders W c))).
  - intros Heq; injection Heq as <- <- _. now split.
  - destruct (Raycast.raycastCollider origin dir c maxDistance W) as [[hit1 |] W1].
    + destruct (Rltb (hit_distance hit1) d) eqn:Hlt.
      * apply Rltb_true in Hlt. intros Heq; injection Heq as <- <- _. intros Hd Hh.
        split; [lra |]. intros hit Hs; injection Hs as <-. split; [reflexivity | lra].
      * intros Heq; injection Heq as <- <- _. now split.
    + intros Heq; injection Heq as <- <- _. now split.
Qed.

Lemma raycastStep_invariant (origin dir : Vector2.t) (maxDistance : R) (l : list nat) :
  forall (h : option RaycastHit) (d : R) (W : World),
    d <= maxDistance ->
    (forall hit, h = Some hit -> hit_distance hit = d /\ d < maxDistance) ->
    forall h' d' W',
      fold_left (PhysicsManager.raycastStep origin dir maxDistance) l (h, d, W) = (h', d', W') ->
      forall hit, h' = Some hit -> hit_distance hit < maxDistance.
Proof.
  induction l as [| c l IH]; intros h d W Hd Hh h' d' W'; cbn [fold_left].
  - intros Heq; injection Heq as <- <- _. intros hit Hhit.
    destruct (Hh hit Hhit) as [-> Hlt]. exact Hlt.
  - destruct (PhysicsManager.raycastStep origin dir maxDistance (h, d, W) c)
      as [[h1 d1] W1] eqn:Hstep.
    destruct (raycastStep_keeps _ _ _ _ _ _ _ _ _ _ Hstep Hd Hh) as [Hd1 Hh1].
    now apply IH.
Qed.

(** A hit returned by [raycast] lies strictly within [maxDistance]. *)
Lemma raycast_hit_strictly_within (origin direction : Vector2.t) (maxDistance : R)
  (W W' : World) (hit : RaycastHit) :
  PhysicsManager.raycast origin direction maxDistance W = (Some hit, W') ->
  hit_distance hit < maxDistance.
Proof.
  unfold PhysicsManager.raycast. cbv zeta.
  destruct (fold_left _ _ _) as [[h d] W1] eqn:Hfold.
  intros Heq; injection Heq as -> _.
  eapply raycastStep_invariant; [| | exact Hfold | reflexivity].
  - apply Rle_refl.
  - intros hit0 Hnone. discriminate.
Qed.

Lemma rayWorld_raycast_9 :
  option_map hit_distance
    (fst (PhysicsManager.raycast (Vector2.mk 0 0) (Vector2.mk 1 0) 9 rayWorld))
  = Some 8.
Proof. eval_raycast. f_equal; lra. Qed.

(** A witness of [raycast_hit_strictly_within]: the box of [rayWorld] at
    distance 8, with [maxDistance = 9]. *)
Lemma raycast_hit_strictly_within_witness :
  exists hit W',
    PhysicsManager.raycast (Vector2.mk 0 0) (Vector2.mk 1 0) 9 rayWorld = (Some hit, W')
    /\ hit_distance hit < 9.
Proof.
  pose proof rayWorld_raycast_9 as H9.
  destruct (PhysicsManager.raycast (Vector2.mk 0 0) (Vector2.mk 1 0) 9 rayWorld)
    as [[hit |] W'] eqn:Hr; [| discriminate].
  exists hit, W'. split; [reflexivity |].
  exact (raycast_hit_strictly_within _ _ _ _ _ _ Hr).
Defined.

(** A witness of [update_terminates]: a frame of a tenth of a second on
    [boxesWorld], whose timestep is a sixtieth. *)
Lemma update_terminates_witness :
  exists W' n,
    PhysicsManager.update PhysicsConstants 6 (1 / 10) boxesWorld = Some (W', n)
    /\ (n <= 5)%nat.
Proof.
  apply (update_terminates PhysicsConstants (1 / 10) boxesWorld). cbn. lra.
Defined.

(** The contact point of [testAABB]: its x coordinate is the midpoint of the
    overlap in x, its y coordinate is zero. *)
Lemma testAABB_contact_point (a b : nat) (W W' : World) (info : CollisionInfo.t) :
  CollisionDetection.testAABB a b W = (Some info, W') ->
  let boundsA := fst (Collider_getBounds a W) in
  let boundsB := fst (Collider_getBounds b (snd (Collider_getBounds a W))) in
  map cp_point (CollisionInfo.contacts info)
  = [Vector2.mk (Vector2.x (overlapMidpoint boundsA boundsB)) 0].
Proof.
  unfold CollisionDetection.testAABB.
  destruct (Collider_getBounds a W) as [boundsA W1]. cbn [fst snd].
  destruct (Collider_getBounds b W1) as [boundsB W2]. cbn [fst snd].
  destruct (_ || _ || _ || _); [discriminate |].
  destruct (Rltb (Rmin _ _) (Rmin _ _)); intros Heq; injection Heq as <- _;
    cbn; f_equal; apply vec_eq; cbn; lra.
Qed.

(** A witness of [testAABB_contact_point]: the boxes of [boxesWorld]. *)
Lemma testAABB_contact_point_witness :
  exists info W',
    CollisionDetection.testAABB 1 2 boxesWorld = (Some info, W')
    /\ map cp_point (CollisionInfo.contacts info)
       = [Vector2.mk
            (Vector2.x
               (overlapMidpoint
                  (fst (Collider_getBounds 1 boxesWorld))
                  (fst (Collider_getBounds 2 (snd (Collider_getBounds 1 boxesWorld))))))
            0].
Proof.
  pose proof boxesWorld_testAABB_contact as H.
  destruct (CollisionDetection.testAABB 1 2 boxesWorld) as [[info |] W'] eqn:Ht;
    [| discriminate].
  exists info, W'. split; [reflexivity |].
  exact (testAABB_contact_point 1 2 boxesWorld W' info Ht).
Defined.

(** Every write through the setters of a material stores friction and
    restitution in the unit interval, and a density of at least 0.001. *)
Lemma material_setters_clamp (v : R) (m : PhysicsMaterial.t) :
  0 <= PhysicsMaterial.friction (PhysicsMaterial.set_friction v m) <= 1
  /\ 0 <= PhysicsMaterial.restitution (PhysicsMaterial.set_restitution v m) <= 1
  /\ 1 / 1000 <= PhysicsMaterial.density (PhysicsMaterial.set_density v m).
Proof.
  split; [apply set_friction_range | split; [apply set_restitution_range |]].
  unfold PhysicsMaterial.density, PhysicsMaterial.set_density. simpl. apply Rmax_l.
Qed.

(** ** The solver phases over trigger pairs only *)

Lemma same_bodies_refl (W : World) : same_bodies W W.
Proof. repeat split. Qed.

Lemma updateAllBounds_same_bodies (W : World) :
  same_bodies W (PhysicsManager.updateAllBounds W).
Proof.
  unfold PhysicsManager.updateAllBounds.
  generalize (_colliders W). intros l.
  assert (H : forall W0, same_bodies W W0 ->
                same_bodies W
                  (fold_left
                     (fun W1 c =>
                        if Collider.enabled (colliders W1 c)
                        then Collider_updateBounds c W1 else W1) l W0)).
  { induction l as [| c l IH]; intros W0 H0; simpl; [exact H0 |].
    apply IH. destruct (Collider.enabled (colliders W0 c)); [| exact H0].
    destruct H0 as (Ho & Hb & Ht). repeat split; try assumption.
    intros c0. rewrite <- Ht. unfold Collider_updateBounds. simpl. unfold upd.
    destruct (Nat.eqb c0 c) eqn:E; [| reflexivity].
    apply Nat.eqb_eq in E. now subst. }
  apply H, same_bodies_refl.
Qed.

Lemma all_trigger_pairs_same_bodies (W W' : World) (cc : list (PairKey * CollisionInfo.t)) :
  same_bodies W W' -> all_trigger_pairs W cc -> all_trigger_pairs W' cc.
Proof.
  intros (_ & _ & Ht) Hall entry Hin. rewrite !Ht. now apply Hall.
Qed.

Lemma solvePairs_trigger_only (f : World -> PairKey * CollisionInfo.t -> World)
  (cc : list (PairKey * CollisionInfo.t)) (W : World) :
  (forall entry, In entry cc -> f W entry = W) -> fold_left f cc W = W.
Proof.
  induction cc as [| e cc IH]; intros Hf; simpl; [reflexivity |].
  rewrite (Hf e (or_introl eq_refl)). apply IH. intros entry Hin. apply Hf. now right.
Qed.

Lemma trigger_positionSolvePair (K : PhysicsConstantsT) (W : World)
  (cc : list (PairKey * CollisionInfo.t)) :
  all_trigger_pairs W cc -> fold_left (PhysicsManager.positionSolvePair K) cc W = W.
Proof.
  intros Hall. apply solvePairs_trigger_only. intros entry Hin.
  unfold PhysicsManager.positionSolvePair. cbv zeta.
  rewrite <- negb_orb, (Hall entry Hin). reflexivity.
Qed.

Lemma trigger_velocitySolvePair (K : PhysicsConstantsT) (W : World)
  (cc : list (PairKey * CollisionInfo.t)) :
  all_trigger_pairs W cc -> fold_left (PhysicsManager.velocitySolvePair K) cc W = W.
Proof.
  intros Hall. apply solvePairs_trigger_only. intros entry Hin.
  unfold PhysicsManager.velocitySolvePair. cbv zeta.
  rewrite <- negb_orb, (Hall entry Hin). reflexivity.
Qed.

Lemma trigger_positionSolver (K : PhysicsConstantsT) (n : nat)
  (cc : list (PairKey * CollisionInfo.t)) :
  forall W W0 : World,
    same_bodies W W0 -> all_trigger_pairs W cc ->
    same_bodies W (PhysicsManager.positionSolver K n cc W0).
Proof.
  induction n as [| n IH]; intros W W0 Hs Hall; simpl; [exact Hs |].
  assert (Hs1 : same_bodies W (PhysicsManager.updateAllBounds W0)).
  { destruct Hs as (Ho & Hb & Ht).
    destruct (updateAllBounds_same_bodies W0) as (Ho1 & Hb1 & Ht1).
    repeat split; [congruence | congruence |]. intros c. now rewrite Ht1. }
  rewrite trigger_positionSolvePair by (eapply all_trigger_pairs_same_bodies; eassumption).
  now apply IH.
Qed.

(** When every current collision has a trigger on one side, the position
    solver and the velocity solver together leave every game object, with its
    position, and every body, with its velocity, as they were. *)
Lemma trigger_only_solver_phases (K : PhysicsConstantsT) (n : nat)
  (cc : list (PairKey * CollisionInfo.t)) (W : World) :
  all_trigger_pairs W cc ->
  let W' :=
    fold_left (PhysicsManager.velocitySolvePair K) cc
      (PhysicsManager.positionSolver K n cc W) in
  objects W' = objects W /\ bodies W' = bodies W.
Proof.
  intros Hall W'.
  pose proof (trigger_positionSolver K n cc W W (same_bodies_refl W) Hall) as Hs.
  unfold W'. rewrite trigger_velocitySolvePair
    by (eapply all_trigger_pairs_same_bodies; eassumption).
  destruct Hs as (Ho & Hb & _). now split.
Qed.

Lemma triggerWorld_all_trigger_pairs : all_trigger_pairs triggerWorld [triggerEntry].
Proof. intros entry [<- | []]. reflexivity. Qed.

(** A witness of [trigger_only_solver_phases]: the pair of [triggerWorld]
    under the four position iterations of the engine. *)
Lemma trigger_only_solver_phases_witness :
  objects
    (fold_left (PhysicsManager.velocitySolvePair PhysicsConstants) [triggerEntry]
       (PhysicsManager.positionSolver PhysicsConstants 4 [triggerEntry] triggerWorld))
  = objects triggerWorld
  /\ bodies
       (fold_left (PhysicsManager.velocitySolvePair PhysicsConstants) [triggerEntry]
          (PhysicsManager.positionSolver PhysicsConstants 4 [triggerEntry] triggerWorld))
     = bodies triggerWorld.
Proof.
  exact (trigger_only_solver_phases PhysicsConstants 4 [triggerEntry] triggerWorld
           triggerWorld_all_trigger_pairs).
Defined.

(** ** One entry per pair *)

Lemma PairKey_eqb_eq (k1 k2 : PairKey) : PairKey_eqb k1 k2 = true <-> k1 = k2.
Proof.
  destruct k1 as [a1 b1], k2 as [a2 b2]. unfold PairKey_eqb. simpl.
  rewrite andb_true_iff, !Nat.eqb_eq. split; [intros [-> ->]; reflexivity |].
  intros Heq; injection Heq as -> ->. now split.
Qed.

Lemma map_set_keys (m : list (PairKey * CollisionInfo.t)) (k : PairKey)
  (v : CollisionInfo.t) :
  map fst (map_set m k v) = if existsb (PairKey_eqb k) (map fst m) then map fst m
                            else map fst m ++ [k].
Proof.
  induction m as [| [k' v'] m IH]; simpl; [reflexivity |].
  destruct (PairKey_eqb k' k) eqn:E.
  - apply PairKey_eqb_eq in E. subst k'.
    rewrite (proj2 (PairKey_eqb_eq k k) eq_refl). reflexivity.
  - assert (E' : PairKey_eqb k k' = false).
    { destruct (PairKey_eqb k k') eqn:E2; [| reflexivity].
      apply PairKey_eqb_eq in E2. subst. rewrite (proj2 (PairKey_eqb_eq k' k') eq_refl) in E.
      discriminate. }
    rewrite E'. simpl. rewrite IH. destruct (existsb _ _); reflexivity.
Qed.

Lemma map_set_NoDup (m : list (PairKey * CollisionInfo.t)) (k : PairKey)
  (v : CollisionInfo.t) :
  NoDup (map fst m) -> NoDup (map fst (map_set m k v)).
Proof.
  intros Hnd. rewrite map_set_keys. destruct (existsb _ _) eqn:E; [exact Hnd |].
  apply NoDup_app; [exact Hnd | constructor; [intros [] | constructor] |].
  intros x Hin [Hk | []]. subst x.
  assert (Hex : existsb (PairKey_eqb k) (map fst m) = true).
  { apply existsb_exists. exists k. split; [exact Hin | now apply PairKey_eqb_eq]. }
  congruence.
Qed.

(** The map of current collisions that the narrow phase builds has one entry
    per key. *)
Lemma narrowPhase_one_entry_per_pair (pairs : list (nat * nat)) (W : World) :
  NoDup (map fst (fst (fold_left PhysicsManager.narrowPhasePair pairs ([], W)))).
Proof.
  assert (H : forall cc W0, NoDup (map fst cc) ->
                NoDup (map fst (fst (fold_left PhysicsManager.narrowPhasePair pairs (cc, W0))))).
  { induction pairs as [| [a b] pairs IH]; intros cc W0 Hnd; simpl; [exact Hnd |].
    destruct (Collider_getBounds a W0) as [ba W1].
    destruct (Collider_getBounds b W1) as [bb W2].
    destruct (negb _); [now apply IH |].
    destruct (CollisionDetection.detect a b W2) as [[info |] W3]; [| now apply IH].
    apply IH. now apply map_set_NoDup. }
  apply H. constructor.
Qed.

(** ** The velocity pass *)

(** The record of calls does not change the world. *)
Lemma velocitySolvePairCalls_world (K : PhysicsConstantsT) (W : World)
  (calls : list PairKey) (entry : PairKey * CollisionInfo.t) :
  fst (PhysicsManager.velocitySolvePairCalls K (W, calls) entry)
  = PhysicsManager.velocitySolvePair K W entry.
Proof.
  unfold PhysicsManager.velocitySolvePairCalls, PhysicsManager.velocitySolvePair.
  destruct (negb _ && negb _); [| reflexivity].
  destruct (CollisionDetection.detect _ _ W) as [[finalInfo |] W1]; reflexivity.
Qed.

(** One step of the pass records the key of its entry when the entry is
    resolved, and nothing otherwise. *)
Lemma velocitySolvePairCalls_calls (K : PhysicsConstantsT) (W : World)
  (calls : list PairKey) (entry : PairKey * CollisionInfo.t) :
  snd (PhysicsManager.velocitySolvePairCalls K (W, calls) entry)
  = calls ++ (if redetected W entry then [fst entry] else []).
Proof.
  unfold PhysicsManager.velocitySolvePairCalls, redetected.
  destruct (negb _ && negb _); cbn [andb]; [| now rewrite app_nil_r].
  destruct (CollisionDetection.detect _ _ W) as [[finalInfo |] W1]; cbn [fst snd];
    [reflexivity | now rewrite app_nil_r].
Qed.

Lemma velocitySolvePairCalls_eq (K : PhysicsConstantsT) (W : World)
  (calls : list PairKey) (entry : PairKey * CollisionInfo.t) :
  PhysicsManager.velocitySolvePairCalls K (W, calls) entry
  = (PhysicsManager.velocitySolvePair K W entry,
     calls ++ (if redetected W entry then [fst entry] else [])).
Proof.
  rewrite <- velocitySolvePairCalls_world with (calls := calls).
  rewrite <- velocitySolvePairCalls_calls with (K := K).
  now destruct (PhysicsManager.velocitySolvePairCalls K (W, calls) entry).
Qed.

(** The pass over a map of collisions: the world is that of the velocity
    solver, and the record holds the resolved pairs of the pass. *)
Lemma velocityPass_eq (K : PhysicsConstantsT) (cc : list (PairKey * CollisionInfo.t)) :
  forall (W : World) (calls : list PairKey),
    fold_left (PhysicsManager.velocitySolvePairCalls K) cc (W, calls)
    = (fold_left (PhysicsManager.velocitySolvePair K) cc W, calls ++ resolvedPairs K cc W).
Proof.
  induction cc as [| entry cc IH]; intros W calls; cbn [fold_left resolvedPairs].
  - now rewrite app_nil_r.
  - rewrite velocitySolvePairCalls_eq, IH, app_assoc. reflexivity.
Qed.

(** The resolved pairs of a pass are keys of the map, each at most as often
    as the map has it. *)
Lemma resolvedPairs_incl (K : PhysicsConstantsT) (cc : list (PairKey * CollisionInfo.t)) :
  forall W, incl (resolvedPairs K cc W) (map fst cc).
Proof.
  induction cc as [| entry cc IH]; intros W k; cbn [resolvedPairs map].
  - intros [].
  - intros Hin. apply in_app_or in Hin. destruct Hin as [Hin | Hin].
    + destruct (redetected W entry); [| destruct Hin].
      destruct Hin as [<- | []]. now left.
    + right. exact (IH _ _ Hin).
Qed.

Lemma resolvedPairs_NoDup (K : PhysicsConstantsT) (cc : list (PairKey * CollisionInfo.t)) :
  forall W, NoDup (map fst cc) -> NoDup (resolvedPairs K cc W).
Proof.
  induction cc as [| entry cc IH]; intros W Hnd; cbn [resolvedPairs map] in *.
  - constructor.
  - inversion Hnd as [| k l Hnotin Hnd']; subst.
    destruct (redetected W entry); cbn [app]; [| now apply IH].
    constructor; [| now apply IH].
    intros Hin. apply Hnotin. exact (resolvedPairs_incl _ _ _ _ Hin).
Qed.

(** The map of current collisions of a sub-step has one entry per key. *)
Lemma solverInput_NoDup (K : PhysicsConstantsT) (dt : R) (W : World) :
  NoDup (map fst (fst (PhysicsManager.solverInput K dt W))).
Proof.
  unfold PhysicsManager.solverInput. cbv zeta.
  match goal with
  | |- context [fold_left PhysicsManager.narrowPhasePair ?pairs ([], ?W3)] =>
      pose proof (narrowPhase_one_entry_per_pair pairs W3) as Hnd;
      destruct (fold_left PhysicsManager.narrowPhasePair pairs ([], W3)) as [cc W5]
  end.
  exact Hnd.
Qed.

(** [fixedUpdate] in terms of the input of the velocity solver. *)
Lemma fixedUpdate_solverInput (K : PhysicsConstantsT) (dt : R) (W : World) :
  PhysicsManager.fixedUpdate K dt W
  = let cc := fst (PhysicsManager.solverInput K dt W) in
    let W6 := snd (PhysicsManager.solverInput K dt W) in
    with_collisionPairs cc
      (PhysicsManager.dispatchCollisionEvents cc
         (fold_left (PhysicsManager.velocitySolvePair K) cc W6)).
Proof.
  unfold PhysicsManager.fixedUpdate, PhysicsManager.solverInput. cbv zeta.
  match goal with
  | |- context [fold_left PhysicsManager.narrowPhasePair ?pairs ([], ?W3)] =>
      destruct (fold_left PhysicsManager.narrowPhasePair pairs ([], W3)) as [cc W5]
  end.
  reflexivity.
Qed.

Lemma fixedUpdateCalls_eq (K : PhysicsConstantsT) (dt : R) (W : World) :
  PhysicsManager.fixedUpdateCalls K dt W
  = (PhysicsManager.fixedUpdate K dt W,
     resolvedPairs K (fst (PhysicsManager.solverInput K dt W))
       (snd (PhysicsManager.solverInput K dt W))).
Proof.
  rewrite fixedUpdate_solverInput. unfold PhysicsManager.fixedUpdateCalls.
  destruct (PhysicsManager.solverInput K dt W) as [cc W6].
  rewrite velocityPass_eq. reflexivity.
Qed.

Lemma fixedUpdate_collisionPairs (K : PhysicsConstantsT) (dt : R) (W : World) :
  _collisionPairs (PhysicsManager.fixedUpdate K dt W)
  = fst (PhysicsManager.solverInput K dt W).
Proof. rewrite fixedUpdate_solverInput. reflexivity. Qed.

Lemma fixedUpdateCalls_constants (K : PhysicsConstantsT) (n : nat) (dt : R) (W : World) :
  PhysicsManager.fixedUpdateCalls (with_VELOCITY_ITERATIONS n K) dt W
  = PhysicsManager.fixedUpdateCalls K dt W.
Proof. destruct K as [gr fts mv sth sti cp cs pit vit]. reflexivity. Qed.

Lemma run_constants (K : PhysicsConstantsT) (n : nat) (fuel : nat) (frames : list R) :
  forall W, run (with_VELOCITY_ITERATIONS n K) fuel frames W = run K fuel frames W.
Proof.
  induction frames as [| deltaTime frames IH]; intros W; cbn [run]; [reflexivity |].
  rewrite (proj2 (velocity_iterations_not_read K n W)).
  destruct (PhysicsManager.update K fuel deltaTime W) as [[W1 k] |]; [apply IH | reflexivity].
Qed.

(** C9 as the code has it.  A sub-step and [update] give the same world under
    any other value of [VELOCITY_ITERATIONS], so does every run of frames,
    and the calls of the impulse and friction pass are the same.  The world
    of [fixedUpdateCalls] is the world of [fixedUpdate], and its calls are
    one pass over the entries that the narrow phase has recorded, in the
    order of the map: an entry gets one call when neither collider is a
    trigger and its re-detection in the world of its turn returns a manifold,
    and no call otherwise.  No pair gets a second call, and every call is for
    a recorded pair. *)
Theorem velocity_pass_once_per_redetected_pair
  (K : PhysicsConstantsT) (n : nat) (dt : R) (W : World) :
  let cc := fst (PhysicsManager.solverInput K dt W) in
  let W6 := snd (PhysicsManager.solverInput K dt W) in
  let calls := snd (PhysicsManager.fixedUpdateCalls K dt W) in
  (PhysicsManager.fixedUpdate (with_VELOCITY_ITERATIONS n K) dt W
   = PhysicsManager.fixedUpdate K dt W
   /\ (forall fuel deltaTime,
         PhysicsManager.update (with_VELOCITY_ITERATIONS n K) fuel deltaTime W
         = PhysicsManager.update K fuel deltaTime W)
   /\ (forall fuel frames,
         run (with_VELOCITY_ITERATIONS n K) fuel frames W = run K fuel frames W)
   /\ PhysicsManager.fixedUpdateCalls (with_VELOCITY_ITERATIONS n K) dt W
      = PhysicsManager.fixedUpdateCalls K dt W)
  /\ fst (PhysicsManager.fixedUpdateCalls K dt W) = PhysicsManager.fixedUpdate K dt W
  /\ _collisionPairs (PhysicsManager.fixedUpdate K dt W) = cc
  /\ calls = resolvedPairs K cc W6
  /\ NoDup calls
  /\ incl calls (map fst cc).
Proof.
  intros cc W6 calls. subst cc W6 calls.
  split; [split; [| split; [| split]] |].
  - apply velocity_iterations_not_read.
  - apply velocity_iterations_not_read.
  - intros fuel frames. apply run_constants.
  - apply fixedUpdateCalls_constants.
  - rewrite fixedUpdateCalls_eq. cbn [fst snd].
    split; [reflexivity |]. split; [apply fixedUpdate_collisionPairs |].
    split; [reflexivity |]. split.
    + apply resolvedPairs_NoDup, solverInput_NoDup.
    + apply resolvedPairs_incl.
Qed.


(** *** The three boxes

    Two worlds with the same stores, pointwise, and the same fields of the
    manager are the same world; the steps of a sub-step on [boxesState] are
    states of that form again. *)

Lemma world_ext (W W' : World) :
  (forall i, objects W i = objects W' i) ->
  (forall i, bodies W i = bodies W' i) ->
  (forall i, colliders W i = colliders W' i) ->
  _rigidbodies W = _rigidbodies W' -> _colliders W = _colliders W' ->
  _gravity W = _gravity W' -> _fixedTimestep W = _fixedTimestep W' ->
  _accumulator W = _accumulator W' -> _collisionPairs W = _collisionPairs W' ->
  events W = events W' -> W = W'.
Proof.
  destruct W, W'; cbn. intros Ho Hb Hc -> -> -> -> -> -> ->.
  apply functional_extensionality in Ho, Hb, Hc. now subst.
Qed.

Ltac by_store :=
  let i := fresh "i" in
  intros i; destruct i as [| [| [| [| i]]]]; cbn; try reflexivity.

Lemma squareAt_eq (a b c d px w : R) :
  a = px - w / 2 -> b = - (w / 2) -> c = px + w / 2 -> d = w / 2 ->
  Some (mkAABB (Vector2.mk a b) (Vector2.mk c d)) = Some (squareAt px w).
Proof. intros -> -> -> ->. reflexivity. Qed.

Lemma objectWithBody_eq (g : nat) (a b px : R) :
  a = px -> b = 0 ->
  GameObject.mk (Transform.mk (Vector2.mk a b) 0 Vector2.one) (Some g)
  = GameObject.mk (Transform.mk (Vector2.mk px 0) 0 Vector2.one) (Some g).
Proof. intros -> ->. reflexivity. Qed.

Ltac world_eq :=
  apply world_ext; try reflexivity; by_store;
  unfold boxCollider, objectWithBody, Collider.with_bounds, Collider.addCollision,
    Collider.with_collisions, Collider.updateCollisionState, GameObject.set_transform,
    Transform.set_position, Vector2.subtract, Vector2.add, Vector2.multiply;
  cbn;
  first [ reflexivity
        | apply objectWithBody_eq; lra
        | f_equal; apply squareAt_eq; lra ].

Lemma boxes_integrate (K : PhysicsConstantsT) (dt x : R) (b1 b2 b3 : option AABB)
  (c1 c2 c3 : list nat) :
  fold_left (PhysicsManager.integrateBody K dt)
    (_rigidbodies (boxesState x b1 b2 b3 c1 c2 c3)) (boxesState x b1 b2 b3 c1 c2 c3)
  = boxesState x b1 b2 b3 c1 c2 c3.
Proof. reflexivity. Qed.

Lemma boxes_updateAllBounds (x : R) (b1 b2 b3 : option AABB) (c1 c2 c3 : list nat) :
  PhysicsManager.updateAllBounds (boxesState x b1 b2 b3 c1 c2 c3)
  = boxesState x (Some (squareAt 0 2)) (Some (squareAt x 2)) (Some (squareAt (12 / 10) (2 / 10)))
      c1 c2 c3.
Proof. world_eq. Qed.

Lemma boxes_updateCollisionState (x : R) (b1 b2 b3 : option AABB) :
  fold_left
    (fun W c =>
       if Collider.enabled (colliders W c)
       then with_collider c (Collider.updateCollisionState (colliders W c)) W
       else W)
    (_colliders (boxesState x b1 b2 b3 [] [] [])) (boxesState x b1 b2 b3 [] [] [])
  = boxesState x b1 b2 b3 [] [] [].
Proof. world_eq. Qed.

Lemma boxes_narrowPhase :
  exists i12 i23,
    fold_left PhysicsManager.narrowPhasePair
      (PhysicsManager.allPairs
         (PhysicsManager.enabledColliders
            (boxesState (199 / 100) (Some (squareAt 0 2)) (Some (squareAt (199 / 100) 2))
               (Some (squareAt (12 / 10) (2 / 10))) [] [] [])))
      ([], boxesState (199 / 100) (Some (squareAt 0 2)) (Some (squareAt (199 / 100) 2))
             (Some (squareAt (12 / 10) (2 / 10))) [] [] [])
    = ([((1%nat, 2%nat), i12); ((2%nat, 3%nat), i23)],
       boxesState (199 / 100) (Some (squareAt 0 2)) (Some (squareAt (199 / 100) 2))
         (Some (squareAt (12 / 10) (2 / 10))) [2%nat] [1%nat; 3%nat] [2%nat])
    /\ (CollisionInfo.colliderA i12 = 1%nat /\ CollisionInfo.colliderB i12 = 2%nat)
    /\ (CollisionInfo.colliderA i23 = 2%nat /\ CollisionInfo.colliderB i23 = 3%nat).
Proof.
  unfold PhysicsManager.narrowPhasePair, Collider_getBounds, CollisionDetection.detect,
    CollisionDetection.testAABB.
  Reval.
  do 2 eexists. split.
  - f_equal. symmetry. world_eq.
  - repeat split.
Qed.

Lemma boxes_position_pair_12 (x xb : R) (b3 : option AABB) (c1 c2 c3 : list nat)
  (k : PairKey) (i : CollisionInfo.t) :
  CollisionInfo.colliderA i = 1%nat -> CollisionInfo.colliderB i = 2%nat ->
  195 / 100 <= xb ->
  PhysicsManager.positionSolvePair PhysicsConstants
    (boxesState x (Some (squareAt 0 2)) (Some (squareAt xb 2)) b3 c1 c2 c3) (k, i)
  = boxesState x (Some (squareAt 0 2)) (Some (squareAt xb 2)) b3 c1 c2 c3.
Proof.
  intros HA HB Hx. unfold PhysicsManager.positionSolvePair. cbn [snd]. rewrite HA, HB.
  unfold CollisionDetection.detect, CollisionDetection.testAABB, Collider_getBounds,
    CollisionResolver.resolvePositionOnly, CollisionResolver.resolvePositionalCorrection,
    CollisionResolver.bodyOf.
  destruct (Rlt_dec 2 xb) as [Hsep | Htouch]; Reval; reflexivity.
Qed.

Lemma boxes_position_pair_23 (x xb : R) (b1 : option AABB) (c1 c2 c3 : list nat)
  (k : PairKey) (i : CollisionInfo.t) :
  CollisionInfo.colliderA i = 2%nat -> CollisionInfo.colliderB i = 3%nat ->
  12 / 10 < xb < 225 / 100 ->
  PhysicsManager.positionSolvePair PhysicsConstants
    (boxesState x b1 (Some (squareAt xb 2)) (Some (squareAt (12 / 10) (2 / 10))) c1 c2 c3)
    (k, i)
  = boxesState (x + (225 / 100 - xb) * (4 / 10)) b1 (Some (squareAt xb 2))
      (Some (squareAt (12 / 10) (2 / 10))) c1 c2 c3.
Proof.
  intros HA HB Hx. unfold PhysicsManager.positionSolvePair. cbn [snd]. rewrite HA, HB.
  unfold CollisionDetection.detect, CollisionDetection.testAABB, Collider_getBounds,
    CollisionResolver.resolvePositionOnly, CollisionResolver.resolvePositionalCorrection,
    CollisionResolver.bodyOf, CollisionResolver.set_transform_position.
  Reval. world_eq.
Qed.

Lemma boxes_position_iteration (x : R) (b1 b2 b3 : option AABB) (c1 c2 c3 : list nat)
  (k12 k23 : PairKey) (i12 i23 : CollisionInfo.t) :
  CollisionInfo.colliderA i12 = 1%nat -> CollisionInfo.colliderB i12 = 2%nat ->
  CollisionInfo.colliderA i23 = 2%nat -> CollisionInfo.colliderB i23 = 3%nat ->
  199 / 100 <= x < 225 / 100 ->
  fold_left (PhysicsManager.positionSolvePair PhysicsConstants) [(k12, i12); (k23, i23)]
    (PhysicsManager.updateAllBounds (boxesState x b1 b2 b3 c1 c2 c3))
  = boxesState (x + (225 / 100 - x) * (4 / 10)) (Some (squareAt 0 2)) (Some (squareAt x 2))
      (Some (squareAt (12 / 10) (2 / 10))) c1 c2 c3.
Proof.
  intros HA1 HB1 HA2 HB2 Hx. rewrite boxes_updateAllBounds. cbn [fold_left].
  rewrite boxes_position_pair_12 by (assumption || lra).
  rewrite boxes_position_pair_23 by (assumption || lra).
  reflexivity.
Qed.

Lemma boxes_velocity_pair_12 (x xb : R) (b3 : option AABB) (c1 c2 c3 : list nat)
  (k : PairKey) (i : CollisionInfo.t) (calls : list PairKey) :
  CollisionInfo.colliderA i = 1%nat -> CollisionInfo.colliderB i = 2%nat ->
  2 < xb ->
  PhysicsManager.velocitySolvePairCalls PhysicsConstants
    (boxesState x (Some (squareAt 0 2)) (Some (squareAt xb 2)) b3 c1 c2 c3, calls) (k, i)
  = (boxesState x (Some (squareAt 0 2)) (Some (squareAt xb 2)) b3 c1 c2 c3, calls).
Proof.
  intros HA HB Hx. unfold PhysicsManager.velocitySolvePairCalls. cbn [snd]. rewrite HA, HB.
  unfold CollisionDetection.detect, CollisionDetection.testAABB, Collider_getBounds.
  Reval. reflexivity.
Qed.

Lemma boxes_velocity_pair_23 (x xb : R) (b1 : option AABB) (c1 c2 c3 : list nat)
  (k : PairKey) (i : CollisionInfo.t) (calls : list PairKey) :
  CollisionInfo.colliderA i = 2%nat -> CollisionInfo.colliderB i = 3%nat ->
  12 / 10 < xb < 225 / 100 ->
  snd (PhysicsManager.velocitySolvePairCalls PhysicsConstants
         (boxesState x b1 (Some (squareAt xb 2)) (Some (squareAt (12 / 10) (2 / 10))) c1 c2 c3,
          calls) (k, i))
  = calls ++ [k].
Proof.
  intros HA HB Hx. unfold PhysicsManager.velocitySolvePairCalls. cbn [snd fst]. rewrite HA, HB.
  unfold CollisionDetection.detect, CollisionDetection.testAABB, Collider_getBounds.
  Rcbn. repeat (Rstep; Rcbn). reflexivity.
Qed.

(** The first sub-step of [threeBoxes], up to the velocity solver: the narrow
    phase records the pairs (1, 2) and (2, 3), and the position solver moves
    the middle box away from the box at 0. *)
Lemma threeBoxes_solverInput :
  exists i12 i23 x,
    PhysicsManager.solverInput PhysicsConstants (1 / 60) threeBoxes
    = ([((1%nat, 2%nat), i12); ((2%nat, 3%nat), i23)],
       boxesState (x + (225 / 100 - x) * (4 / 10)) (Some (squareAt 0 2)) (Some (squareAt x 2))
         (Some (squareAt (12 / 10) (2 / 10))) [2%nat] [1%nat; 3%nat] [2%nat])
    /\ (CollisionInfo.colliderA i12 = 1%nat /\ CollisionInfo.colliderB i12 = 2%nat)
    /\ (CollisionInfo.colliderA i23 = 2%nat /\ CollisionInfo.colliderB i23 = 3%nat)
    /\ 2 < x < 225 / 100.
Proof.
  destruct boxes_narrowPhase as (i12 & i23 & Hnarrow & [HA1 HB1] & [HA2 HB2]).
  exists i12, i23. eexists.
  unfold PhysicsManager.solverInput, threeBoxes. cbv zeta.
  rewrite boxes_integrate, boxes_updateAllBounds, boxes_updateCollisionState, Hnarrow.
  change (POSITION_ITERATIONS PhysicsConstants) with 4%nat.
  cbn [PhysicsManager.positionSolver].
  rewrite !boxes_position_iteration by (assumption || lra).
  split; [reflexivity |]. repeat split; (assumption || lra).
Qed.

(** C9 as stated fails.  In the first sub-step of [threeBoxes] the narrow
    phase records the colliding pairs (1, 2) and (2, 3), neither with a
    trigger; the position solver pushes the middle box out of the box at 0,
    the re-detection of the pair (1, 2) in the velocity solver returns null,
    and the impulse and friction pass runs for the pair (2, 3) only. *)
Lemma separated_pair_gets_no_velocity_pass :
  map fst (_collisionPairs (PhysicsManager.fixedUpdate PhysicsConstants (1 / 60) threeBoxes))
  = [(1%nat, 2%nat); (2%nat, 3%nat)]
  /\ Collider.isTrigger (colliders threeBoxes 1) = false
  /\ Collider.isTrigger (colliders threeBoxes 2) = false
  /\ snd (PhysicsManager.fixedUpdateCalls PhysicsConstants (1 / 60) threeBoxes)
     = [(2%nat, 3%nat)].
Proof.
  destruct threeBoxes_solverInput
    as (i12 & i23 & x & Hin & [HA1 HB1] & [HA2 HB2] & Hx).
  split; [| split; [reflexivity | split; [reflexivity |]]].
  - rewrite fixedUpdate_collisionPairs, Hin. reflexivity.
  - unfold PhysicsManager.fixedUpdateCalls. rewrite Hin. cbn [fold_left].
    rewrite boxes_velocity_pair_12 by (assumption || lra).
    pose proof (boxes_velocity_pair_23 (x + (225 / 100 - x) * (4 / 10)) x
                  (Some (squareAt 0 2)) [2%nat] [1%nat; 3%nat] [2%nat]
                  (2%nat, 3%nat) i23 [] HA2 HB2) as H23.
    destruct (PhysicsManager.velocitySolvePairCalls PhysicsConstants _ _) as [W7 calls].
    cbn [snd] in *. apply H23. lra.
Qed.

(** ** Checks of the model *)

(** The radius invariant holds for a new circle and after the setter. *)
Lemma newCircleCollider_radius_ok : radius_ok Collider.newCircleCollider.
Proof. unfold radius_ok. simpl. lra. Qed.

Lemma set_radius_radius_ok (v : R) (c : Collider.t) :
  radius_ok c -> radius_ok (Collider.set_radius v c).
Proof.
  unfold radius_ok, Collider.set_radius. destruct (Collider.shape c) eqn:E; simpl.
  - now rewrite E.
  - intros _. apply Rmax_l.
Qed.

(** Scenario C of the specification: the ray from (0, 0) along (1, 0) hits
    the box centred at (10, 0) of size (4, 4) at (8, 0), with normal (-1, 0)
    and distance 8. *)
Lemma raycast_scenario_C :
  option_map (fun h => (hit_collider h, hit_point h, hit_normal h, hit_distance h))
    (fst (PhysicsManager.raycast (Vector2.mk 0 0) (Vector2.mk 1 0) 1000 rayWorld))
  = Some (1%nat, Vector2.mk 8 0, Vector2.mk (-1) 0, 8).
Proof.
  eval_raycast. do 2 f_equal; [do 2 f_equal; unfold Vector2.add, Vector2.multiply; apply vec_eq; cbn; lra | lra].
Qed.

(** * Further properties of the physics package *)

(** ** Vector2 *)

Lemma length_zero_iff (v : Vector2.t) : Vector2.length v = 0 <-> v = Vector2.zero.
Proof.
  split.
  - intros H. pose proof (length_sqr v) as Hs. rewrite H in Hs.
    unfold Vector2.lengthSquared in Hs. destruct v as [a b]. simpl in Hs.
    assert (a = 0) by nra. assert (b = 0) by nra. subst. reflexivity.
  - intros ->. unfold Vector2.length, Vector2.zero. simpl.
    replace (0 * 0 + 0 * 0) with 0 by ring. apply sqrt_0.
Qed.

(** [normalize] gives the zero vector for the zero vector and a vector of
    length one for every other vector, and normalizing twice is normalizing
    once. *)
Lemma normalize_unit_or_zero (v : Vector2.t) :
  (v = Vector2.zero -> Vector2.normalize v = Vector2.zero)
  /\ (v <> Vector2.zero -> Vector2.length (Vector2.normalize v) = 1)
  /\ Vector2.normalize (Vector2.normalize v) = Vector2.normalize v.
Proof.
  assert (Hz : Vector2.normalize Vector2.zero = Vector2.zero).
  { unfold Vector2.normalize.
    destruct (Req_dec_T (Vector2.length Vector2.zero) 0) as [_ | Hn]; [reflexivity |].
    exfalso. apply Hn. now apply length_zero_iff. }
  split; [intros ->; exact Hz | split].
  - intros Hv. apply normalize_length. intros Hl. apply Hv. now apply length_zero_iff.
  - destruct (Req_dec_T (Vector2.length v) 0) as [Hl | Hl].
    + apply length_zero_iff in Hl. subst v. now rewrite Hz.
    + pose proof (normalize_length v Hl) as H1.
      rewrite (normalize_nonzero (Vector2.normalize v)) by (rewrite H1; lra).
      rewrite H1. destruct (Vector2.normalize v) as [a b]. simpl. apply vec_eq; field.
Qed.

(** [divide] throws exactly for the scalar zero; otherwise multiplying the
    quotient by the scalar gives the vector back. *)
Lemma divide_multiply_roundtrip (v : Vector2.t) (s : R) :
  (Vector2.divide v s = None <-> s = 0)
  /\ (s <> 0 ->
      exists q, Vector2.divide v s = Some q /\ Vector2.multiply q s = v).
Proof.
  unfold Vector2.divide. destruct (Req_dec_T s 0) as [Hs | Hs].
  - split; [split; auto | contradiction].
  - split; [split; [discriminate | contradiction] |]. intros _.
    eexists. split; [reflexivity |]. destruct v as [a b]. unfold Vector2.multiply. simpl.
    apply vec_eq; field; assumption.
Qed.

(** [rotate] keeps the length of a vector, is the identity for the angle
    zero, and two rotations are the rotation by the sum of the angles. *)
Lemma rotate_isometry (v : Vector2.t) (a b : R) :
  Vector2.length (Vector2.rotate v a) = Vector2.length v
  /\ Vector2.rotate v 0 = v
  /\ Vector2.rotate (Vector2.rotate v a) b = Vector2.rotate v (a + b).
Proof.
  destruct v as [p q]. unfold Vector2.rotate, Vector2.length. simpl. repeat split.
  - f_equal. pose proof (sin2_cos2 a) as H. unfold Rsqr in H.
    replace ((p * cos a - q * sin a) * (p * cos a - q * sin a)
             + (p * sin a + q * cos a) * (p * sin a + q * cos a))
      with ((p * p + q * q) * (sin a * sin a + cos a * cos a)) by ring.
    rewrite H. ring.
  - rewrite cos_0, sin_0. apply vec_eq; ring.
  - rewrite cos_plus, sin_plus. apply vec_eq; ring.
Qed.

(** [lerp] clamps its parameter: at or below zero it gives the first vector,
    at or above one the second, and in every case each coordinate of the
    result lies between the coordinates of the two vectors. *)
Lemma lerp_clamped (a b : Vector2.t) (s : R) :
  (s <= 0 -> Vector2.lerp a b s = a)
  /\ (1 <= s -> Vector2.lerp a b s = b)
  /\ Rmin (Vector2.x a) (Vector2.x b) <= Vector2.x (Vector2.lerp a b s)
       <= Rmax (Vector2.x a) (Vector2.x b)
  /\ Rmin (Vector2.y a) (Vector2.y b) <= Vector2.y (Vector2.lerp a b s)
       <= Rmax (Vector2.y a) (Vector2.y b).
Proof.
  destruct a as [ax ay], b as [bx by_]. unfold Vector2.lerp. simpl.
  assert (Hc : 0 <= Rmax 0 (Rmin 1 s) <= 1) by apply clamp_range.
  set (c := Rmax 0 (Rmin 1 s)) in *.
  split; [| split; [| split]].
  - intros Hs. assert (c = 0) by (unfold c; Rdecide; lra). apply vec_eq; nra.
  - intros Hs. assert (c = 1) by (unfold c; Rdecide; lra). apply vec_eq; nra.
  - unfold Rmin, Rmax. destruct (Rle_dec ax bx); split; nra.
  - unfold Rmin, Rmax. destruct (Rle_dec ay by_); split; nra.
Qed.

(** [equals] with a positive tolerance is reflexive and symmetric; with a
    tolerance of zero or less it is false for every pair of vectors, equal
    ones included. *)
Lemma equals_tolerance (a v : Vector2.t) (epsilon : R) :
  (0 < epsilon -> Vector2.equals a a epsilon = true)
  /\ Vector2.equals a v epsilon = Vector2.equals v a epsilon
  /\ (epsilon <= 0 -> Vector2.equals a v epsilon = false).
Proof.
  unfold Vector2.equals. repeat split.
  - intros He. replace (Vector2.x a - Vector2.x a) with 0 by ring.
    replace (Vector2.y a - Vector2.y a) with 0 by ring. rewrite Rabs_R0.
    now rewrite (proj2 (Rltb_true 0 epsilon) He).
  - now rewrite (Rabs_minus_sym (Vector2.x a)), (Rabs_minus_sym (Vector2.y a)).
  - intros He. rewrite (proj2 (Rltb_false _ _)); [reflexivity |].
    pose proof (Rabs_pos (Vector2.x a - Vector2.x v)). lra.
Qed.

(** ** RigidBody *)

Lemma length_multiply (v : Vector2.t) (s : R) :
  Vector2.length (Vector2.multiply v s) = Rabs s * Vector2.length v.
Proof.
  unfold Vector2.length, Vector2.multiply. simpl.
  replace (Vector2.x v * s * (Vector2.x v * s) + Vector2.y v * s * (Vector2.y v * s))
    with (Rsqr s * (Vector2.x v * Vector2.x v + Vector2.y v * Vector2.y v))
    by (unfold Rsqr; ring).
  rewrite sqrt_mult_alt by apply Rle_0_sqr. now rewrite sqrt_Rsqr_abs.
Qed.

Lemma updateSleep_velocity (K : PhysicsConstantsT) (dt : R) (b : RigidBody.t) :
  RigidBody._velocity (RigidBody.updateSleep K dt b) = RigidBody._velocity b
  \/ RigidBody._velocity (RigidBody.updateSleep K dt b) = Vector2.zero.
Proof.
  unfold RigidBody.updateSleep.
  destruct (Rlt_dec _ _); [| now left].
  destruct (Rlt_dec _ _); [| now left].
  cbv zeta. destruct (Rle_dec _ _); [now right | now left].
Qed.

(** The velocity after [fixedUpdate]: zero when the body has been put to
    sleep, else the damped velocity, rescaled to the maximum when it is
    faster. *)
Lemma fixedUpdate_velocity_cases (K : PhysicsConstantsT) (dt : R) (b : RigidBody.t)
  (tr : Transform.t) :
  RigidBody._bodyType b = DYNAMIC ->
  RigidBody._isSleeping b = false ->
  let F :=
    if RigidBody._useGravity b then
      Vector2.add (RigidBody._force b)
        (Vector2.multiply (Vector2.multiply (GRAVITY K) (RigidBody._gravityScale b))
           (RigidBody._mass b))
    else RigidBody._force b in
  let v4 :=
    Vector2.multiply
      (Vector2.add (RigidBody._velocity b)
         (Vector2.multiply (Vector2.multiply F (RigidBody.inverseMass b)) dt))
      (Rmax 0 (1 - RigidBody._drag b * dt * 10)) in
  let v := RigidBody._velocity (fst (RigidBody.fixedUpdate K dt b (Some tr))) in
  v = Vector2.zero
  \/ (Vector2.lengthSquared v4 <= MAX_VELOCITY K * MAX_VELOCITY K /\ v = v4)
  \/ (MAX_VELOCITY K * MAX_VELOCITY K < Vector2.lengthSquared v4
      /\ v = Vector2.multiply (Vector2.normalize v4) (MAX_VELOCITY K)).
Proof.
  intros Hdyn Hawake F v4 v. unfold v, v4, F, RigidBody.fixedUpdate.
  rewrite Hdyn, Hawake. cbn [BodyType_eqb negb]. cbv zeta.
  destruct (RigidBody._useGravity b);
    cbn -[Rmax Vector2.lengthSquared Vector2.normalize Vector2.multiply Vector2.add
          RigidBody.updateSleep Rlt_dec];
    (destruct (Rlt_dec _ _) as [Hc | Hc];
     match goal with
     | |- context [RigidBody.updateSleep K dt ?B] =>
         destruct (updateSleep_velocity K dt B) as [Hs | Hs]; rewrite Hs
     end;
     [ right; right; split; [exact Hc | reflexivity]
     | now left
     | right; left; split; [apply Rnot_lt_le; exact Hc | reflexivity]
     | now left ]).
Qed.

Lemma clamped_length (M : R) (v : Vector2.t) :
  0 <= M -> M * M < Vector2.lengthSquared v ->
  Vector2.length (Vector2.multiply (Vector2.normalize v) M) = M
  /\ M < Vector2.length v.
Proof.
  intros HM Hlt. pose proof (length_sqr v) as Hs. pose proof (length_nonneg v) as Hn.
  assert (Hpos : M < Vector2.length v) by nra.
  split; [| exact Hpos].
  rewrite length_multiply, normalize_length by lra. rewrite Rabs_pos_eq by exact HM. ring.
Qed.

(** After [fixedUpdate] the speed of a body is at most [MAX_VELOCITY]. *)
Lemma fixedUpdate_speed_bounded (K : PhysicsConstantsT) (dt : R) (b : RigidBody.t)
  (tr : Transform.t) :
  0 <= MAX_VELOCITY K ->
  RigidBody._bodyType b = DYNAMIC ->
  RigidBody._isSleeping b = false ->
  Vector2.length (RigidBody._velocity (fst (RigidBody.fixedUpdate K dt b (Some tr))))
  <= MAX_VELOCITY K.
Proof.
  intros HM Hdyn Hawake.
  destruct (fixedUpdate_velocity_cases K dt b tr Hdyn Hawake) as [H | [[Hle H] | [Hlt H]]];
    rewrite H.
  - rewrite (proj2 (length_zero_iff _) eq_refl). exact HM.
  - apply Rnot_lt_le. intros Hc. apply speed_test_squared in Hc; [lra | exact HM].
  - destruct (clamped_length _ _ HM Hlt) as [-> _]. apply Rle_refl.
Qed.

(** A witness of [fixedUpdate_speed_bounded]: [slowBody] under the constants
    of the engine. *)
Lemma fixedUpdate_speed_bounded_witness :
  Vector2.length
    (RigidBody._velocity
       (fst (RigidBody.fixedUpdate PhysicsConstants (1 / 60) slowBody (Some Transform.new))))
  <= 5000.
Proof.
  apply (fixedUpdate_speed_bounded PhysicsConstants (1 / 60) slowBody Transform.new);
    [simpl; lra | reflexivity | reflexivity].
Defined.

Lemma add_zero_impulse (v : Vector2.t) (i dt : R) :
  Vector2.add v (Vector2.multiply (Vector2.multiply Vector2.zero i) dt) = v.
Proof. destruct v as [a b]. unfold Vector2.add, Vector2.multiply. simpl. apply vec_eq; ring. Qed.

(** Without gravity and without an accumulated force, a [fixedUpdate] does
    not make the body faster, for a drag and a timestep that are not
    negative. *)
Lemma fixedUpdate_drag_slows (K : PhysicsConstantsT) (dt : R) (b : RigidBody.t)
  (tr : Transform.t) :
  0 <= MAX_VELOCITY K ->
  RigidBody._bodyType b = DYNAMIC ->
  RigidBody._isSleeping b = false ->
  RigidBody._useGravity b = false ->
  RigidBody._force b = Vector2.zero ->
  0 <= RigidBody._drag b * dt ->
  Vector2.length (RigidBody._velocity (fst (RigidBody.fixedUpdate K dt b (Some tr))))
  <= Vector2.length (RigidBody._velocity b).
Proof.
  intros HM Hdyn Hawake Hg Hf Hdrag.
  pose proof (fixedUpdate_velocity_cases K dt b tr Hdyn Hawake) as H. cbv zeta in H.
  rewrite Hg, Hf, add_zero_impulse in H.
  assert (Hfac : 0 <= Rmax 0 (1 - RigidBody._drag b * dt * 10) <= 1)
    by (unfold Rmax; destruct (Rle_dec _ _); lra).
  assert (Hv4 : Vector2.length
                  (Vector2.multiply (RigidBody._velocity b)
                     (Rmax 0 (1 - RigidBody._drag b * dt * 10)))
                <= Vector2.length (RigidBody._velocity b)).
  { rewrite length_multiply, Rabs_pos_eq by lra.
    pose proof (length_nonneg (RigidBody._velocity b)). nra. }
  destruct H as [H | [[Hle H] | [Hlt H]]]; rewrite H.
  - rewrite (proj2 (length_zero_iff _) eq_refl). apply length_nonneg.
  - exact Hv4.
  - destruct (clamped_length _ _ HM Hlt) as [-> Hlt']. lra.
Qed.

(** A witness of [fixedUpdate_drag_slows]: [slowBody], which has no gravity
    and no force. *)
Lemma fixedUpdate_drag_slows_witness :
  Vector2.length
    (RigidBody._velocity
       (fst (RigidBody.fixedUpdate PhysicsConstants (1 / 60) slowBody (Some Transform.new))))
  <= Vector2.length (RigidBody._velocity slowBody).
Proof.
  apply (fixedUpdate_drag_slows PhysicsConstants (1 / 60) slowBody Transform.new);
    try reflexivity; simpl; lra.
Defined.

(** The mass setter keeps the mass at 0.001 or more, so the inverse mass of
    a body that is not static lies in (0, 1000], and the inverse mass of a
    static body is zero whatever its mass. *)
Lemma set_mass_inverseMass (value : R) (b : RigidBody.t) :
  let b' := RigidBody.set_mass value b in
  1 / 1000 <= RigidBody._mass b'
  /\ (RigidBody._bodyType b = STATIC -> RigidBody.inverseMass b' = 0)
  /\ (RigidBody._bodyType b <> STATIC -> 0 < RigidBody.inverseMass b' <= 1000).
Proof.
  cbv zeta. unfold RigidBody.inverseMass, RigidBody.set_mass. cbn.
  assert (Hm : 1 / 1000 <= Rmax (1 / 1000) value) by apply Rmax_l.
  set (m := Rmax (1 / 1000) value) in *.
  split; [exact Hm | split].
  - intros ->. reflexivity.
  - intros Hns. destruct (RigidBody._bodyType b); [contradiction | |]; cbn;
      (split; [apply Rdiv_lt_0_compat; lra |
               apply (Rmult_le_reg_r m); [lra |]; field_simplify; lra]).
Qed.

(** Forces, impulses and torques reach dynamic bodies only, and wake them
    whatever their size; the velocity setter wakes a body only for a velocity
    whose squared length exceeds 0.01. *)
Lemma wake_rules (b : RigidBody.t) (f : Vector2.t) (q : R) :
  (RigidBody._bodyType b <> DYNAMIC ->
     RigidBody.addForce f b = b /\ RigidBody.addImpulse f b = b
     /\ RigidBody.addTorque q b = b)
  /\ (RigidBody._bodyType b = DYNAMIC ->
       RigidBody._isSleeping (RigidBody.addForce f b) = false
       /\ RigidBody._isSleeping (RigidBody.addImpulse f b) = false
       /\ RigidBody._isSleeping (RigidBody.addTorque q b) = false)
  /\ (Vector2.lengthSquared f <= 1 / 100 ->
       RigidBody._isSleeping (RigidBody.set_velocity f b) = RigidBody._isSleeping b
       /\ RigidBody._sleepTimer (RigidBody.set_velocity f b) = RigidBody._sleepTimer b)
  /\ (1 / 100 < Vector2.lengthSquared f ->
       RigidBody._isSleeping (RigidBody.set_velocity f b) = false
       /\ RigidBody._sleepTimer (RigidBody.set_velocity f b) = 0).
Proof.
  unfold RigidBody.addForce, RigidBody.addImpulse, RigidBody.addTorque,
    RigidBody.set_velocity.
  repeat split.
  1-3: destruct (RigidBody._bodyType b); try reflexivity; contradiction.
  1-3: rewrite H; reflexivity.
  1-2: destruct (Rlt_dec _ _); [lra | reflexivity].
  1-2: destruct (Rlt_dec _ _); [reflexivity | lra].
Qed.

(** [updateSleep] puts a body to sleep only with zero velocity and zero
    angular velocity and a timer that has reached the sleep time, and it
    never wakes a body. *)
Lemma updateSleep_asleep (K : PhysicsConstantsT) (dt : R) (b : RigidBody.t) :
  let b' := RigidBody.updateSleep K dt b in
  (RigidBody._isSleeping b = false -> RigidBody._isSleeping b' = true ->
     RigidBody._velocity b' = Vector2.zero /\ RigidBody._angularVelocity b' = 0
     /\ SLEEP_TIME K <= RigidBody._sleepTimer b'
     /\ Vector2.length (RigidBody._velocity b) < SLEEP_THRESHOLD K
     /\ Rabs (RigidBody._angularVelocity b) < SLEEP_THRESHOLD K)
  /\ (RigidBody._isSleeping b = true -> RigidBody._isSleeping b' = true).
Proof.
  cbv zeta. unfold RigidBody.updateSleep.
  destruct (Rlt_dec _ _) as [Hv | Hv]; [destruct (Rlt_dec _ _) as [Hw | Hw] |];
    cbv zeta; [destruct (Rle_dec _ _) as [Ht | Ht] | |]; cbn; split; intros H1; try intros H2;
    try congruence; auto.
Qed.

(** ** Collider *)

Lemma set_has_add (s : list nat) (n m : nat) :
  set_has (set_add s n) m = set_has s m || Nat.eqb m n.
Proof.
  unfold set_add. destruct (set_has s n) eqn:Hn.
  - destruct (Nat.eqb m n) eqn:E; [| now rewrite orb_false_r].
    apply Nat.eqb_eq in E. subst. rewrite Hn. reflexivity.
  - unfold set_has. rewrite existsb_app. simpl. now rewrite orb_false_r.
Qed.

(** Enter, Stay and Exit exclude one another, and they follow the contacts of
    two consecutive sub-steps: after the state update of a sub-step a contact
    that is added again is Stay if it was current before and Enter if it
    was not, and a contact that is not added again is Exit if it was current
    before. *)
Lemma contact_state_transitions (c : Collider.t) (o : nat) :
  let was := set_has (Collider._currentCollisions c) o in
  let again := Collider.addCollision o (Collider.updateCollisionState c) in
  let gone := Collider.updateCollisionState c in
  (Collider.isCollisionEnter c o && Collider.isCollisionStay c o = false)
  /\ (Collider.isCollisionEnter c o && Collider.isCollisionExit c o = false)
  /\ (Collider.isCollisionStay c o && Collider.isCollisionExit c o = false)
  /\ Collider.isCollisionEnter again o = negb was
  /\ Collider.isCollisionStay again o = was
  /\ Collider.isCollisionExit again o = false
  /\ Collider.isCollisionExit gone o = was
  /\ Collider.isCollisionEnter gone o = false
  /\ Collider.isCollisionStay gone o = false.
Proof.
  cbv zeta.
  unfold Collider.isCollisionEnter, Collider.isCollisionStay, Collider.isCollisionExit,
    Collider.addCollision, Collider.updateCollisionState. cbn -[set_has set_add].
  rewrite !set_has_add, Nat.eqb_refl. change (set_has [] o) with false.
  destruct (set_has (Collider._currentCollisions c) o),
    (set_has (Collider._previousCollisions c) o); repeat split.
Qed.

(** The bounds of a collider are centred on its world position, with the
    minimum corner at or below the maximum corner for a radius or a size that
    is not negative; and a point that a circle contains lies in the bounds of
    the circle. *)
Lemma computeBounds_encloses (W : World) (h : nat) (p : Vector2.t) :
  let bd := Collider_computeBounds W h in
  let pos := Collider_getWorldPosition W h in
  ((Vector2.x (min bd) + Vector2.x (max bd)) / 2 = Vector2.x pos
   /\ (Vector2.y (min bd) + Vector2.y (max bd)) / 2 = Vector2.y pos)
  /\ (0 <= Collider.radius (colliders W h) ->
      0 <= Vector2.x (Collider.size (colliders W h)) ->
      0 <= Vector2.y (Collider.size (colliders W h)) ->
      Vector2.x (min bd) <= Vector2.x (max bd) /\ Vector2.y (min bd) <= Vector2.y (max bd))
  /\ (forall r, Collider.shape (colliders W h) = Collider.CircleCollider r -> 0 <= r ->
      fst (Collider_containsPoint h p W) = true ->
      Vector2.x (min bd) <= Vector2.x p <= Vector2.x (max bd)
      /\ Vector2.y (min bd) <= Vector2.y p <= Vector2.y (max bd)).
Proof.
  cbv zeta. unfold Collider_computeBounds, Collider.computeBoundsAt, Collider_containsPoint,
    Collider.radius, Collider.size.
  set (pos := Collider_getWorldPosition W h).
  destruct (Collider.shape (colliders W h)) as [sz | r0]; cbn.
  - split; [split; lra | split; [intros; split; lra | intros r Hr; discriminate]].
  - split; [split; lra | split; [intros; split; lra |]].
    intros r Hr Hr0 Hc. injection Hr as <-. apply Rleb_true in Hc.
    unfold Vector2.lengthSquared in Hc. simpl in Hc.
    set (dx := Vector2.x p - Vector2.x pos) in *.
    set (dy := Vector2.y p - Vector2.y pos) in *.
    assert (dx * dx <= r0 * r0) by nra. assert (dy * dy <= r0 * r0) by nra.
    assert (- r0 <= dx <= r0) by (split; nra).
    assert (- r0 <= dy <= r0) by (split; nra).
    unfold dx, dy in *. lra.
Qed.

(** ** CollisionDetection *)

(** For two boxes the narrow phase agrees with the box test of the broad
    phase: no manifold when the cached bounds do not overlap, and otherwise
    a manifold whose penetration is the smallest of the four overlaps, which
    is zero for boxes that only touch. *)
Lemma testAABB_iff_aabbOverlap (a b : nat) (W : World) :
  let boundsA := fst (Collider_getBounds a W) in
  let boundsB := fst (Collider_getBounds b (snd (Collider_getBounds a W))) in
  let overlapX1 := Vector2.x (max boundsA) - Vector2.x (min boundsB) in
  let overlapX2 := Vector2.x (max boundsB) - Vector2.x (min boundsA) in
  let overlapY1 := Vector2.y (max boundsA) - Vector2.y (min boundsB) in
  let overlapY2 := Vector2.y (max boundsB) - Vector2.y (min boundsA) in
  (PhysicsManager.aabbOverlap boundsA boundsB = false ->
     fst (CollisionDetection.testAABB a b W) = None)
  /\ (PhysicsManager.aabbOverlap boundsA boundsB = true ->
      exists info,
        fst (CollisionDetection.testAABB a b W) = Some info
        /\ CollisionInfo.colliderA info = a /\ CollisionInfo.colliderB info = b
        /\ CollisionInfo.penetration info = Rmin4 overlapX1 overlapX2 overlapY1 overlapY2).
Proof.
  cbv zeta. unfold CollisionDetection.testAABB, PhysicsManager.aabbOverlap.
  destruct (Collider_getBounds a W) as [boundsA W1]. cbn [fst snd].
  destruct (Collider_getBounds b W1) as [boundsB W2]. cbn [fst snd].
  destruct (_ || _ || _ || _); cbn [negb]; split; intros H; try discriminate;
    [reflexivity |].
  destruct (Rltb (Rmin _ _) (Rmin _ _)) eqn:Hx; cbn [fst];
    eexists; (split; [reflexivity |]); (split; [reflexivity |]); (split; [reflexivity |]);
    cbn; unfold Rmin4.
  - apply Rltb_true in Hx. Rdecide; lra.
  - apply Rltb_false in Hx. Rdecide; lra.
Qed.



(** Two circles that the narrow phase reports have overlapping bounds, so
    the box test of the broad phase does not drop them. *)
Lemma circles_colliding_bounds_overlap (a b : nat) (W : World) (ra rb : R)
  (info : CollisionInfo.t) :
  Collider.shape (colliders W a) = Collider.CircleCollider ra ->
  Collider.shape (colliders W b) = Collider.CircleCollider rb ->
  0 <= ra -> 0 <= rb ->
  CollisionDetection.testCircleCircle a b W = Some info ->
  PhysicsManager.aabbOverlap (Collider_computeBounds W a) (Collider_computeBounds W b) = true.
Proof.
  intros Ha Hb Hra Hrb. unfold CollisionDetection.testCircleCircle, Collider.radius.
  unfold Collider_computeBounds, Collider.computeBoundsAt. rewrite Ha, Hb.
  set (posA := Collider_getWorldPosition W a). set (posB := Collider_getWorldPosition W b).
  destruct (Rgeb _ _) eqn:Hge; [discriminate |]. intros _.
  unfold Rgeb in Hge. apply Rleb_false in Hge.
  unfold Vector2.lengthSquared, Vector2.subtract in Hge. simpl in Hge.
  set (dx := Vector2.x posB - Vector2.x posA) in *.
  set (dy := Vector2.y posB - Vector2.y posA) in *.
  assert (Hx : - (ra + rb) < dx < ra + rb) by (split; nra).
  assert (Hy : - (ra + rb) < dy < ra + rb) by (split; nra).
  unfold PhysicsManager.aabbOverlap, Rgtb. cbn.
  unfold dx, dy in *.
  rewrite !(proj2 (Rltb_false _ _)) by lra. reflexivity.
Qed.

(** A witness of [circles_colliding_bounds_overlap]: the circles of
    [circlesWorld]. *)
Lemma circles_colliding_bounds_overlap_witness :
  PhysicsManager.aabbOverlap (Collider_computeBounds circlesWorld 1)
    (Collider_computeBounds circlesWorld 2) = true.
Proof.
  pose proof circlesWorld_detect as Hd.
  change (CollisionDetection.detect 1 2 circlesWorld)
    with (CollisionDetection.testCircleCircle 1 2 circlesWorld, circlesWorld) in Hd.
  injection Hd as Hd.
  eapply (circles_colliding_bounds_overlap 1 2 circlesWorld 25 25);
    [reflexivity | reflexivity | lra | lra | exact Hd].
Defined.

(** The manifold of a box and a circle has its contact point strictly inside
    the circle and, for box bounds with the minimum corner at or below the
    maximum corner, inside the box; and then the bounds of the two overlap. *)
Lemma testAABBCircle_contact (box circle : nat) (W W' : World) (r : R)
  (info : CollisionInfo.t) :
  Collider.shape (colliders W circle) = Collider.CircleCollider r ->
  0 <= r ->
  CollisionDetection.testAABBCircle box circle W = (Some info, W') ->
  let boxBounds := fst (Collider_getBounds box W) in
  let circlePos := Collider_getWorldPosition W circle in
  exists point,
    map cp_point (CollisionInfo.contacts info) = [point]
    /\ Vector2.lengthSquared (Vector2.subtract circlePos point) < r * r
    /\ (Vector2.x (min boxBounds) <= Vector2.x (max boxBounds) ->
        Vector2.y (min boxBounds) <= Vector2.y (max boxBounds) ->
        (Vector2.x (min boxBounds) <= Vector2.x point <= Vector2.x (max boxBounds)
         /\ Vector2.y (min boxBounds) <= Vector2.y point <= Vector2.y (max boxBounds))
        /\ PhysicsManager.aabbOverlap boxBounds (Collider_computeBounds W circle) = true).
Proof.
  intros Hc Hr. unfold CollisionDetection.testAABBCircle.
  pose proof (getBounds_radius box circle W) as Hrad.
  assert (Hpos : Collider_getWorldPosition (snd (Collider_getBounds box W)) circle
                 = Collider_getWorldPosition W circle).
  { unfold Collider_getBounds. destruct (Collider._bounds (colliders W box)); [reflexivity |].
    unfold Collider_getWorldPosition, Collider_updateBounds. cbn. unfold upd.
    destruct (Nat.eqb circle box) eqn:E; [| reflexivity].
    apply Nat.eqb_eq in E. subst. reflexivity. }
  destruct (Collider_getBounds box W) as [boxBounds W1]. cbn [fst snd] in *.
  rewrite Hrad, Hpos. unfold Collider.radius. rewrite Hc.
  set (circlePos := Collider_getWorldPosition W circle).
  set (cx := Rmax _ (Rmin (Vector2.x circlePos) _)).
  set (cy := Rmax _ (Rmin (Vector2.y circlePos) _)).
  destruct (Rgeb _ _) eqn:Hge; [discriminate |].
  unfold Rgeb in Hge. apply Rleb_false in Hge.
  intros Heq; injection Heq as <- _. cbv zeta.
  exists (Vector2.mk cx cy). split; [reflexivity |]. split; [exact Hge |].
  intros Hx Hy.
  assert (Hcx : Vector2.x (min boxBounds) <= cx <= Vector2.x (max boxBounds))
    by (unfold cx, Rmax, Rmin; repeat destruct (Rle_dec _ _); lra).
  assert (Hcy : Vector2.y (min boxBounds) <= cy <= Vector2.y (max boxBounds))
    by (unfold cy, Rmax, Rmin; repeat destruct (Rle_dec _ _); lra).
  split; [split; assumption |].
  unfold Vector2.lengthSquared, Vector2.subtract in Hge. simpl in Hge.
  set (dx := Vector2.x circlePos - cx) in *. set (dy := Vector2.y circlePos - cy) in *.
  assert (Hdx : - r < dx < r) by (split; nra).
  assert (Hdy : - r < dy < r) by (split; nra).
  unfold PhysicsManager.aabbOverlap, Rgtb, Collider_computeBounds, Collider.computeBoundsAt.
  rewrite Hc. cbn. fold circlePos. unfold dx, dy in *.
  rewrite !(proj2 (Rltb_false _ _)) by lra. reflexivity.
Qed.

(** [swapColliders] exchanges the two colliders and reverses the normal,
    keeps the penetration and the contacts, and applied twice gives the
    manifold back. *)
Lemma swapColliders_involution (info : CollisionInfo.t) :
  let s := CollisionInfo.swapColliders info in
  CollisionInfo.colliderA s = CollisionInfo.colliderB info
  /\ CollisionInfo.colliderB s = CollisionInfo.colliderA info
  /\ CollisionInfo.penetration s = CollisionInfo.penetration info
  /\ CollisionInfo.contacts s = CollisionInfo.contacts info
  /\ Vector2.add (CollisionInfo.normal s) (CollisionInfo.normal info) = Vector2.zero
  /\ CollisionInfo.swapColliders s = info.
Proof.
  destruct info as [a b cs [nx ny] p]. cbv zeta.
  unfold CollisionInfo.swapColliders, Vector2.multiply, Vector2.add. cbn.
  repeat split.
  - apply vec_eq; ring.
  - f_equal. apply vec_eq; ring.
Qed.

Lemma collisionPairKey_eq_iff (a b c d : nat) :
  PhysicsManager.collisionPairKey a b = PhysicsManager.collisionPairKey c d
  <-> (a = c /\ b = d) \/ (a = d /\ b = c).
Proof.
  unfold PhysicsManager.collisionPairKey.
  destruct (Nat.ltb a b) eqn:Eab, (Nat.ltb c d) eqn:Ecd;
    rewrite ?Nat.ltb_lt, ?Nat.ltb_ge in *; split;
    try (intros Heq; injection Heq; lia);
    try (intros [[-> ->] | [-> ->]]; f_equal; lia).
Qed.

(** The key of a pair does not depend on the order of the two colliders,
    has the smaller id first, and two pairs have the same key exactly when
    they are the same two colliders. *)
Lemma collisionPairKey_unordered (a b c d : nat) :
  PhysicsManager.collisionPairKey a b = PhysicsManager.collisionPairKey b a
  /\ (fst (PhysicsManager.collisionPairKey a b) <= snd (PhysicsManager.collisionPairKey a b))%nat
  /\ (PhysicsManager.collisionPairKey a b = PhysicsManager.collisionPairKey c d
      <-> (a = c /\ b = d) \/ (a = d /\ b = c)).
Proof.
  unfold PhysicsManager.collisionPairKey.
  destruct (Nat.ltb a b) eqn:Eab, (Nat.ltb b a) eqn:Eba, (Nat.ltb c d) eqn:Ecd;
    rewrite ?Nat.ltb_lt, ?Nat.ltb_ge in *; cbn; repeat split;
    try lia; try (f_equal; lia);
    try (intros Heq; injection Heq; lia);
    try (intros [[-> ->] | [-> ->]]; f_equal; lia).
Qed.

Lemma boxCircleWorld_collides :
  fst (CollisionDetection.testAABBCircle 1 2 boxCircleWorld) <> None.
Proof.
  unfold CollisionDetection.testAABBCircle, Collider_getBounds, Collider_updateBounds,
    Collider_computeBounds, Collider_getWorldPosition.
  cbn -[sqrt]. unfold Vector2.lengthSquared. cbn -[sqrt].
  unfold Rgeb, Rleb.
  match goal with
  | |- context [Rle_dec ?a ?b] => destruct (Rle_dec a b) as [Hle | Hle]
  end.
  - exfalso. revert Hle. Rdecide; lra.
  - cbn -[sqrt]. discriminate.
Qed.

(** A witness of [testAABBCircle_contact]: the box and the circle of
    [boxCircleWorld]. *)
Lemma testAABBCircle_contact_witness :
  exists info W',
    CollisionDetection.testAABBCircle 1 2 boxCircleWorld = (Some info, W')
    /\ exists point,
         map cp_point (CollisionInfo.contacts info) = [point]
         /\ Vector2.lengthSquared
              (Vector2.subtract (Collider_getWorldPosition boxCircleWorld 2) point) < 1 * 1.
Proof.
  pose proof boxCircleWorld_collides as Hc.
  destruct (CollisionDetection.testAABBCircle 1 2 boxCircleWorld) as [[info |] W'] eqn:Ht;
    [| now elim Hc].
  exists info, W'. split; [reflexivity |].
  destruct (testAABBCircle_contact 1 2 boxCircleWorld W' 1 info eq_refl ltac:(lra) Ht)
    as (point & Hp & Hin & _).
  exists point. split; assumption.
Defined.

(** ** CollisionResolver *)

Lemma set_velocity_fields (v : Vector2.t) (b : RigidBody.t) :
  RigidBody.velocity (RigidBody.set_velocity v b) = v
  /\ RigidBody._bodyType (RigidBody.set_velocity v b) = RigidBody._bodyType b
  /\ RigidBody._mass (RigidBody.set_velocity v b) = RigidBody._mass b
  /\ RigidBody.gameObject (RigidBody.set_velocity v b) = RigidBody.gameObject b.
Proof. unfold RigidBody.set_velocity. destruct (Rlt_dec _ _); repeat split. Qed.

Lemma assign_velocity_self (h : nat) (v : Vector2.t) (W : World) :
  RigidBody.velocity (bodies (CollisionResolver.assign_velocity h v W) h) = v.
Proof.
  unfold CollisionResolver.assign_velocity. cbn. unfold upd. rewrite Nat.eqb_refl.
  apply set_velocity_fields.
Qed.

Lemma assign_velocity_other (h h' : nat) (v : Vector2.t) (W : World) :
  h' <> h -> bodies (CollisionResolver.assign_velocity h v W) h' = bodies W h'.
Proof.
  intros Hne. unfold CollisionResolver.assign_velocity. cbn. unfold upd.
  apply Nat.eqb_neq in Hne. now rewrite Hne.
Qed.

Lemma assign_velocity_static_fields (h h' : nat) (v : Vector2.t) (W : World) :
  RigidBody._bodyType (bodies (CollisionResolver.assign_velocity h v W) h')
  = RigidBody._bodyType (bodies W h')
  /\ RigidBody._mass (bodies (CollisionResolver.assign_velocity h v W) h')
     = RigidBody._mass (bodies W h')
  /\ RigidBody.gameObject (bodies (CollisionResolver.assign_velocity h v W) h')
     = RigidBody.gameObject (bodies W h').
Proof.
  unfold CollisionResolver.assign_velocity. cbn. unfold upd.
  destruct (Nat.eqb h' h) eqn:E; [| repeat split].
  apply Nat.eqb_eq in E. subst. apply set_velocity_fields.
Qed.

Lemma static_fields_inverseMass (b b' : RigidBody.t) :
  RigidBody._bodyType b' = RigidBody._bodyType b ->
  RigidBody._mass b' = RigidBody._mass b ->
  RigidBody.inverseMass b' = RigidBody.inverseMass b
  /\ RigidBody.bodyType b' = RigidBody.bodyType b.
Proof. unfold RigidBody.inverseMass, RigidBody.bodyType. now intros -> ->. Qed.

Lemma impulseStep_static_fields (impulse : Vector2.t) (A B h : nat) (W : World) :
  RigidBody._bodyType (bodies (impulseStep impulse A B W) h) = RigidBody._bodyType (bodies W h)
  /\ RigidBody._mass (bodies (impulseStep impulse A B W) h) = RigidBody._mass (bodies W h)
  /\ RigidBody.gameObject (bodies (impulseStep impulse A B W) h)
     = RigidBody.gameObject (bodies W h).
Proof.
  unfold impulseStep. cbv zeta.
  set (W1 := if BodyType_eqb _ DYNAMIC then _ else W).
  assert (H1 : RigidBody._bodyType (bodies W1 h) = RigidBody._bodyType (bodies W h)
               /\ RigidBody._mass (bodies W1 h) = RigidBody._mass (bodies W h)
               /\ RigidBody.gameObject (bodies W1 h) = RigidBody.gameObject (bodies W h)).
  { unfold W1. destruct (BodyType_eqb _ DYNAMIC); [apply assign_velocity_static_fields |].
    repeat split. }
  clearbody W1.
  destruct (BodyType_eqb _ DYNAMIC); [| exact H1].
  destruct (assign_velocity_static_fields B h
              (Vector2.add (RigidBody.velocity (bodies W1 B))
                 (Vector2.multiply impulse (RigidBody.inverseMass (bodies W1 B)))) W1)
    as (-> & -> & ->).
  exact H1.
Qed.

Lemma impulseStep_frame (impulse : Vector2.t) (A B : nat) (W : World) :
  colliders (impulseStep impulse A B W) = colliders W
  /\ objects (impulseStep impulse A B W) = objects W
  /\ events (impulseStep impulse A B W) = events W
  /\ (forall h, h <> A -> h <> B -> bodies (impulseStep impulse A B W) h = bodies W h)
  /\ (forall h, RigidBody._bodyType (bodies W h) <> DYNAMIC ->
                bodies (impulseStep impulse A B W) h = bodies W h).
Proof.
  unfold impulseStep. cbv zeta.
  destruct (BodyType_eqb (RigidBody.bodyType (bodies W A)) DYNAMIC) eqn:EA.
  - set (W1 := CollisionResolver.assign_velocity A _ W).
    assert (HA : RigidBody._bodyType (bodies W A) = DYNAMIC).
    { unfold RigidBody.bodyType in EA. destruct (RigidBody._bodyType (bodies W A));
        simpl in EA; congruence. }
    destruct (BodyType_eqb (RigidBody.bodyType (bodies W1 B)) DYNAMIC) eqn:EB.
    + assert (HB : RigidBody._bodyType (bodies W B) = DYNAMIC).
      { destruct (assign_velocity_static_fields A B
                    (Vector2.subtract (RigidBody.velocity (bodies W A))
                       (Vector2.multiply impulse (RigidBody.inverseMass (bodies W A)))) W)
          as (Ht & _). fold W1 in Ht. unfold RigidBody.bodyType in EB. rewrite Ht in EB.
        destruct (RigidBody._bodyType (bodies W B)); simpl in EB; congruence. }
      repeat split.
      * intros h HhA HhB. rewrite assign_velocity_other by exact HhB.
        unfold W1. now rewrite assign_velocity_other.
      * intros h Hh. rewrite assign_velocity_other by congruence.
        unfold W1. rewrite assign_velocity_other by congruence. reflexivity.
    + repeat split.
      * intros h HhA _. unfold W1. now rewrite assign_velocity_other.
      * intros h Hh. unfold W1. rewrite assign_velocity_other by congruence. reflexivity.
  - destruct (BodyType_eqb (RigidBody.bodyType (bodies W B)) DYNAMIC) eqn:EB.
    + assert (HB : RigidBody._bodyType (bodies W B) = DYNAMIC).
      { unfold RigidBody.bodyType in EB. destruct (RigidBody._bodyType (bodies W B));
          simpl in EB; congruence. }
      repeat split.
      * intros h _ HhB. now rewrite assign_velocity_other.
      * intros h Hh. rewrite assign_velocity_other by congruence. reflexivity.
    + repeat split.
Qed.

Lemma impulseStep_velocities (impulse : Vector2.t) (A B : nat) (W : World) :
  A <> B ->
  RigidBody.velocity (bodies (impulseStep impulse A B W) A)
  = (if BodyType_eqb (RigidBody.bodyType (bodies W A)) DYNAMIC
     then Vector2.subtract (RigidBody.velocity (bodies W A))
            (Vector2.multiply impulse (RigidBody.inverseMass (bodies W A)))
     else RigidBody.velocity (bodies W A))
  /\ RigidBody.velocity (bodies (impulseStep impulse A B W) B)
     = (if BodyType_eqb (RigidBody.bodyType (bodies W B)) DYNAMIC
        then Vector2.add (RigidBody.velocity (bodies W B))
               (Vector2.multiply impulse (RigidBody.inverseMass (bodies W B)))
        else RigidBody.velocity (bodies W B)).
Proof.
  intros Hne. unfold impulseStep. cbv zeta.
  set (W1 := if BodyType_eqb (RigidBody.bodyType (bodies W A)) DYNAMIC then _ else W).
  assert (H1B : bodies W1 B = bodies W B).
  { unfold W1. destruct (BodyType_eqb _ DYNAMIC); [| reflexivity].
    apply assign_velocity_other. congruence. }
  assert (H1A : RigidBody.velocity (bodies W1 A)
                = (if BodyType_eqb (RigidBody.bodyType (bodies W A)) DYNAMIC
                   then Vector2.subtract (RigidBody.velocity (bodies W A))
                          (Vector2.multiply impulse (RigidBody.inverseMass (bodies W A)))
                   else RigidBody.velocity (bodies W A))).
  { unfold W1. destruct (BodyType_eqb _ DYNAMIC); [apply assign_velocity_self | reflexivity]. }
  clearbody W1.
  rewrite H1B. destruct (BodyType_eqb (RigidBody.bodyType (bodies W B)) DYNAMIC).
  - split; [rewrite assign_velocity_other by exact Hne; exact H1A | apply assign_velocity_self].
  - split; [exact H1A | now rewrite H1B].
Qed.

Lemma resolveFriction_steps (info : CollisionInfo.t) (A B : nat) (j : R) (W : World) :
  CollisionResolver.resolveFriction info A B j W = W
  \/ exists s, CollisionResolver.resolveFriction info A B j W
               = impulseStep
                   (Vector2.multiply
                      (Vector2.normalize
                         (Vector2.subtract
                            (Vector2.subtract (RigidBody.velocity (bodies W B))
                               (RigidBody.velocity (bodies W A)))
                            (Vector2.multiply (CollisionInfo.normal info)
                               (Vector2.dot
                                  (Vector2.subtract (RigidBody.velocity (bodies W B))
                                     (RigidBody.velocity (bodies W A)))
                                  (CollisionInfo.normal info))))) s) A B W.
Proof.
  unfold CollisionResolver.resolveFriction. cbv zeta.
  destruct (Rltb _ _); [now left |].
  destruct (Reqb _ _); [now left |].
  right. eexists. reflexivity.
Qed.

Lemma resolveImpulse_steps (info : CollisionInfo.t) (A B : nat) (W : World) :
  let vn := approachSpeed W A B (CollisionInfo.normal info) in
  let e :=
    Rmin (PhysicsMaterial.restitution
            (Collider.material (colliders W (CollisionInfo.colliderA info))))
         (PhysicsMaterial.restitution
            (Collider.material (colliders W (CollisionInfo.colliderB info)))) in
  let total :=
    RigidBody.inverseMass (bodies W A) + RigidBody.inverseMass (bodies W B) in
  let j := - (1 + e) * vn / total in
  CollisionResolver.resolveImpulse info A B W
  = if Rgtb vn 0 then W
    else if Reqb total 0 then W
    else CollisionResolver.resolveFriction info A B j
           (impulseStep (Vector2.multiply (CollisionInfo.normal info) j) A B W).
Proof. reflexivity. Qed.

Lemma momentum_impulseStep (impulse : Vector2.t) (A B : nat) (W : World) :
  A <> B ->
  RigidBody._bodyType (bodies W A) = DYNAMIC ->
  RigidBody._bodyType (bodies W B) = DYNAMIC ->
  RigidBody._mass (bodies W A) <> 0 ->
  RigidBody._mass (bodies W B) <> 0 ->
  momentum (impulseStep impulse A B W) A B = momentum W A B.
Proof.
  intros Hne HA HB HmA HmB. unfold momentum.
  destruct (impulseStep_velocities impulse A B W Hne) as [-> ->].
  destruct (impulseStep_static_fields impulse A B A W) as (_ & -> & _).
  destruct (impulseStep_static_fields impulse A B B W) as (_ & -> & _).
  unfold RigidBody.bodyType, RigidBody.inverseMass. rewrite HA, HB. cbn [BodyType_eqb].
  destruct impulse as [ix iy].
  destruct (RigidBody.velocity (bodies W A)) as [ax ay].
  destruct (RigidBody.velocity (bodies W B)) as [bx by_].
  unfold Vector2.add, Vector2.subtract, Vector2.multiply. cbn.
  apply vec_eq; field; repeat split; assumption.
Qed.

Lemma positionalCorrection_bodies (K : PhysicsConstantsT) (info : CollisionInfo.t)
  (A B : nat) (W : World) :
  bodies (CollisionResolver.resolvePositionalCorrection K info A B W) = bodies W
  /\ colliders (CollisionResolver.resolvePositionalCorrection K info A B W) = colliders W
  /\ events (CollisionResolver.resolvePositionalCorrection K info A B W) = events W.
Proof.
  unfold CollisionResolver.resolvePositionalCorrection. cbv zeta.
  destruct (Rleb _ _); [repeat split |].
  destruct (Reqb _ _); [repeat split |].
  destruct (RigidBody.gameObject (bodies W A));
    [destruct (BodyType_eqb (RigidBody.bodyType (bodies W A)) DYNAMIC) |];
    cbn; split_match; repeat split.
Qed.

Lemma momentum_resolveFriction (info : CollisionInfo.t) (A B : nat) (j : R) (W : World) :
  A <> B ->
  RigidBody._bodyType (bodies W A) = DYNAMIC ->
  RigidBody._bodyType (bodies W B) = DYNAMIC ->
  RigidBody._mass (bodies W A) <> 0 ->
  RigidBody._mass (bodies W B) <> 0 ->
  momentum (CollisionResolver.resolveFriction info A B j W) A B = momentum W A B.
Proof.
  intros Hne HA HB HmA HmB.
  destruct (resolveFriction_steps info A B j W) as [-> | [s ->]]; [reflexivity |].
  now apply momentum_impulseStep.
Qed.

(** The impulse and the friction of [resolve] keep the linear momentum of
    two distinct dynamic bodies. *)
Lemma resolve_conserves_momentum (K : PhysicsConstantsT) (info : CollisionInfo.t)
  (A B : nat) (W : World) :
  CollisionResolver.bodyOf W (CollisionInfo.colliderA info) = Some A ->
  CollisionResolver.bodyOf W (CollisionInfo.colliderB info) = Some B ->
  A <> B ->
  RigidBody._bodyType (bodies W A) = DYNAMIC ->
  RigidBody._bodyType (bodies W B) = DYNAMIC ->
  RigidBody._mass (bodies W A) <> 0 ->
  RigidBody._mass (bodies W B) <> 0 ->
  momentum (CollisionResolver.resolve K info W) A B = momentum W A B.
Proof.
  intros HbA HbB Hne HA HB HmA HmB. unfold CollisionResolver.resolve.
  rewrite HbA, HbB. unfold RigidBody.bodyType. rewrite HA, HB. cbn [BodyType_eqb andb].
  set (W0 := CollisionResolver.resolvePositionalCorrection K info A B W).
  destruct (positionalCorrection_bodies K info A B W) as (Hb0 & _). fold W0 in Hb0.
  assert (Hm0 : momentum W0 A B = momentum W A B) by (unfold momentum; now rewrite Hb0).
  rewrite <- Hm0. clearbody W0. rewrite <- Hb0 in HA, HB, HmA, HmB. clear Hb0 Hm0.
  rewrite resolveImpulse_steps. cbv zeta.
  destruct (Rgtb _ _); [reflexivity |].
  destruct (Reqb _ _); [reflexivity |].
  match goal with
  | |- context [impulseStep ?I A B W0] =>
      pose proof (impulseStep_static_fields I A B A W0) as (HtA & HmA' & _);
      pose proof (impulseStep_static_fields I A B B W0) as (HtB & HmB' & _);
      pose proof (momentum_impulseStep I A B W0 Hne HA HB HmA HmB) as H1
  end.
  rewrite momentum_resolveFriction; [exact H1 | exact Hne | | | |]; congruence.
Qed.

(** A witness of [resolve_conserves_momentum]: the two bodies of
    [headOnWorld]. *)
Lemma resolve_conserves_momentum_witness :
  momentum (CollisionResolver.resolve PhysicsConstants headOnInfo headOnWorld) 1 2
  = momentum headOnWorld 1 2.
Proof.
  apply (resolve_conserves_momentum PhysicsConstants headOnInfo 1 2 headOnWorld);
    [reflexivity | reflexivity | discriminate | reflexivity | reflexivity
    | cbn; lra | cbn; lra].
Defined.

Lemma BodyType_eqb_eq (a b : BodyType) : BodyType_eqb a b = true <-> a = b.
Proof. destruct a, b; simpl; split; intros; congruence. Qed.

(** [resolve] gives no velocity and no displacement to a body that is not
    dynamic, and changes neither a collider nor the log of callbacks. *)
Lemma resolve_frame (K : PhysicsConstantsT) (info : CollisionInfo.t) (W : World) :
  let W' := CollisionResolver.resolve K info W in
  colliders W' = colliders W
  /\ events W' = events W
  /\ (forall h, RigidBody._bodyType (bodies W h) <> DYNAMIC -> bodies W' h = bodies W h)
  /\ (forall g,
        (forall h, RigidBody.gameObject (bodies W h) = Some g ->
                   RigidBody._bodyType (bodies W h) <> DYNAMIC) ->
        objects W' g = objects W g).
Proof.
  cbv zeta. unfold CollisionResolver.resolve.
  destruct (CollisionResolver.bodyOf W _) as [A |]; [| repeat split].
  destruct (CollisionResolver.bodyOf W _) as [B |]; [| repeat split].
  destruct (_ && _); [repeat split |].
  set (W0 := CollisionResolver.resolvePositionalCorrection K info A B W).
  assert (H0 : bodies W0 = bodies W /\ colliders W0 = colliders W /\ events W0 = events W)
    by apply positionalCorrection_bodies.
  destruct H0 as (Hb0 & Hc0 & He0).
  assert (Ho0 : forall g,
             (forall h, RigidBody.gameObject (bodies W h) = Some g ->
                        RigidBody._bodyType (bodies W h) <> DYNAMIC) ->
             objects W0 g = objects W g).
  { intros g Hg. unfold W0, CollisionResolver.resolvePositionalCorrection. cbv zeta.
    destruct (Rleb _ _); [reflexivity |].
    destruct (Reqb _ _); [reflexivity |].
    set (corr := Vector2.multiply _ _).
    set (W1 := match RigidBody.gameObject (bodies W A) with Some _ => _ | None => W end).
    assert (H1 : bodies W1 = bodies W /\ objects W1 g = objects W g).
    { unfold W1. destruct (RigidBody.gameObject (bodies W A)) as [gA |] eqn:EgA; [| now split].
      destruct (BodyType_eqb _ DYNAMIC) eqn:EA; [| now split].
      apply BodyType_eqb_eq in EA. split; [reflexivity |].
      unfold CollisionResolver.set_transform_position. cbn. unfold upd.
      destruct (Nat.eqb g gA) eqn:E; [| reflexivity].
      apply Nat.eqb_eq in E. subst gA. exfalso. exact (Hg A EgA EA). }
    destruct H1 as [Hb1 Ho1]. clearbody W1. rewrite Hb1.
    destruct (RigidBody.gameObject (bodies W B)) as [gB |] eqn:EgB; [| exact Ho1].
    destruct (BodyType_eqb _ DYNAMIC) eqn:EB; [| exact Ho1].
    apply BodyType_eqb_eq in EB.
    unfold CollisionResolver.set_transform_position. cbn. unfold upd.
    destruct (Nat.eqb g gB) eqn:E; [| exact Ho1].
    apply Nat.eqb_eq in E. subst gB. exfalso. exact (Hg B EgB EB). }
  clearbody W0.
  rewrite resolveImpulse_steps. cbv zeta.
  assert (Hstep : forall I W1,
             colliders (impulseStep I A B W1) = colliders W1
             /\ events (impulseStep I A B W1) = events W1
             /\ objects (impulseStep I A B W1) = objects W1
             /\ (forall h, RigidBody._bodyType (bodies W1 h) <> DYNAMIC ->
                           bodies (impulseStep I A B W1) h = bodies W1 h)).
  { intros I W1. destruct (impulseStep_frame I A B W1) as (Hc & Ho & He & _ & Hb).
    repeat split; assumption. }
  assert (Hfr : forall j W1,
             colliders (CollisionResolver.resolveFriction info A B j W1) = colliders W1
             /\ events (CollisionResolver.resolveFriction info A B j W1) = events W1
             /\ objects (CollisionResolver.resolveFriction info A B j W1) = objects W1
             /\ (forall h, RigidBody._bodyType (bodies W1 h) <> DYNAMIC ->
                           bodies (CollisionResolver.resolveFriction info A B j W1) h
                           = bodies W1 h)).
  { intros j W1. destruct (resolveFriction_steps info A B j W1) as [-> | [s ->]];
      [repeat split | apply Hstep]. }
  destruct (Rgtb _ _).
  { rewrite Hb0, Hc0, He0. repeat split. exact Ho0. }
  destruct (Reqb _ _).
  { rewrite Hb0, Hc0, He0. repeat split. exact Ho0. }
  match goal with
  | |- context [CollisionResolver.resolveFriction info A B ?j (impulseStep ?I A B W0)] =>
      pose proof (Hfr j (impulseStep I A B W0)) as (Hc2 & He2 & Ho2 & Hb2);
      pose proof (Hstep I W0) as (Hc1 & He1 & Ho1 & Hb1);
      pose proof (fun h => proj1 (impulseStep_static_fields I A B h W0)) as Ht1;
      set (W1 := impulseStep I A B W0) in *;
      set (W2 := CollisionResolver.resolveFriction info A B j W1) in *
  end.
  clearbody W2. clearbody W1.
  rewrite Hc2, He2, Ho2, Hc1, He1, Ho1, Hc0, He0.
  repeat split.
  - intros h Hh. rewrite Hb2 by (rewrite Ht1, Hb0; exact Hh).
    rewrite Hb1 by (rewrite Hb0; exact Hh). now rewrite Hb0.
  - exact Ho0.
Qed.

Lemma normalize_zero : Vector2.normalize Vector2.zero = Vector2.zero.
Proof.
  unfold Vector2.normalize.
  destruct (Req_dec_T (Vector2.length Vector2.zero) 0) as [_ | Hn]; [reflexivity |].
  exfalso. apply Hn. now apply length_zero_iff.
Qed.

Lemma dot_normalize_orthogonal (v n : Vector2.t) :
  Vector2.dot v n = 0 -> Vector2.dot (Vector2.normalize v) n = 0.
Proof.
  intros H. destruct (Req_dec_T (Vector2.length v) 0) as [Hl | Hl].
  - apply length_zero_iff in Hl. subst v. rewrite normalize_zero.
    unfold Vector2.dot. simpl. ring.
  - rewrite normalize_nonzero by exact Hl. unfold Vector2.dot in *. simpl.
    replace (Vector2.x v / Vector2.length v * Vector2.x n
             + Vector2.y v / Vector2.length v * Vector2.y n)
      with ((Vector2.x v * Vector2.x n + Vector2.y v * Vector2.y n) / Vector2.length v)
      by (field; exact Hl).
    rewrite H. field. exact Hl.
Qed.

Lemma dot_unit (n : Vector2.t) : Vector2.length n = 1 -> Vector2.dot n n = 1.
Proof.
  intros H. pose proof (length_sqr n) as Hs. rewrite H in Hs.
  unfold Vector2.lengthSquared in Hs. unfold Vector2.dot. lra.
Qed.

Lemma approachSpeed_impulseStep (impulse n : Vector2.t) (A B : nat) (W : World) :
  A <> B ->
  RigidBody._bodyType (bodies W A) = DYNAMIC ->
  RigidBody._bodyType (bodies W B) = DYNAMIC ->
  approachSpeed (impulseStep impulse A B W) A B n
  = approachSpeed W A B n
    + Vector2.dot impulse n
      * (RigidBody.inverseMass (bodies W A) + RigidBody.inverseMass (bodies W B)).
Proof.
  intros Hne HA HB. unfold approachSpeed.
  destruct (impulseStep_velocities impulse A B W Hne) as [-> ->].
  unfold RigidBody.bodyType. rewrite HA, HB. cbn [BodyType_eqb].
  unfold Vector2.dot, Vector2.subtract, Vector2.add, Vector2.multiply. simpl. ring.
Qed.

(** The restitution law of [resolve], for two distinct dynamic bodies of
    positive mass and a unit normal: bodies that approach each other along
    the normal leave with the approach speed reversed and scaled by the
    smaller restitution of the two materials, friction included; bodies that
    separate keep their velocities. *)
Lemma resolve_restitution (K : PhysicsConstantsT) (info : CollisionInfo.t)
  (A B : nat) (W : World) :
  CollisionResolver.bodyOf W (CollisionInfo.colliderA info) = Some A ->
  CollisionResolver.bodyOf W (CollisionInfo.colliderB info) = Some B ->
  A <> B ->
  RigidBody._bodyType (bodies W A) = DYNAMIC ->
  RigidBody._bodyType (bodies W B) = DYNAMIC ->
  0 < RigidBody._mass (bodies W A) ->
  0 < RigidBody._mass (bodies W B) ->
  Vector2.length (CollisionInfo.normal info) = 1 ->
  let n := CollisionInfo.normal info in
  let e :=
    Rmin (PhysicsMaterial.restitution
            (Collider.material (colliders W (CollisionInfo.colliderA info))))
         (PhysicsMaterial.restitution
            (Collider.material (colliders W (CollisionInfo.colliderB info)))) in
  let W' := CollisionResolver.resolve K info W in
  (approachSpeed W A B n <= 0 -> approachSpeed W' A B n = - e * approachSpeed W A B n)
  /\ (0 < approachSpeed W A B n -> bodies W' = bodies W).
Proof.
  intros HbA HbB Hne HA HB HmA HmB Hn n e W'. subst n e W'.
  unfold CollisionResolver.resolve.
  rewrite HbA, HbB. unfold RigidBody.bodyType. rewrite HA, HB. cbn [BodyType_eqb andb].
  destruct (positionalCorrection_bodies K info A B W) as (Hb0 & Hc0 & _).
  set (W0 := CollisionResolver.resolvePositionalCorrection K info A B W) in *.
  assert (Hv0 : forall m, approachSpeed W0 A B m = approachSpeed W A B m)
    by (intros m; unfold approachSpeed; now rewrite Hb0).
  rewrite <- Hc0, <- !Hv0. rewrite <- Hb0 in HA, HB, HmA, HmB. rewrite <- Hb0.
  clearbody W0. clear Hb0 Hc0 Hv0 HbA HbB.
  rewrite resolveImpulse_steps. cbv zeta.
  set (n := CollisionInfo.normal info) in *.
  set (vn := approachSpeed W0 A B n).
  set (e := Rmin _ _).
  set (total := RigidBody.inverseMass (bodies W0 A) + RigidBody.inverseMass (bodies W0 B)).
  assert (Htot : 0 < total).
  { unfold total, RigidBody.inverseMass. rewrite HA, HB. cbn [BodyType_eqb].
    assert (0 < 1 / RigidBody._mass (bodies W0 A)) by (apply Rdiv_lt_0_compat; lra).
    assert (0 < 1 / RigidBody._mass (bodies W0 B)) by (apply Rdiv_lt_0_compat; lra).
    lra. }
  unfold Rgtb. split.
  - intros Hvn. rewrite (proj2 (Rltb_false 0 vn) Hvn).
    rewrite (proj2 (Reqb_false total 0)) by lra.
    set (j := - (1 + e) * vn / total).
    set (W1 := impulseStep (Vector2.multiply n j) A B W0).
    assert (H1 : approachSpeed W1 A B n = - e * vn).
    { unfold W1. rewrite approachSpeed_impulseStep by assumption. fold vn total.
      replace (Vector2.dot (Vector2.multiply n j) n) with (j * Vector2.dot n n)
        by (unfold Vector2.dot, Vector2.multiply; simpl; ring).
      rewrite (dot_unit n Hn). unfold j. field. lra. }
    destruct (impulseStep_static_fields (Vector2.multiply n j) A B A W0) as (HtA & _).
    destruct (impulseStep_static_fields (Vector2.multiply n j) A B B W0) as (HtB & _).
    fold W1 in HtA, HtB.
    destruct (resolveFriction_steps info A B j W1) as [-> | [s ->]]; [exact H1 |].
    rewrite approachSpeed_impulseStep by congruence. rewrite H1.
    match goal with
    | |- context [Vector2.dot (Vector2.multiply (Vector2.normalize ?tv) s) ?m] =>
        replace (Vector2.dot (Vector2.multiply (Vector2.normalize tv) s) m)
          with (s * Vector2.dot (Vector2.normalize tv) m)
          by (unfold Vector2.dot, Vector2.multiply; simpl; ring);
        rewrite (dot_normalize_orthogonal tv m)
    end.
    + ring.
    + fold n. pose proof (dot_unit n Hn) as Hnn.
      unfold Vector2.dot, Vector2.subtract, Vector2.multiply in *. simpl in *.
      set (rx := Vector2.x (RigidBody.velocity (bodies W1 B))
                 - Vector2.x (RigidBody.velocity (bodies W1 A))).
      set (ry := Vector2.y (RigidBody.velocity (bodies W1 B))
                 - Vector2.y (RigidBody.velocity (bodies W1 A))).
      replace ((rx - Vector2.x n * (rx * Vector2.x n + ry * Vector2.y n)) * Vector2.x n
               + (ry - Vector2.y n * (rx * Vector2.x n + ry * Vector2.y n)) * Vector2.y n)
        with ((rx * Vector2.x n + ry * Vector2.y n)
              * (1 - (Vector2.x n * Vector2.x n + Vector2.y n * Vector2.y n))) by ring.
      rewrite Hnn. ring.
  - intros Hvn. rewrite (proj2 (Rltb_true 0 vn) Hvn). reflexivity.
Qed.

(** The positional correction of two dynamic bodies on distinct game objects:
    nothing moves for a penetration within the slop; otherwise the two
    positions move apart along the normal by [CORRECTION_PERCENT] of the
    penetration beyond the slop, and the mass-weighted sum of the two
    displacements is zero. *)
Lemma positionalCorrection_separates (K : PhysicsConstantsT) (info : CollisionInfo.t)
  (A B gA gB : nat) (W : World) :
  gA <> gB ->
  RigidBody.gameObject (bodies W A) = Some gA ->
  RigidBody.gameObject (bodies W B) = Some gB ->
  RigidBody._bodyType (bodies W A) = DYNAMIC ->
  RigidBody._bodyType (bodies W B) = DYNAMIC ->
  0 < RigidBody._mass (bodies W A) ->
  0 < RigidBody._mass (bodies W B) ->
  let W' := CollisionResolver.resolvePositionalCorrection K info A B W in
  let pos := fun (V : World) g => Transform.position (GameObject.transform (objects V g)) in
  let depth := Rmax (CollisionInfo.penetration info - CORRECTION_SLOP K) 0 in
  (CollisionInfo.penetration info <= CORRECTION_SLOP K -> W' = W)
  /\ Vector2.subtract (pos W' gB) (pos W' gA)
     = Vector2.add (Vector2.subtract (pos W gB) (pos W gA))
         (Vector2.multiply (CollisionInfo.normal info) (depth * CORRECTION_PERCENT K))
  /\ Vector2.add
       (Vector2.multiply (Vector2.subtract (pos W' gA) (pos W gA)) (RigidBody._mass (bodies W A)))
       (Vector2.multiply (Vector2.subtract (pos W' gB) (pos W gB)) (RigidBody._mass (bodies W B)))
     = Vector2.zero.
Proof.
  intros Hg HgA HgB HA HB HmA HmB W' pos depth. subst W' pos.
  unfold CollisionResolver.resolvePositionalCorrection. cbv zeta. fold depth.
  assert (Hd0 : 0 <= depth) by apply Rmax_r.
  destruct (Rleb depth 0) eqn:Hle.
  - apply Rleb_true in Hle. assert (Hd : depth = 0) by lra. rewrite Hd.
    split; [reflexivity |]. split.
    + unfold Vector2.add, Vector2.subtract, Vector2.multiply. simpl. apply vec_eq; ring.
    + unfold Vector2.add, Vector2.subtract, Vector2.multiply, Vector2.zero. simpl.
      apply vec_eq; ring.
  - apply Rleb_false in Hle.
    split.
    { intros Hp. exfalso. unfold depth, Rmax in Hle. destruct (Rle_dec _ _); lra. }
    set (total := RigidBody.inverseMass (bodies W A) + RigidBody.inverseMass (bodies W B)).
    assert (HiA : RigidBody.inverseMass (bodies W A) = 1 / RigidBody._mass (bodies W A))
      by (unfold RigidBody.inverseMass; now rewrite HA).
    assert (HiB : RigidBody.inverseMass (bodies W B) = 1 / RigidBody._mass (bodies W B))
      by (unfold RigidBody.inverseMass; now rewrite HB).
    assert (Htot : 0 < total).
    { unfold total. rewrite HiA, HiB.
      assert (0 < 1 / RigidBody._mass (bodies W A)) by (apply Rdiv_lt_0_compat; lra).
      assert (0 < 1 / RigidBody._mass (bodies W B)) by (apply Rdiv_lt_0_compat; lra).
      lra. }
    rewrite (proj2 (Reqb_false total 0)) by lra.
    rewrite HgA. unfold RigidBody.bodyType. rewrite HA. cbn [BodyType_eqb].
    unfold CollisionResolver.set_transform_position. cbn -[Rmax].
    rewrite HgB. rewrite HB. cbn -[Rmax]. unfold upd.
    rewrite !Nat.eqb_refl.
    assert (E1 : Nat.eqb gB gA = false) by (apply Nat.eqb_neq; congruence).
    assert (E2 : Nat.eqb gA gB = false) by (apply Nat.eqb_neq; congruence).
    rewrite ?E1, ?E2. cbn -[Rmax]. rewrite ?E1, ?E2. cbn -[Rmax].
    fold depth. fold total.
    unfold Vector2.add, Vector2.subtract, Vector2.multiply, Vector2.zero. simpl.
    unfold total. rewrite HiA, HiB.
    split; apply vec_eq; field; lra.
Qed.

Lemma headOn_unit_normal : Vector2.length (CollisionInfo.normal headOnInfo) = 1.
Proof. cbn. apply length_x_axis. lra. Qed.

(** A witness of [resolve_restitution]: the two bodies of [headOnWorld]. *)
Lemma resolve_restitution_witness :
  (approachSpeed headOnWorld 1 2 (Vector2.mk 1 0) <= 0 ->
   approachSpeed (CollisionResolver.resolve PhysicsConstants headOnInfo headOnWorld) 1 2
     (Vector2.mk 1 0)
   = - Rmin (2 / 10) (2 / 10) * approachSpeed headOnWorld 1 2 (Vector2.mk 1 0))
  /\ (0 < approachSpeed headOnWorld 1 2 (Vector2.mk 1 0) ->
      bodies (CollisionResolver.resolve PhysicsConstants headOnInfo headOnWorld)
      = bodies headOnWorld).
Proof.
  apply (resolve_restitution PhysicsConstants headOnInfo 1 2 headOnWorld);
    [reflexivity | reflexivity | discriminate | reflexivity | reflexivity
    | cbn; lra | cbn; lra | exact headOn_unit_normal].
Defined.

(** A witness of [positionalCorrection_separates]: the two bodies of
    [headOnWorld]. *)
Lemma positionalCorrection_separates_witness :
  let W' := CollisionResolver.resolvePositionalCorrection PhysicsConstants headOnInfo 1 2
              headOnWorld in
  let pos := fun (V : World) g => Transform.position (GameObject.transform (objects V g)) in
  let depth := Rmax (1 / 10 - 5 / 100) 0 in
  (1 / 10 <= 5 / 100 -> W' = headOnWorld)
  /\ Vector2.subtract (pos W' 2%nat) (pos W' 1%nat)
     = Vector2.add (Vector2.subtract (pos headOnWorld 2%nat) (pos headOnWorld 1%nat))
         (Vector2.multiply (Vector2.mk 1 0) (depth * (4 / 10)))
  /\ Vector2.add
       (Vector2.multiply (Vector2.subtract (pos W' 1%nat) (pos headOnWorld 1%nat)) 1)
       (Vector2.multiply (Vector2.subtract (pos W' 2%nat) (pos headOnWorld 2%nat)) 2)
     = Vector2.zero.
Proof.
  apply (positionalCorrection_separates PhysicsConstants headOnInfo 1 2 1 2 headOnWorld);
    [discriminate | reflexivity | reflexivity | reflexivity | reflexivity
    | cbn; lra | cbn; lra].
Defined.

(** ** Raycast: the hits, their order and the closest one *)


(** The point at which a ray hits a circle lies on the circle, for a
    direction that is not zero. *)
Lemma raycastCircle_hit_on_circle (origin dir : Vector2.t) (c : nat) (maxDistance : R)
  (W : World) (hit : RaycastHit) :
  Vector2.dot dir dir <> 0 ->
  Raycast.raycastCircle origin dir c maxDistance W = Some hit ->
  Vector2.lengthSquared (Vector2.subtract (hit_point hit) (Collider_getWorldPosition W c))
  = Collider.radius (colliders W c) * Collider.radius (colliders W c).
Proof.
  intros Ha. unfold Raycast.raycastCircle. cbv zeta.
  set (center := Collider_getWorldPosition W c).
  set (r := Collider.radius (colliders W c)).
  set (oc := Vector2.subtract origin center).
  set (a := Vector2.dot dir dir) in *.
  set (b := 2 * Vector2.dot oc dir).
  set (cc := Vector2.dot oc oc - r * r).
  set (D := b * b - 4 * a * cc).
  destruct (Rltb D 0) eqn:ED; [discriminate |]. apply Rltb_false in ED.
  pose proof (sqrt_sqrt D ED) as Hs. set (s := sqrt D) in *.
  match goal with
  | |- context [if Rltb ?t0 0 then ?t1 else ?t0] => set (t := if Rltb t0 0 then t1 else t0)
  end.
  assert (Hroot : a * t * t + b * t + cc = 0).
  { unfold t. destruct (Rltb _ 0).
    - replace cc with ((b * b - D) / (4 * a)) by (unfold D; field; exact Ha).
      rewrite <- Hs. field. exact Ha.
    - replace cc with ((b * b - D) / (4 * a)) by (unfold D; field; exact Ha).
      rewrite <- Hs. field. exact Ha. }
  destruct (Rltb t 0 || Rgtb t maxDistance); [discriminate |].
  intros Heq; injection Heq as <-. cbn [hit_point].
  clearbody t. unfold a, b, cc, oc in Hroot.
  unfold Vector2.lengthSquared, Vector2.subtract, Vector2.add, Vector2.multiply, Vector2.dot in *.
  simpl in *. nra.
Qed.









Lemma circleRayWorld_hit :
  Raycast.raycastCircle (Vector2.mk 0 0) (Vector2.mk 1 0) 1 10 circleRayWorld <> None.
Proof.
  unfold Raycast.raycastCircle, Collider_getWorldPosition. cbn -[sqrt Rltb].
  unfold Vector2.dot, Vector2.subtract. cbn -[sqrt Rltb].
  unfold Rgtb.
  match goal with
  | |- context [sqrt ?d] =>
      replace (sqrt d) with 2
        by (symmetry; replace d with (2 * 2) by lra; apply sqrt_square; lra)
  end.
  repeat (Rstep; cbn -[Rltb]). discriminate.
Qed.

(** A witness of [raycastCircle_hit_on_circle]: the ray from the origin
    along x against the circle of [circleRayWorld]. *)
Lemma raycastCircle_hit_on_circle_witness :
  exists hit,
    Raycast.raycastCircle (Vector2.mk 0 0) (Vector2.mk 1 0) 1 10 circleRayWorld = Some hit
    /\ Vector2.lengthSquared
         (Vector2.subtract (hit_point hit) (Collider_getWorldPosition circleRayWorld 1))
       = 1 * 1.
Proof.
  pose proof circleRayWorld_hit as Hne.
  destruct (Raycast.raycastCircle (Vector2.mk 0 0) (Vector2.mk 1 0) 1 10 circleRayWorld)
    as [hit |] eqn:Hr; [| now elim Hne].
  exists hit. split; [reflexivity |].
  apply (raycastCircle_hit_on_circle (Vector2.mk 0 0) (Vector2.mk 1 0) 1 10 circleRayWorld hit);
    [unfold Vector2.dot; cbn; lra | exact Hr].
Defined.

(** ** PhysicsManager: reset and the broad phase *)

Lemma positionSolver_no_entries (K : PhysicsConstantsT) (n : nat) (W : World) :
  _colliders W = [] -> PhysicsManager.positionSolver K n [] W = W.
Proof.
  intros Hc. induction n as [| n IH]; cbn [PhysicsManager.positionSolver]; [reflexivity |].
  unfold PhysicsManager.updateAllBounds. rewrite Hc. cbn [fold_left]. exact IH.
Qed.


Lemma updateAllBounds_no_colliders (W : World) :
  _colliders W = [] -> PhysicsManager.updateAllBounds W = W.
Proof. intros Hc. unfold PhysicsManager.updateAllBounds. now rewrite Hc. Qed.

Lemma fixedUpdate_no_registrations (K : PhysicsConstantsT) (dt : R) (W : World) :
  _rigidbodies W = [] -> _colliders W = [] ->
  PhysicsManager.fixedUpdate K dt W = with_collisionPairs [] W.
Proof.
  intros Hb Hc. unfold PhysicsManager.fixedUpdate. cbv zeta.
  rewrite Hb. cbn [fold_left]. rewrite (updateAllBounds_no_colliders W Hc).
  unfold PhysicsManager.enabledColliders. rewrite Hc.
  cbn [fold_left filter PhysicsManager.allPairs]. rewrite Hc.
  cbn [fold_left filter PhysicsManager.allPairs].
  rewrite positionSolver_no_entries by exact Hc. cbn [fold_left].
  unfold PhysicsManager.dispatchCollisionEvents, PhysicsManager.enabledColliders.
  rewrite Hc. reflexivity.
Qed.

(** After [reset] the manager is inert until something is registered again:
    an [update] moves no game object, changes no body and no collider, and
    calls no callback, whatever the frame time. *)
Lemma update_after_reset (K : PhysicsConstantsT) (fuel : nat) (deltaTime : R)
  (W W' : World) (n : nat) :
  PhysicsManager.update K fuel deltaTime (PhysicsManager.reset W) = Some (W', n) ->
  objects W' = objects W /\ bodies W' = bodies W /\ colliders W' = colliders W
  /\ events W' = events W /\ _collisionPairs W' = [].
Proof.
  set (inert := fun V : World =>
                  _rigidbodies V = [] /\ _colliders V = [] /\ _collisionPairs V = []
                  /\ objects V = objects W /\ bodies V = bodies W
                  /\ colliders V = colliders W /\ events V = events W).
  assert (Hloop : forall f V V' k,
             inert V -> PhysicsManager.updateLoop K f V = Some (V', k) -> inert V').
  { induction f as [| f IH]; intros V V' k HV; [intros Hd; discriminate |].
    change (PhysicsManager.updateLoop K (S f) V)
      with (if Rgeb (_accumulator V) (_fixedTimestep V) then
              let W1 := PhysicsManager.fixedUpdate K (_fixedTimestep V) V in
              match PhysicsManager.updateLoop K f
                      (with_accumulator (_accumulator W1 - _fixedTimestep W1) W1) with
              | Some (W2, j) => Some (W2, S j)
              | None => None
              end
            else Some (V, O)).
    destruct (Rgeb _ _).
    - destruct HV as (Hb & Hc & Hp & Ho & Hbo & Hco & He). cbv zeta.
      rewrite (fixedUpdate_no_registrations K _ V Hb Hc).
      match goal with
      | |- context [PhysicsManager.updateLoop K f ?V1] =>
          destruct (PhysicsManager.updateLoop K f V1) as [[V2 k2] |] eqn:E;
          [| intros Hd; discriminate];
          intros Heq; injection Heq as <- _; apply (IH V1 V2 k2); [| exact E]
      end.
      repeat split; assumption.
    - intros Heq; injection Heq as <- _. exact HV. }
  unfold PhysicsManager.update. cbv zeta. intros Hu.
  match type of Hu with
  | PhysicsManager.updateLoop K fuel ?V = _ => assert (HV : inert V)
  end.
  { destruct (Rgtb _ _); repeat split. }
  destruct (Hloop _ _ _ _ HV Hu) as (_ & _ & Hp & Ho & Hb & Hc & He).
  repeat split; assumption.
Qed.

(** Registration keeps the set of colliders free of duplicates, and so does
    the filter of the enabled ones. *)
Lemma registerCollider_NoDup (c : nat) (W : World) :
  NoDup (_colliders W) ->
  NoDup (_colliders (PhysicsManager.registerCollider c W))
  /\ NoDup (_colliders (PhysicsManager.unregisterCollider c W))
  /\ NoDup (PhysicsManager.enabledColliders W)
  /\ In c (_colliders (PhysicsManager.registerCollider c W))
  /\ ~ In c (_colliders (PhysicsManager.unregisterCollider c W)).
Proof.
  intros Hnd. unfold PhysicsManager.registerCollider, PhysicsManager.unregisterCollider,
    PhysicsManager.enabledColliders, PhysicsManager.set_delete, set_add. cbn.
  split; [| split; [| split; [| split]]].
  - destruct (set_has (_colliders W) c) eqn:E; [exact Hnd |].
    apply NoDup_app; [exact Hnd | constructor; [intros [] | constructor] |].
    intros x Hin [Hk | []]. subst x. unfold set_has in E.
    assert (existsb (Nat.eqb c) (_colliders W) = true); [| congruence].
    apply existsb_exists. exists c. split; [exact Hin | apply Nat.eqb_refl].
  - now apply NoDup_filter.
  - now apply NoDup_filter.
  - destruct (set_has (_colliders W) c) eqn:E.
    + unfold set_has in E. apply existsb_exists in E. destruct E as (x & Hin & Hx).
      apply Nat.eqb_eq in Hx. now subst.
    + apply in_or_app. right. now left.
  - intros Hin. apply filter_In in Hin. destruct Hin as [_ Hn].
    rewrite Nat.eqb_refl in Hn. discriminate.
Qed.

Lemma allPairs_In (l : list nat) (a b : nat) :
  NoDup l -> In (a, b) (PhysicsManager.allPairs l) -> In a l /\ In b l /\ a <> b.
Proof.
  induction l as [| x l IH]; intros Hnd; cbn [PhysicsManager.allPairs]; [intros [] |].
  inversion Hnd as [| ? ? Hx Hnd']; subst.
  intros Hin. apply in_app_or in Hin. destruct Hin as [Hin | Hin].
  - apply in_map_iff in Hin. destruct Hin as (y & Heq & Hy). injection Heq as <- <-.
    split; [now left | split; [now right |]]. intros ->. contradiction.
  - destruct (IH Hnd' Hin) as (Ha & Hb & Hne). repeat split; [now right | now right | exact Hne].
Qed.

Lemma collisionPairKey_NoDup (x : nat) (l : list nat) :
  NoDup l -> ~ In x l -> NoDup (map (fun y => PhysicsManager.collisionPairKey x y) l).
Proof.
  induction l as [| y l IH]; intros Hnd Hx; cbn [map]; [constructor |].
  inversion Hnd as [| ? ? Hy Hnd']; subst.
  constructor.
  - intros Hin. apply in_map_iff in Hin. destruct Hin as (z & Heq & Hz).
    apply collisionPairKey_eq_iff in Heq.
    destruct Heq as [[_ ->] | [-> ->]]; [contradiction | apply Hx; now left].
  - apply IH; [exact Hnd' |]. intros Hin. apply Hx. now right.
Qed.

(** The broad phase lists every unordered pair of distinct colliders of a
    duplicate-free list exactly once: each listed pair has two distinct
    members of the list, each two distinct members are listed in one of the
    two orders, and no two listed pairs have the same key. *)
Lemma allPairs_each_pair_once (l : list nat) :
  NoDup l ->
  (forall a b, In (a, b) (PhysicsManager.allPairs l) -> In a l /\ In b l /\ a <> b)
  /\ (forall a b, In a l -> In b l -> a <> b ->
        In (a, b) (PhysicsManager.allPairs l) \/ In (b, a) (PhysicsManager.allPairs l))
  /\ NoDup (map (fun p => PhysicsManager.collisionPairKey (fst p) (snd p))
              (PhysicsManager.allPairs l)).
Proof.
  intros Hnd. split; [intros a b; now apply allPairs_In |]. split.
  - induction l as [| x l IH]; intros a b Ha Hb Hne; [destruct Ha |].
    inversion Hnd as [| ? ? Hx Hnd']; subst. cbn [PhysicsManager.allPairs].
    destruct Ha as [<- | Ha], Hb as [<- | Hb].
    + contradiction.
    + left. apply in_or_app. left. apply in_map_iff. now exists b.
    + right. apply in_or_app. left. apply in_map_iff. now exists a.
    + destruct (IH Hnd' a b Ha Hb Hne) as [H | H]; [left | right]; apply in_or_app; now right.
  - induction l as [| x l IH]; cbn [PhysicsManager.allPairs map]; [constructor |].
    inversion Hnd as [| ? ? Hx Hnd']; subst.
    rewrite map_app, map_map. cbn [fst snd].
    apply NoDup_app.
    + now apply collisionPairKey_NoDup.
    + now apply IH.
    + intros k Hk1 Hk2. apply in_map_iff in Hk1. destruct Hk1 as (y & Heq1 & Hy).
      apply in_map_iff in Hk2. destruct Hk2 as ([a b] & Heq2 & Hab). cbn [fst snd] in Heq2.
      destruct (allPairs_In l a b Hnd' Hab) as (Ha & Hb & _).
      rewrite <- Heq2 in Heq1.
      apply collisionPairKey_eq_iff in Heq1.
      destruct Heq1 as [[-> _] | [-> _]]; contradiction.
Qed.

(** A witness of [update_after_reset]: a frame of a tenth of a second
    after the reset of [boxesWorld]. *)
Lemma update_after_reset_witness :
  exists W' n,
    PhysicsManager.update PhysicsConstants 6 (1 / 10) (PhysicsManager.reset boxesWorld)
    = Some (W', n)
    /\ events W' = events boxesWorld /\ objects W' = objects boxesWorld.
Proof.
  destruct (PhysicsManager.update PhysicsConstants 6 (1 / 10) (PhysicsManager.reset boxesWorld))
    as [[W' n] |] eqn:Hu.
  - exists W', n. split; [reflexivity |].
    destruct (update_after_reset PhysicsConstants 6 (1 / 10) boxesWorld W' n Hu)
      as (Ho & _ & _ & He & _).
    split; assumption.
  - exfalso. revert Hu. unfold PhysicsManager.update. cbv zeta. unfold Rgtb.
    rewrite (proj2 (Rltb_true _ _)) by (cbn; lra).
    match goal with
    | |- PhysicsManager.updateLoop _ _ ?V = None -> _ =>
        destruct (updateLoop_terminates PhysicsConstants 5 V) as (W' & n & -> & _)
    end.
    + cbn. lra.
    + cbn. lra.
    + discriminate.
Defined.

(** A witness of [allPairs_each_pair_once]: three colliders. *)
Lemma allPairs_each_pair_once_witness :
  (forall a b, In (a, b) (PhysicsManager.allPairs [1; 2; 3]%nat) ->
     In a [1; 2; 3]%nat /\ In b [1; 2; 3]%nat /\ a <> b)
  /\ (forall a b, In a [1; 2; 3]%nat -> In b [1; 2; 3]%nat -> a <> b ->
        In (a, b) (PhysicsManager.allPairs [1; 2; 3]%nat)
        \/ In (b, a) (PhysicsManager.allPairs [1; 2; 3]%nat))
  /\ NoDup (map (fun p => PhysicsManager.collisionPairKey (fst p) (snd p))
              (PhysicsManager.allPairs [1; 2; 3]%nat)).
Proof.
  apply (allPairs_each_pair_once [1; 2; 3]%nat).
  repeat constructor; simpl; intuition discriminate.
Defined.
